(** * The KYC form data parser ([data_parser.py]): model and verification

  The development follows the source file from the leaves up:

  - [PyStr]: the operations of Python's [str] that [DataParser] calls
    ([strip], [upper], [lower], [split], [join], [in], ...);
  - [PyRe]: the part of Python's [re] module that the pattern catalog
    exercises: a parser for the pattern syntax and a backtracking matcher;
  - [Catalog]: the pattern dictionary built by [DataParser.__init__];
  - [DataParser]: the extraction methods, written against an arbitrary
    regular-expression engine [re_search];
  - [Py]: the same methods run with the [PyRe] engine on the catalog.

  Text is a [string] whose characters are 8-bit code points (Latin-1, the
  range in which every character of the catalog lies). A dictionary is a
  [gmap string string]. *)

From Stdlib Require Import Ascii String List NArith Bool Lia.
From stdpp Require Import base option list gmap strings.
Import ListNotations.

#[local] Open Scope N_scope.
#[local] Open Scope nat_scope.

(** ** Python [str] *)

Module PyStr.

Definition ord (c : ascii) : N := N_of_ascii c.
Definition chr (n : N) : ascii := ascii_of_N n.

Definition between (lo hi n : N) : bool := ((lo <=? n) && (n <=? hi))%N.

(** The newline character and the one-character string holding it. *)
Definition nl_char : ascii := chr 10.
Definition nl : string := String nl_char "".

(** [str.isspace] on one character, which is also the class [\s]. *)
Definition isspace (c : ascii) : bool :=
  let n := ord c in
  between 9 13 n || between 28 32 n || (n =? 133)%N || (n =? 160)%N.

(** The class [\d]: the decimal digits. *)
Definition isdigit (c : ascii) : bool := between 48 57 (ord c).

(** Characters that [lower] changes, and characters that [upper] changes
    to another 8-bit character. The sharp s, the y with diaeresis and the
    micro sign have no 8-bit upper case and are left as they are. *)
Definition has_lower (c : ascii) : bool :=
  let n := ord c in
  between 65 90 n || (between 192 222 n && negb (n =? 215)%N).
Definition has_upper (c : ascii) : bool :=
  let n := ord c in
  between 97 122 n || (between 224 254 n && negb (n =? 247)%N).

Definition lower_char (c : ascii) : ascii :=
  if has_lower c then chr (ord c + 32) else c.
Definition upper_char (c : ascii) : ascii :=
  if has_upper c then chr (ord c - 32) else c.

(** [str.isalnum] on one character. *)
Definition isalnum_char (c : ascii) : bool :=
  let n := ord c in
  between 48 57 n || between 65 90 n || between 97 122 n
  || (n =? 170)%N || between 178 179 n || (n =? 181)%N
  || between 185 186 n || between 188 190 n
  || between 192 214 n || between 216 246 n || between 248 255 n.

(** The class [\w]. *)
Definition isword (c : ascii) : bool :=
  isalnum_char c || Ascii.eqb c "_".

Fixpoint smap (f : ascii → ascii) (s : string) : string :=
  match s with
  | EmptyString => EmptyString
  | String c s' => String (f c) (smap f s')
  end.

Fixpoint sfilter (p : ascii → bool) (s : string) : string :=
  match s with
  | EmptyString => EmptyString
  | String c s' => if p c then String c (sfilter p s') else sfilter p s'
  end.

Fixpoint sall (p : ascii → bool) (s : string) : bool :=
  match s with
  | EmptyString => true
  | String c s' => p c && sall p s'
  end.

Definition lower : string → string := smap lower_char.
Definition upper : string → string := smap upper_char.

(** Truth value of a string: [if s:]. *)
Definition truthy (s : string) : bool :=
  match s with EmptyString => false | _ => true end.

Fixpoint lstrip (s : string) : string :=
  match s with
  | EmptyString => EmptyString
  | String c s' => if isspace c then lstrip s' else s
  end.

Fixpoint rstrip (s : string) : string :=
  match s with
  | EmptyString => EmptyString
  | String c s' =>
      let r := rstrip s' in
      if isspace c && negb (truthy r) then EmptyString else String c r
  end.

(** [s.strip()] *)
Definition strip (s : string) : string := rstrip (lstrip s).

(** [s.startswith(p)] *)
Definition startswith (p s : string) : bool := String.prefix p s.

(** [sub in s] *)
Fixpoint contains (sub s : string) : bool :=
  startswith sub s
  || match s with
     | EmptyString => false
     | String _ s' => contains sub s'
     end.

(** [s.endswith(p)] *)
Definition endswith (p s : string) : bool :=
  startswith (String.rev p) (String.rev s).

(** [s.split(sep)[0]] for a non-empty separator: the part of [s] before
    the first occurrence of [sep], all of [s] when there is none. *)
Fixpoint split_head (sep s : string) : string :=
  if startswith sep s then EmptyString
  else match s with
       | EmptyString => EmptyString
       | String c s' => String c (split_head sep s')
       end.

(** [s.split('\n')] *)
Fixpoint split_lines (s : string) : list string :=
  match s with
  | EmptyString => [EmptyString]
  | String c s' =>
      match split_lines s' with
      | l :: ls =>
          if Ascii.eqb c nl_char then EmptyString :: l :: ls
          else String c l :: ls
      | [] => [String c EmptyString]
      end
  end.

(** [sep.join(parts)] *)
Fixpoint join (sep : string) (parts : list string) : string :=
  match parts with
  | [] => EmptyString
  | [p] => p
  | p :: rest => p +:+ sep +:+ join sep rest
  end.

(** [s.replace(c, '')] for a one-character [c]. *)
Definition remove_char (c : ascii) (s : string) : string :=
  sfilter (fun x => negb (Ascii.eqb x c)) s.

(** [s.isalnum()] *)
Definition isalnum (s : string) : bool := truthy s && sall isalnum_char s.

(** [re.sub(r'[^...]', '', s)] with a negated class: the characters of
    the class are kept. *)
Definition keep_chars (p : ascii → bool) (s : string) : string := sfilter p s.

(** [re.sub(r'^[...]+', '', s)] and [re.sub(r'[...]+$', '', s)] without
    [MULTILINE]: the longest leading, respectively trailing, run of class
    characters is removed. *)
Fixpoint lstrip_by (p : ascii → bool) (s : string) : string :=
  match s with
  | EmptyString => EmptyString
  | String c s' => if p c then lstrip_by p s' else s
  end.

Fixpoint rstrip_by (p : ascii → bool) (s : string) : string :=
  match s with
  | EmptyString => EmptyString
  | String c s' =>
      let r := rstrip_by p s' in
      if p c && negb (truthy r) then EmptyString else String c r
  end.

(** [re.sub(r'\s+', rep, s)]: every run of whitespace becomes [rep]. *)
Fixpoint sub_spaces_go (rep : string) (in_run : bool) (s : string) : string :=
  match s with
  | EmptyString => EmptyString
  | String c s' =>
      if isspace c then
        if in_run then sub_spaces_go rep true s'
        else rep +:+ sub_spaces_go rep true s'
      else String c (sub_spaces_go rep false s')
  end.
Definition sub_spaces (rep s : string) : string := sub_spaces_go rep false s.

(** [s.replace(old, new)] for a non-empty [old]; [skip] counts the
    characters of an occurrence still to be passed over. *)
Fixpoint replace_go (old new : string) (skip : nat) (s : string) : string :=
  match s with
  | EmptyString => EmptyString
  | String c s' =>
      match skip with
      | S n => replace_go old new n s'
      | O =>
          if startswith old s
          then new +:+ replace_go old new (String.length old - 1) s'
          else String c (replace_go old new 0 s')
      end
  end.
Definition replace (old new s : string) : string := replace_go old new 0 s.

(** [re.split(r'\b(w1|w2|...)\b', s)[0]] for words that begin and end with
    word characters: the part of [s] before the first place where one of
    the words stands between two word boundaries. [prev] tells whether the
    character before the position is a word character. *)
Definition first_char_isword (s : string) : bool :=
  match s with
  | EmptyString => false
  | String c _ => isword c
  end.

Fixpoint drop_prefix (p s : string) : option string :=
  match p, s with
  | EmptyString, _ => Some s
  | String a p', String b s' => if Ascii.eqb a b then drop_prefix p' s' else None
  | String _ _, EmptyString => None
  end.

Definition word_here (s w : string) : bool :=
  match drop_prefix w s with
  | Some rest => negb (first_char_isword rest)
  | None => false
  end.

Fixpoint split_words_head_go (ws : list string) (prev : bool) (s : string) : string :=
  if negb prev && existsb (word_here s) ws then EmptyString
  else match s with
       | EmptyString => EmptyString
       | String c s' => String c (split_words_head_go ws (isword c) s')
       end.
Definition split_words_head (ws : list string) (s : string) : string :=
  split_words_head_go ws false s.

(** [re.match(r'^\d{4}[-/]\d{2}[-/]\d{2}$', s)] as a truth value. *)
Definition is_date_sep (c : ascii) : bool := Ascii.eqb c "-" || Ascii.eqb c "/".
Definition matches_date (s : string) : bool :=
  match s with
  | String y1 (String y2 (String y3 (String y4 (String s1
      (String m1 (String m2 (String s2 (String d1 (String d2 rest))))))))) =>
      isdigit y1 && isdigit y2 && isdigit y3 && isdigit y4 && is_date_sep s1
      && isdigit m1 && isdigit m2 && is_date_sep s2 && isdigit d1 && isdigit d2
      && (negb (truthy rest) || bool_decide (rest = nl))
  | _ => false
  end.

(** A source literal holding characters beyond ASCII is written in the
    file as UTF-8; [latin1] gives the 8-bit code points it denotes. *)
Fixpoint latin1 (s : string) : string :=
  match s with
  | EmptyString => EmptyString
  | String c s' =>
      match s' with
      | String d s'' =>
          if (ord c =? 194)%N then String d (latin1 s'')
          else if (ord c =? 195)%N then String (chr (ord d + 64)) (latin1 s'')
          else String c (latin1 s')
      | EmptyString => s
      end
  end.

End PyStr.

(** ** Python [re] *)

(** What [re.search(pattern, text, flags)] does: it raises [re.error] on a
  malformed pattern, returns [None], or returns a match object, of which
  the model keeps the groups [1..n]; a group that took no part in the
  match is [None]. *)
Inductive re_result :=
| ReRaise
| ReNoMatch
| ReMatch (groups : list (option string)).

Module PyRe.
Import PyStr.

Inductive category := KSpace | KDigit | KWord.

(** An item of a bracketed class. *)
Inductive citem :=
| CLit (c : ascii)
| CRange (lo hi : ascii)
| CCat (negated : bool) (k : category).

Inductive regex :=
| Eps
| Lit (c : ascii)
| Dot
| CSet (negated : bool) (items : list citem)
| Bol
| Eol
| WordB (negated : bool)
| Seq (r1 r2 : regex)
| Alt (r1 r2 : regex)
| Rep (lo : nat) (hi : option nat) (greedy : bool) (r : regex)
| Group (i : nat) (r : regex)
| Look (behind negated : bool) (r : regex).

Record flags := { ignorecase : bool; multiline : bool }.

(** The position of the matcher in the text: the characters before it
    (nearest first), the characters after it, and the groups closed so
    far (latest first). *)
Record mstate := MState {
  before : list ascii;
  after : list ascii;
  groups : list (nat * string)
}.

Definition in_category (k : category) (c : ascii) : bool :=
  match k with
  | KSpace => isspace c
  | KDigit => isdigit c
  | KWord => isword c
  end.

Definition in_range (lo hi c : ascii) : bool := between (ord lo) (ord hi) (ord c).

(** Under [IGNORECASE] the compiler lower-cases the literals and ranges
    of a class and the matcher tests the lower-cased character. *)
Definition item_match (fl : flags) (it : citem) (c : ascii) : bool :=
  match it with
  | CLit l =>
      if ignorecase fl then Ascii.eqb c (lower_char l) else Ascii.eqb c l
  | CRange lo hi =>
      if ignorecase fl
      then in_range lo hi c || (has_upper c && in_range lo hi (upper_char c))
      else in_range lo hi c
  | CCat neg k => xorb neg (in_category k c)
  end.

Definition set_match (fl : flags) (neg : bool) (items : list citem) (c : ascii) : bool :=
  let c' := if ignorecase fl then lower_char c else c in
  xorb neg (existsb (fun it => item_match fl it c') items).

Definition lit_match (fl : flags) (l c : ascii) : bool :=
  if ignorecase fl then Ascii.eqb (lower_char c) (lower_char l) else Ascii.eqb c l.

Definition at_bol (fl : flags) (st : mstate) : bool :=
  match before st with
  | [] => true
  | c :: _ => multiline fl && Ascii.eqb c nl_char
  end.

Definition at_eol (fl : flags) (st : mstate) : bool :=
  match after st with
  | [] => true
  | c :: rest =>
      Ascii.eqb c nl_char
      && (multiline fl || match rest with [] => true | _ => false end)
  end.

Definition word_at (l : list ascii) : bool :=
  match l with
  | [] => false
  | c :: _ => isword c
  end.

Definition at_boundary (st : mstate) : bool :=
  xorb (word_at (before st)) (word_at (after st)).

Definition step_char (p : ascii → bool) (st : mstate)
    (k : mstate → option mstate) : option mstate :=
  match after st with
  | c :: rest =>
      if p c then k (MState (c :: before st) rest (groups st)) else None
  | [] => None
  end.

(** The text consumed between two positions of one match. *)
Definition consumed (st st' : mstate) : string :=
  string_of_list_ascii
    (firstn (length (after st) - length (after st')) (after st)).

Definition progressed (st st' : mstate) : bool :=
  length (after st') <? length (after st).

Definition below (count : nat) (hi : option nat) : bool :=
  match hi with
  | None => true
  | Some h => count <? h
  end.

(** The width of a pattern when every match of it has the same length;
    a look-behind takes only such patterns. *)
Fixpoint width (r : regex) : option nat :=
  match r with
  | Eps | Bol | Eol | WordB _ | Look _ _ _ => Some 0
  | Lit _ | Dot | CSet _ _ => Some 1
  | Seq r1 r2 =>
      match width r1, width r2 with
      | Some a, Some b => Some (a + b)
      | _, _ => None
      end
  | Alt r1 r2 =>
      match width r1, width r2 with
      | Some a, Some b => if a =? b then Some a else None
      | _, _ => None
      end
  | Rep lo (Some hi) _ r1 =>
      if lo =? hi then
        match width r1 with Some a => Some (lo * a) | None => None end
      else None
  | Rep _ None _ _ => None
  | Group _ r1 => width r1
  end.

(** The backtracking matcher, in continuation-passing style: [k] is
    the rest of the pattern. Alternatives and repetitions are tried in
    the order in which Python tries them, so the first success found is
    the match Python reports. A repetition runs for at most
    [lo + length (after st) + 1] rounds: a round beyond [lo] that
    consumes nothing is not taken. *)
Fixpoint m (fl : flags) (r : regex) (st : mstate)
    (k : mstate → option mstate) {struct r} : option mstate :=
  match r with
  | Eps => k st
  | Lit l => step_char (lit_match fl l) st k
  | Dot => step_char (fun c => negb (Ascii.eqb c nl_char)) st k
  | CSet neg items => step_char (set_match fl neg items) st k
  | Bol => if at_bol fl st then k st else None
  | Eol => if at_eol fl st then k st else None
  | WordB neg => if xorb neg (at_boundary st) then k st else None
  | Seq r1 r2 => m fl r1 st (fun st' => m fl r2 st' k)
  | Alt r1 r2 =>
      match m fl r1 st k with
      | Some res => Some res
      | None => m fl r2 st k
      end
  | Rep lo hi greedy body =>
      (fix loop (fuel count : nat) (st : mstate) {struct fuel} : option mstate :=
         match fuel with
         | 0 => None
         | S fuel' =>
             let more (_ : unit) :=
               if below count hi then
                 m fl body st (fun st' =>
                   if (count <? lo) || progressed st st'
                   then loop fuel' (S count) st'
                   else None)
               else None in
             let stop (_ : unit) := if lo <=? count then k st else None in
             if greedy then
               match more tt with Some res => Some res | None => stop tt end
             else
               match stop tt with Some res => Some res | None => more tt end
         end) (lo + length (after st) + 1) 0 st
  | Group i body =>
      m fl body st (fun st' =>
        k (MState (before st') (after st') ((i, consumed st st') :: groups st')))
  | Look false neg body =>
      match m fl body st Some with
      | Some st' =>
          if neg then None else k (MState (before st) (after st) (groups st'))
      | None => if neg then k st else None
      end
  | Look true neg body =>
      match width body with
      | None => None
      | Some w =>
          if length (before st) <? w then (if neg then k st else None)
          else
            let st0 := MState (skipn w (before st))
                         (rev_append (firstn w (before st)) (after st))
                         (groups st) in
            let here st' :=
              if length (after st') =? length (after st) then Some st' else None in
            match m fl body st0 here with
            | Some st' =>
                if neg then None
                else k (MState (before st) (after st) (groups st'))
            | None => if neg then k st else None
            end
      end
  end.

(** [re.search] scans the start positions from left to right. *)
Fixpoint search_from (fl : flags) (r : regex) (bef aft : list ascii) : option mstate :=
  match m fl r (MState bef aft []) Some with
  | Some st => Some st
  | None =>
      match aft with
      | [] => None
      | c :: aft' => search_from fl r (c :: bef) aft'
      end
  end.

Fixpoint group_lookup (i : nat) (gs : list (nat * string)) : option string :=
  match gs with
  | [] => None
  | (j, s) :: gs' => if i =? j then Some s else group_lookup i gs'
  end.

(** *** The pattern syntax

    [parse_alt], [parse_seq] and [parse_atom] read a pattern as
    [re.compile] does; [None] stands for [re.error]. The third component
    of a result counts the capturing groups opened so far. Covered are the
    constructs of the catalog: literals, escapes, classes, groups,
    look-ahead and look-behind, greedy and lazy repetition, alternation
    and the anchors. *)

Definition digit_val (c : ascii) : option nat :=
  if isdigit c then Some (N.to_nat (ord c - 48)) else None.

Fixpoint read_nat (acc : nat) (s : list ascii) : nat * list ascii :=
  match s with
  | c :: s' =>
      match digit_val c with
      | Some d => read_nat (10 * acc + d) s'
      | None => (acc, s)
      end
  | [] => (acc, s)
  end.

Definition starts_digit (s : list ascii) : bool :=
  match s with
  | c :: _ => isdigit c
  | [] => false
  end.

(** The bounds of a braced repetition: [{m}], [{m,}], [{,n}] or [{m,n}].
    Anything else after the brace leaves the brace a literal. *)
Definition read_braces (s : list ascii) : option (nat * option nat * list ascii) :=
  let '(lo, s1) := read_nat 0 s in
  match s1 with
  | "}"%char :: s2 => if starts_digit s then Some (lo, Some lo, s2) else None
  | ","%char :: s2 =>
      let '(hi, s3) := read_nat 0 s2 in
      match s3 with
      | "}"%char :: s4 =>
          Some (lo, if starts_digit s2 then Some hi else None, s4)
      | _ => None
      end
  | _ => None
  end.

Definition is_repeat_char (c : ascii) : bool :=
  Ascii.eqb c "*" || Ascii.eqb c "+" || Ascii.eqb c "?".

Definition is_ascii_alnum (c : ascii) : bool :=
  let n := ord c in between 48 57 n || between 65 90 n || between 97 122 n.

(** The repetition that may follow an atom, with its lazy mark. A second
    repetition mark after it is an error ("multiple repeat"). *)
Definition parse_repeat (a : regex) (s : list ascii) : option (regex * list ascii) :=
  let bounds :=
    match s with
    | "*"%char :: s' => Some (0, None, s')
    | "+"%char :: s' => Some (1, None, s')
    | "?"%char :: s' => Some (0, Some 1, s')
    | "{"%char :: s' => read_braces s'
    | _ => None
    end in
  match bounds with
  | None => Some (a, s)
  | Some (lo, hi, s') =>
      if match hi with Some h => h <? lo | None => false end then None
      else
        let '(greedy, s'') :=
          match s' with
          | "?"%char :: t => (false, t)
          | _ => (true, s')
          end in
        match s'' with
        | c :: _ => if is_repeat_char c then None else Some (Rep lo hi greedy a, s'')
        | [] => Some (Rep lo hi greedy a, s'')
        end
  end.

(** An escape inside or outside a class: a category, a control character
    or an escaped punctuation mark. An ASCII letter or digit that names no
    escape is an error ("bad escape"). *)
Definition parse_escape (c : ascii) : option citem :=
  if Ascii.eqb c "s" then Some (CCat false KSpace)
  else if Ascii.eqb c "S" then Some (CCat true KSpace)
  else if Ascii.eqb c "d" then Some (CCat false KDigit)
  else if Ascii.eqb c "D" then Some (CCat true KDigit)
  else if Ascii.eqb c "w" then Some (CCat false KWord)
  else if Ascii.eqb c "W" then Some (CCat true KWord)
  else if Ascii.eqb c "n" then Some (CLit nl_char)
  else if Ascii.eqb c "t" then Some (CLit (chr 9))
  else if Ascii.eqb c "r" then Some (CLit (chr 13))
  else if Ascii.eqb c "f" then Some (CLit (chr 12))
  else if Ascii.eqb c "v" then Some (CLit (chr 11))
  else if is_ascii_alnum c then None
  else Some (CLit c).

(** One member of a class: a character or an escape. *)
Definition class_member (s : list ascii) : option (citem * list ascii) :=
  match s with
  | "\"%char :: c :: s' =>
      match parse_escape c with
      | Some it => Some (it, s')
      | None => None
      end
  | "\"%char :: [] => None
  | c :: s' => Some (CLit c, s')
  | [] => None
  end.

(** The items of a class up to its closing bracket. *)
Fixpoint parse_class (fuel : nat) (first : bool) (s : list ascii)
    : option (list citem * list ascii) :=
  match fuel with
  | 0 => None
  | S fuel' =>
      match s with
      | [] => None
      | "]"%char :: s' =>
          if first then
            match parse_class fuel' false s' with
            | Some (items, rest) => Some (CLit "]" :: items, rest)
            | None => None
            end
          else Some ([], s')
      | _ =>
          match class_member s with
          | None => None
          | Some (it, s1) =>
              match s1 with
              | "-"%char :: "]"%char :: s2 => Some ([it; CLit "-"], s2)
              | "-"%char :: s2 =>
                  match it, class_member s2 with
                  | CLit lo, Some (CLit hi, s3) =>
                      if (ord hi <? ord lo)%N then None
                      else
                        match parse_class fuel' false s3 with
                        | Some (items, rest) => Some (CRange lo hi :: items, rest)
                        | None => None
                        end
                  | _, _ => None
                  end
              | _ =>
                  match parse_class fuel' false s1 with
                  | Some (items, rest) => Some (it :: items, rest)
                  | None => None
                  end
              end
          end
      end
  end.

Definition expect_close (res : option (regex * list ascii * nat))
    (wrap : regex → option regex) : option (regex * list ascii * nat) :=
  match res with
  | Some (r, ")"%char :: rest, g) =>
      match wrap r with
      | Some r' => Some (r', rest, g)
      | None => None
      end
  | _ => None
  end.

Definition look_behind (neg : bool) (r : regex) : option regex :=
  match width r with
  | Some _ => Some (Look true neg r)
  | None => None
  end.

Fixpoint parse_alt (fuel : nat) (s : list ascii) (g : nat) {struct fuel}
    : option (regex * list ascii * nat) :=
  match fuel with
  | 0 => None
  | S fuel' =>
      match parse_seq fuel' s g with
      | Some (r1, "|"%char :: s1, g1) =>
          match parse_alt fuel' s1 g1 with
          | Some (r2, s2, g2) => Some (Alt r1 r2, s2, g2)
          | None => None
          end
      | other => other
      end
  end
with parse_seq (fuel : nat) (s : list ascii) (g : nat) {struct fuel}
    : option (regex * list ascii * nat) :=
  match fuel with
  | 0 => None
  | S fuel' =>
      match s with
      | [] => Some (Eps, s, g)
      | "|"%char :: _ => Some (Eps, s, g)
      | ")"%char :: _ => Some (Eps, s, g)
      | _ =>
          match parse_atom fuel' s g with
          | Some (a, s1, g1) =>
              match parse_repeat a s1 with
              | Some (q, s2) =>
                  match parse_seq fuel' s2 g1 with
                  | Some (rest, s3, g3) => Some (Seq q rest, s3, g3)
                  | None => None
                  end
              | None => None
              end
          | None => None
          end
      end
  end
with parse_atom (fuel : nat) (s : list ascii) (g : nat) {struct fuel}
    : option (regex * list ascii * nat) :=
  match fuel with
  | 0 => None
  | S fuel' =>
      match s with
      | "("%char :: "?"%char :: ":"%char :: s' =>
          expect_close (parse_alt fuel' s' g) Some
      | "("%char :: "?"%char :: "="%char :: s' =>
          expect_close (parse_alt fuel' s' g) (fun r => Some (Look false false r))
      | "("%char :: "?"%char :: "!"%char :: s' =>
          expect_close (parse_alt fuel' s' g) (fun r => Some (Look false true r))
      | "("%char :: "?"%char :: "<"%char :: "="%char :: s' =>
          expect_close (parse_alt fuel' s' g) (look_behind false)
      | "("%char :: "?"%char :: "<"%char :: "!"%char :: s' =>
          expect_close (parse_alt fuel' s' g) (look_behind true)
      | "("%char :: "?"%char :: _ => None
      | "("%char :: s' =>
          expect_close (parse_alt fuel' s' (S g)) (fun r => Some (Group (S g) r))
      | "["%char :: "^"%char :: s' =>
          match parse_class fuel' true s' with
          | Some (items, rest) => Some (CSet true items, rest, g)
          | None => None
          end
      | "["%char :: s' =>
          match parse_class fuel' true s' with
          | Some (items, rest) => Some (CSet false items, rest, g)
          | None => None
          end
      | "\"%char :: c :: s' =>
          if Ascii.eqb c "b" then Some (WordB false, s', g)
          else if Ascii.eqb c "B" then Some (WordB true, s', g)
          else
            match parse_escape c with
            | Some (CLit l) => Some (Lit l, s', g)
            | Some it => Some (CSet false [it], s', g)
            | None => None
            end
      | "\"%char :: [] => None
      | "."%char :: s' => Some (Dot, s', g)
      | "^"%char :: s' => Some (Bol, s', g)
      | "$"%char :: s' => Some (Eol, s', g)
      | c :: s' => if is_repeat_char c then None else Some (Lit c, s', g)
      | [] => None
      end
  end.

(** [re.compile]: the pattern and the number of its groups. In Python 3.11
    and later an inline flag group such as [(?i)] that is not at the start
    of the pattern is an error, which is what [parse_atom] makes of it. *)
Definition compile (pattern : string) : option (regex * nat) :=
  let s := list_ascii_of_string pattern in
  match parse_alt (S (S (3 * length s))) s 0 with
  | Some (r, [], n) => Some (r, n)
  | _ => None
  end.

(** [re.search(pattern, text, flags)] *)
Definition search (fl : flags) (pattern text : string) : re_result :=
  match compile pattern with
  | None => ReRaise
  | Some (r, n) =>
      match search_from fl r [] (list_ascii_of_string text) with
      | None => ReNoMatch
      | Some st => ReMatch (map (fun i => group_lookup i (groups st)) (seq 1 n))
      end
  end.

(** The flags every catalog pattern is searched with:
    [re.IGNORECASE | re.MULTILINE]. *)
Definition IM : flags := {| ignorecase := true; multiline := true |}.

End PyRe.

(** ** The pattern catalog

    [self.patterns] as [DataParser.__init__] builds it: a list of patterns
    for each flat field, and for each category the list of its fields in
    the order of the dictionary, each with its patterns. *)

Module Catalog.
Import PyStr.

Definition name : list string :=
  [ "Name[:\s]+([A-Z][A-Z\s]+?)(?=\s*(?:Date of Birth|Gender|Father|Mother|Occupation|$|\n))";
    latin1 "gfd[:\s]+([A-Z][A-Z\s]+?)(?=\s*(?:hGd ldlt|ln·|$|\n))";
    "Name \(In Block Letter\)[:\s]+([A-Z][A-Z\s]+?)(?=\s*(?:Date of Birth|Gender|$|\n))" ].

Definition date_of_birth : list string :=
  [ "Date of Birth[:\s]+AD[:\s]*(\d{4}-\d{2}-\d{2})";
    "AD[:\s]*:\s*(\d{4}-\d{2}-\d{2})";
    "hGd ldlt[:\s]+O\{=[:\s]*(\d{4}-\d{2}-\d{2})" ].

Definition gender : list string :=
  [ "Gender[:\s]+([MF])(?=\s*(?:Nationality|Citizenship|$|\n))";
    latin1 "ln·[:\s]+([MF])(?=\s*(?:/fli6«otf|gful/stf|$|\n))" ].

Definition citizenship_no : list string :=
  [ "Citizenship No[.:]?\s*(\d+)(?=\s*(?:Issue|District|hf/L|lhNnf))";
    "Citizenship Number[:\s]*(\d+)(?=\s*(?:Issue|District|hf/L|lhNnf))";
    "gful/stf gDa/[:\s]*(\d+)(?=\s*(?:Issue|District|hf/L|lhNnf))";
    "gful/stf g+=[:\s]*(\d+)(?=\s*(?:Issue|District|hf/L|lhNnf))";
    "Citizenship[:\s]*(\d+)(?=\s*(?:Issue|District|hf/L|lhNnf))";
    "(?<!Date\s)(?<!Birth\s)(\d{3,6})(?=\s*(?:Issue|District|hf/L|lhNnf))" ].

Definition beneficiary_id : list string :=
  [ "Beneficiary ID No[.:]?\s*(\d+)";
    "Beneficiary ID Number[:\s]*(\d+)";
    "Beneficiary.*?ID.*?(\d+)";
    "ID.*?No[.:]?\s*(\d+)";
    "lxtu|fxL.*?vftf g+=[:\s]*(\d+)";
    "lxtu|fxL.*?(\d+)";
    "Beneficiary.*?(\d+)" ].

Definition pan_no : list string :=
  [ "Permanent Account No[.:]?\s*\(PAN\)[:\s]*([A-Z0-9]{9,12})";
    "PAN[:\s]*([A-Z0-9]{9,12})(?!\s*(?:ies|No|Number))";
    ":yfoL n]vf g+=[:\s]*([A-Z0-9]{9,12})" ].

Definition issue_district : list string :=
  [ "Citizenship\s+Details[\s\S]{0,100}?Issue\s+District[:\s]*([A-Za-z\s]+?)(?=\s*(?:Issue\s+Date|Beneficiary|$|\n))";
    "Issue\s+District[:\s]*([A-Za-z\s]+?)(?=\s*(?:Issue\s+Date|Beneficiary|$|\n))" ].

Definition issue_date : list string :=
  [ "Issue Date\s+(\d{4}-\d{2}-\d{2})";
    "hf/L ldlt[:\s]*(\d{4}-\d{2}-\d{2})" ].

Definition national_id : list string :=
  [ "National ID No[.:]?\s*(\d+)";
    "National ID Number[:\s]*(\d+)";
    latin1 "/fli6«o kl/ro kq g+=[:\s]*(\d+)" ].

Definition current_address : list (string * list string) :=
  [ ("country",
     [ "Current\s+Address[:\s]*.*?Country[:\s]*([A-Za-z\s]+?)(?=\s*(?:Province|District|$|\n))";
       "(?:^|\n)(?!.*Permanent)(?!.*Temporary).*?Country[:\s]+([A-Za-z\s]+?)(?=\s*(?:Province|District|$|\n))" ]);
    ("province",
     [ "Current\s+Address[:\s]*.*?Province[:\s]*([A-Za-z0-9_\s]+?)(?=\s*(?:District|Municipality|$|\n))";
       "(?:^|\n)(?!.*Permanent)(?!.*Temporary).*?Province[:\s]+([A-Za-z0-9_\s]+?)(?=\s*(?:District|Municipality|$|\n))" ]);
    ("district",
     [ "Current\s+Address[\s\S]{0,100}?District[:\s]*([A-Za-z\s]+?)(?=\s*(?:Municipality|Ward|Tole|$|\n))";
       "\bCurrent\s+District[:\s]*([A-Za-z\s]+?)(?=\s*(?:Municipality|Ward|Tole|$|\n))" ]);
    ("municipality",
     [ "Current\s+Address[:\s]*.*?Municipality[:\s]*([A-Za-z\s]+?)(?=\s*(?:Ward|Tole|$|\n))";
       "(?:^|\n)(?!.*Permanent)(?!.*Temporary).*?Municipality[:\s]+([A-Za-z\s]+?)(?=\s*(?:Ward|Tole|$|\n))" ]);
    ("ward_no",
     [ "Current\s+Address[:\s]*.*?Ward No[.:]?\s*(\d+)(?=\s*(?:Tole|Telephone|Mobile|Email|$|\n))";
       "(?:^|\n)(?!.*Permanent)(?!.*Temporary).*?Ward No[.:]?\s*(\d+)(?=\s*(?:Tole|Telephone|Mobile|Email|$|\n))" ]);
    ("tole",
     [ "Current\s+Address[:\s]*.*?Tole[:\s]*([A-Za-z\s]+?)(?=\s*(?:Telephone|Mobile|Email|$|\n))";
       "(?:^|\n)(?!.*Permanent)(?!.*Temporary).*?Tole[:\s]+([A-Za-z\s]+?)(?=\s*(?:Telephone|Mobile|Email|$|\n))" ]);
    ("telephone",
     [ "Current\s+Address[:\s]*.*?Telephone No[.:]?\s*(\d+)(?=\s*(?:Mobile|Email|Permanent|$|\n))";
       "(?:^|\n)(?!.*Permanent)(?!.*Temporary).*?Telephone No[.:]?\s*(\d+)(?=\s*(?:Mobile|Email|$|\n))" ]);
    ("mobile",
     [ "Current\s+Address[:\s]*.*?Mobile No[.:]?\s*(\d+)(?=\s*(?:Email|Permanent|Temporary|$|\n))";
       "(?:^|\n)(?!.*Permanent)(?!.*Temporary).*?Mobile No[.:]?\s*(\d+)(?=\s*(?:Email|$|\n))" ]);
    ("email",
     [ "Current\s+Address[:\s]*.*?Email ID[:\s]*([A-Za-z0-9@._\-]+?)(?=\s*(?:Mobile|Permanent|Temporary|$|\n))";
       "(?:^|\n)(?!.*Permanent)(?!.*Temporary).*?Email ID[:\s]+([A-Za-z0-9@._\-]+?)(?=\s*(?:$|\n))" ]) ].

Definition permanent_address : list (string * list string) :=
  [ ("country",
     [ "Permanent Address[:\s]*.*?Country[:\s]*([A-Za-z\s]+?)(?=\s*(?:Province|District|$|\n))";
       "Permanent.*?Country[:\s]*([A-Za-z\s]+?)(?=\s*(?:Province|District|$|\n))";
       ":yfoL 7]ufgf[:\s]*.*?b]z[:\s]*([A-Za-z\s]+?)(?=\s*(?:k|b]z|lhNnf|$|\n))";
       "Permanent.*?Country[:\s]*([A-Za-z\s]+)";
       "Country[:\s]*([A-Za-z\s]+?)(?=.*?Province)";
       "(?:Country|b]z)[:\s]*([A-Za-z\s]+?)(?=\s*(?:Province|k|b]z|District|lhNnf))" ]);
    ("province",
     [ "Permanent Address[:\s]*.*?Province[:\s]*([A-Za-z0-9_\s]+?)(?=\s*(?:District|Municipality|$|\n))";
       "Permanent.*?Province[:\s]*([A-Za-z0-9_\s]+?)(?=\s*(?:District|Municipality|$|\n))";
       ":yfoL 7]ufgf[:\s]*.*?k|b]z[:\s]*([A-Za-z0-9_\s]+?)(?=\s*(?:lhNnf|uf=kf=|$|\n))";
       "Permanent.*?Province[:\s]*([A-Za-z0-9_\s]+)";
       "Province[:\s]*([A-Za-z0-9_\s]+?)(?=.*?District)";
       "(?:Province|k|b]z)[:\s]*([A-Za-z0-9_\s]+?)(?=\s*(?:District|lhNnf|Municipality|uf=kf=))" ]);
    ("district",
     [ "Permanent Address[:\s]*.*?District[:\s]*([A-Za-z\s]+?)(?=\s*(?:Municipality|Ward|Tole|$|\n))";
       "Permanent.*?District[:\s]*([A-Za-z\s]+?)(?=\s*(?:Municipality|Ward|Tole|$|\n))";
       ":yfoL 7]ufgf[:\s]*.*?lhNnf[:\s]*([A-Za-z\s]+?)(?=\s*(?:uf=kf=|j8f|6f]n|$|\n))";
       "Permanent.*?District[:\s]*([A-Za-z\s]+)";
       "District[:\s]*([A-Za-z\s]+?)(?=.*?Municipality)";
       "(?:District|lhNnf)[:\s]*([A-Za-z\s]+?)(?=\s*(?:Municipality|uf=kf=|Ward|j8f|Tole|6f]n))" ]);
    ("municipality",
     [ "Permanent Address[:\s]*.*?Municipality[:\s]*([A-Za-z\s]+?)(?=\s*(?:Ward|Tole|Telephone|$|\n))";
       "Permanent.*?Municipality[:\s]*([A-Za-z\s]+?)(?=\s*(?:Ward|Tole|Telephone|$|\n))";
       ":yfoL 7]ufgf[:\s]*.*?uf=kf=[:\s]*([A-Za-z\s]+?)(?=\s*(?:j8f|6f]n|6]lnkmf]g|$|\n))";
       "Permanent.*?Municipality[:\s]*([A-Za-z\s]+)";
       "Municipality[:\s]*([A-Za-z\s]+?)(?=.*?Ward)";
       "(?:Municipality|uf=kf=)[:\s]*([A-Za-z\s]+?)(?=\s*(?:Ward|j8f|Tole|6f]n|Telephone|6]lnkmf]g))" ]);
    ("ward_no",
     [ "Permanent Address[:\s]*.*?Ward No[.:]?\s*(\d+)(?=\s*(?:Tole|Telephone|Block|$|\n))";
       "Permanent.*?Ward No[.:]?\s*(\d+)(?=\s*(?:Tole|Telephone|Block|$|\n))";
       "Permanent Ward Number[:\s]*(\d+)";
       ":yfoL 7]ufgf[:\s]*.*?j8f g+=[:\s]*(\d+)(?=\s*(?:6f]n|6]lnkmf]g|$|\n))";
       "Permanent.*?Ward.*?(\d+)";
       "Ward No[.:]?\s*(\d+)";
       "Ward Number[:\s]*(\d+)";
       "(?:Ward|j8f)[:\s]*(?:No[.:]?\s*|Number[:\s]*|g+=[:\s]*)?(\d+)" ]);
    ("tole",
     [ "Permanent Address[:\s]*.*?Tole[:\s]*([A-Za-z\s]+?)(?=\s*(?:Telephone|Block|$|\n))";
       "Permanent.*?Tole[:\s]*([A-Za-z\s]+?)(?=\s*(?:Telephone|Block|$|\n))";
       "Permanent Address Tole[:\s]*([A-Za-z\s]+)";
       ":yfoL 7]ufgf[:\s]*.*?6f]n[:\s]*([A-Za-z\s]+?)(?=\s*(?:6]lnkmf]g|$|\n))";
       "Permanent.*?Tole[:\s]*([A-Za-z\s]+)";
       "Tole[:\s]*([A-Za-z\s]+?)(?=.*?Telephone)";
       "(?:Tole|6f]n)[:\s]*([A-Za-z\s]+?)(?=\s*(?:Telephone|6]lnkmf]g|Block|$|\n))" ]);
    ("telephone",
     [ "Permanent Address[:\s]*.*?Telephone No[.:]?\s*(\d+)";
       "Permanent Telephone Number[:\s]*(\d+)";
       ":yfoL 7]ufgf[:\s]*.*?6]lnkmf]g g+=[:\s]*(\d+)";
       "Permanent.*?Telephone.*?(\d+)";
       "Telephone No[.:]?\s*(\d+)";
       "Telephone Number[:\s]*(\d+)";
       "(?:Telephone|6]lnkmf]g)[:\s]*(?:No[.:]?\s*|Number[:\s]*|g+=[:\s]*)?(\d+)" ]);
    ("block_no",
     [ "Permanent Address[:\s]*.*?Block No[.:]?\s*(\d+)";
       "Permanent Block Number[:\s]*(\d+)";
       ":yfoL 7]ufgf[:\s]*.*?An]s g+=[:\s]*(\d+)";
       "Permanent.*?Block.*?(\d+)";
       "Block No[.:]?\s*(\d+)";
       "Block Number[:\s]*(\d+)";
       "(?:Block|An]s)[:\s]*(?:No[.:]?\s*|Number[:\s]*|g+=[:\s]*)?(\d+)" ]) ].

Definition family_members : list (string * list string) :=
  [ ("grandfather_name",
     [ "Grand\s*Father\'?s?\s*Name[:\s]*([A-Z][A-Z\s]+?)(?=\s*(?:Father\'?s?\s*Name|Father\s*Name|\n|$))";
       "Grandfather\'?s?\s*Name[:\s]*([A-Z][A-Z\s]+?)(?=\s*(?:Father\'?s?\s*Name|Father\s*Name|\n|$))";
       "Grand\s*Father[:\s]*([A-Z][A-Z\s]+?)(?=\s*(?:Father\'?s?\s*Name|Father\s*Name|\n|$))";
       "(?:Grand\s*Father|Grandfather)\'?s?\s*Name[:\s]*([A-Z][A-Z\s]+?)(?=\s*(?:Father\'?s?\s*Name|Father\s*Name|\n|$))" ]);
    ("father_name",
     [ "(?<!Grand\s)(?<!Grandfather\s)Father\'?s?\s*Name[:\s]*([A-Z][A-Z\s]+?)(?=\s*(?:Mother\'?s?\s*Name|Spouse\'?s?\s*Name|Son\'?s?\s*Name|Daughter\'?s?\s*Name|$|\n))";
       "(?<!Grand\s)(?<!Grandfather\s)Father[:\s]*([A-Z][A-Z\s]+?)(?=\s*(?:Name|Mother\'?s?\s*Name|Spouse\'?s?\s*Name|Son\'?s?\s*Name|Daughter\'?s?\s*Name|$|\n))" ]);
    ("mother_name",
     [ "Mother\'?s?\s*Name[:\s]*([A-Z][A-Z\s]+?)(?=\s*(?:Spouse|Son|Daughter|$|\n))";
       latin1 "cfdfsf\]\s*gfd[:\s]*([A-Z][A-Z\s]+?)(?=\s*(?:klt÷kTgLsf\]|5f\]/fsf\]|$|\n))" ]);
    ("spouse_name",
     [ "Spouse\'?s?\s*Name[:\s]*([A-Z][A-Z\s]+?)(?=\s*(?:Son|Daughter|Bank|$|\n))";
       latin1 "klt÷kTgLsf\]\s*gfd[:\s]*([A-Z][A-Z\s]+?)(?=\s*(?:5f\]/fsf\]|5f\]/Lsf\]|$|\n))" ]);
    ("son_name",
     [ "Son\'?s?\s*Name[:\s]*([A-Z][A-Z\s]+?)(?=\s*(?:Daughter|Bank|Details|$|\n))";
       "5f\]/fsf\]\s*gfd[:\s]*([A-Z][A-Z\s]+?)(?=\s*(?:5f\]/Lsf\]|a\}+s|$|\n))" ]);
    ("daughter_name",
     [ "daughters?\s*name[:\s]*([A-Z][A-Z\s]+?)(?i)(?=\s*(?:Bank|Details|Money|$|\n))";
       "Daughter\'s?\s*Name[:\s]*([A-Z][A-Z\s]+?)(?=\s*(?:Bank|Details|Money|in.*law|$|\n))";
       "Daughter\'?s?\s*Name[:\s]*([A-Z][A-Z\s]+?)(?=\s*(?:Bank|Details|Money|$|\n))";
       "5f\]/Lsf\]\s*gfd[:\s]*([A-Z][A-Z\s]+?)(?=\s*(?:a\}+s|k\}zf|$|\n))" ]);
    ("daughter_in_law_name",
     [ "Daughter\s*[-]?\s*in\s*[-]?\s*Law\'s?\s*Name[:\s]*([A-Z][A-Z\s]+?)(?=\s*(?:Father|Mother|Bank|Details|$|\n))";
       "a\'xf/Lsf\]\s*gfd[:\s]*([A-Z][A-Z\s]+)";
       "Daughter\s*[-]?\s*in\s*[-]?\s*law\'s?\s*Name[:\s]*([A-Z][A-Z\s]+?)(?=\s*(?:Father|Mother|Bank|Details|$|\n))";
       "daughters?\s*in\s*law[:\s]*([A-Z][A-Z\s]+?)(?=\s*(?:Father|Mother|Bank|Details|$|\n))";
       "Daughter-in-law\'s?\s*Name[:\s]*([A-Z][A-Z\s]+?)(?=\s*(?:Father|Mother|Bank|Details|$|\n))";
       "daughter\s*in\s*law\s*name[:\s]*([A-Z][A-Z\s]+?)(?i)";
       "Daughter\s*[-]?in\s*[-]?law[:\s]*([A-Z][A-Z\s]+)" ]);
    ("father_in_law_name",
     [ "Father\s*in\s*Law\'?s?\s*Name[:\s]*([A-Z][A-Z\s]+)";
       "Father\s*[-]?\s*in\s*[-]?\s*Law\'s?\s*Name[:\s]*([A-Z][A-Z\s]+?)(?=\s*(?:Mother|Bank|Details|$|\n))";
       "Father\s*[-]?in\s*[-]?law[:\s]*([A-Z][A-Z\s]+)";
       "Father\s*[-]?\s*in\s*[-]?\s*law\'s?\s*Name[:\s]*([A-Z][A-Z\s]+?)(?=\s*(?:Mother|Bank|Details|$|\n))";
       "Father-in-law\'s?\s*Name[:\s]*([A-Z][A-Z\s]+?)(?=\s*(?:Mother|Bank|Details|$|\n))";
       "father\s*in\s*law\s*name[:\s]*([A-Z][A-Z\s]+?)(?i)" ]);
    ("mother_in_law_name",
     [ "Mother\s*in\s*Law\'?s?\s*Name[:\s]*([A-Z][A-Z\s]+)";
       "Mother\s*[-]?\s*in\s*[-]?\s*Law\'s?\s*Name[:\s]*([A-Z][A-Z\s]+?)(?=\s*(?:Bank|Details|Occupation|$|\n))";
       "Mother\s*[-]?in\s*[-]?law[:\gs]*([A-Z][A-Z\s]+)";
       "Mother\s*[-]?\s*in\s*[-]?\s*law\'s?\s*Name[:\s]*([A-Z][A-Z\s]+?)(?=\s*(?:Bank|Details|Occupation|$|\n))";
       "Mother-in-law\'s?\s*Name[:\s]*([A-Z][A-Z\s]+?)(?=\s*(?:Bank|Details|Occupation|$|\n))";
       "mother\s*in\s*law\s*name[:\s]*([A-Z][A-Z\s]+?)(?i)" ]) ].

Definition bank_details : list (string * list string) :=
  [ ("account_type",
     [ "Type of Bank Account[:\s]+(Saving|Current)(?=\s*(?:Bank Account|Name|Details|$|\n))";
       "a}+s vftfsf] lsl;d[:\s]+(art|rNtL)(?=\s*(?:a}+s vftf|gfd|$|\n))" ]);
    ("account_number",
     [ "Bank Account Number[:\s]+(\d+)(?=\s*(?:Name & Address|Bank|Details|$|\n))";
       "a}+s vftf gDa/[:\s]+(\d+)(?=\s*(?:a}+s.*?gfd|$|\n))" ]);
    ("bank_name",
     [ "Name & Address of Bank[:\s]+([A-Za-z\s,]+?)(?=\s*(?:Details of Occupation|Occupation|Agreement|$|\n))";
       "a}+s.*?gfd[:\s]+([A-Za-z\s,]+?)(?=\s*(?:k]zfut|ljj/0f|$|\n))" ]) ].

Definition occupation : list (string * list string) :=
  [ ("occupation",
     [ "Occupation[\s\n]*([A-Za-z/ ]{3,50})(?=\s*(?:Types|Organization|Name|$|\n))";
       "Details of Occupation[\s\n]*Occupation[\s\n]*([A-Za-z/ ]{3,50})";
       "k]zf[:\s\n]*([A-Za-z/ ]{3,50})(?=\s*(?:k|sf/|;+:yf|$|\n))" ]);
    ("organization_name",
     [ "Organization'?s?[\s\n]*Name[\s\n]*((?:[A-Z0-9 ,\-&]{2,}(?:\n| ){0,2}){1,5})" ]);
    ("organization",
     [ "Organization\'s Name[:\s]+([A-Za-z\s\-]+?)(?=\s*(?:Address|Designation|$|\n))";
       ";+:yfsf] gfd[:\s]+([A-Za-z\s\-]+?)(?=\s*(?:7]ufgf|kb|$|\n))" ]);
    ("designation",
     [ "Designation[\s]+([A-Za-z\s\-]{2,50})(?=\s*(ID No|Employee|Number|$|\n))";
       "kb[\s]+([A-Za-z\s\-]{2,50})(?=\s*(sd{rf/L|k|lr/rokq|$|\n))" ]);
    ("sector",
     [ "Occupation\s*[:\s]*([^\n]+)" ]);
    ("address",
     [ "Address[\s\n]*([A-Z0-9 ,\-]{3,50})" ]);
    ("financial_details",
     [ "Income Limit\(Annual Details\)\s*([^\n]+)" ]);
    ("investment_involvement",
     [ "Involvement in Investment companies which were established for securities trading\s*(Yes|No)" ]);
    ("business_type",
     [ "Types of[\s\n]*Business[\s\n]*([A-Za-z ]+)";
       "Service Oriented[\s\n]*([A-Za-z ]+)";
       "Manufacturing[\s\n]*([A-Za-z ]+)";
       "Others[\s\n]*([A-Za-z ]+)" ]) ].

Definition money_laundering : list (string * list string) :=
  [ ("politician_or_high_ranking_person",
     [ "Are You A Politician Or A High-Ranking Person\?\s*(Yes|No)" ]);
    ("related_to_politician_or_high_ranking_official",
     [ "Are You Related To A Politician Or A High-Ranking Official\?\s*(Yes|No)" ]);
    ("have_a_beneficiary",
     [ "Do You Have A Beneficiary\?\s*(Yes|No)" ]);
    ("convicted_of_felony",
     [ "Have You Been Convicted Of A Felony In The Past\?\s*(Yes|No)" ]) ].

Definition guardian_details : list (string * list string) :=
  [ ("guardian_name",
     [ "Name/Surname[\s:]+([A-Z\s]{3,20})(?=\s+Relationship|$)" ]);
    ("guardian_relationship",
     [ "Relationship with[\s]+applicant[\s:]+([A-Z\s]{3,15})(?=\s+Correspondence|Address|$)" ]) ].

Definition minor_contact : list (string * list string) :=
  [ ("minor_telephone",
     [ "Telephone\s+No[:\s]+([0-9]{6,15})" ]);
    ("minor_mobile",
     [ "Mobile\s+No[:\s]+([0-9]{6,15})" ]) ].

Definition temporary_address : list (string * list string) :=
  [ ("country",
     [ "Temporary Address[:\s]*.*?Country[:\s]*([A-Za-z\s]+)";
       "c:yfoL 7]ufgf[:\s]*.*?b]z[:\s]*([A-Za-z\s]+)" ]);
    ("province",
     [ "Temporary Address[:\s]*.*?Province[:\s]*([A-Za-z0-9_\s]+)";
       "c:yfoL 7]ufgf[:\s]*.*?k|b]z[:\s]*([A-Za-z0-9_\s]+)" ]);
    ("district",
     [ "Temporary Address[:\s]*.*?District[:\s]*([A-Za-z\s]+)";
       "c:yfoL 7]ufgf[:\s]*.*?lhNnf[:\s]*([A-Za-z\s]+)" ]);
    ("municipality",
     [ "Temporary Address[:\s]*.*?Municipality[:\s]*([A-Za-z\s]+)";
       "c:yfoL 7]ufgf[:\s]*.*?uf=kf=[:\s]*([A-Za-z\s]+)" ]);
    ("ward_no",
     [ "Temporary Address[:\s]*.*?Ward No[.:]?\s*(\d+)";
       "c:yfoL 7]ufgf[:\s]*.*?j8f g+=[:\s]*(\d+)" ]);
    ("tole",
     [ "Temporary Address[:\s]*.*?Tole[:\s]*([A-Za-z\s]+)";
       "c:yfoL 7]ufgf[:\s]*.*?6f]n[:\s]*([A-Za-z\s]+)" ]);
    ("telephone",
     [ "Temporary Address[:\s]*.*?Telephone No[.:]?\s*(\d+)";
       "c:yfoL 7]ufgf[:\s]*.*?6]lnkmf]g g+=[:\s]*(\d+)" ]);
    ("mobile",
     [ "Temporary Address[:\s]*.*?Mobile No[.:]?\s*(\d+)";
       "c:yfoL 7]ufgf[:\s]*.*?df]afOn g+=[:\s]*(\d+)" ]);
    ("email",
     [ "Temporary Address[:\s]*.*?Email ID[:\s]*([A-Za-z0-9@._\-]+)";
       "c:yfoL 7]ufgf[:\s]*.*?O{d]n[:\s]*([A-Za-z0-9@._\-]+)" ]) ].

Definition financial_details : list (string * list string) :=
  [ ("income_limit",
     [ "Income Limit\s*\(Annual Details\)\s*([A-Za-z0-9,\s\-\.]+?)(?=\s*(?:Involvement|Details|Bank|$|\n))";
       "Income Limit[:\s]*([A-Za-z0-9,\s\-\.]+?)(?=\s*(?:Details|Bank|$|\n))";
       "Financial Details[:\s]*([A-Za-z0-9,\s\-\.]+?)(?=\s*(?:Bank|Agreement|$|\n))";
       "jflifs[:\s]*([A-Za-z0-9,\s\-\.]+)";
       "cfly[:\s]*([A-Za-z0-9,\s\-\.]+)" ]);
    ("annual_income",
     [ "Annual Income[:\s]*([A-Za-z0-9,\s\-\.]+?)(?=\s*(?:Details|Bank|$|\n))";
       "jflifs cfo[:\s]*([A-Za-z0-9,\s\-\.]+)" ]) ].

End Catalog.

(** ** The parser

    Exceptions that the modelled code can raise, the signals it sends to
    the user interface ([st.warning], [st.error]), and the result of a
    call that may raise. *)

Inductive py_exn :=
| ReError
| IndexError
| AttributeError
| KeyError (key : string).

Inductive signal :=
| StWarning (msg : string)
| StError (msg : string).

Inductive outcome (A : Type) :=
| Returned (a : A)
| Raised (e : py_exn).
Arguments Returned {A} a.
Arguments Raised {A} e.

(** What one pass of the loop body of [_extract_field] does with a rule. *)
Inductive attempt :=
| Found (v : string)
| NotFound
| Raises (e : py_exn).

(** [str(e)] *)
Definition exn_str (e : py_exn) : string :=
  match e with
  | ReError => "error"
  | IndexError => "no such group"
  | AttributeError => "'NoneType' object has no attribute 'strip'"
  | KeyError key => "'" +:+ key +:+ "'"
  end.

(** [patterns[category][field]] *)
Fixpoint cat_get (category : list (string * list string)) (field : string) : list string :=
  match category with
  | [] => []
  | (f, patterns) :: rest => if bool_decide (f = field) then patterns else cat_get rest field
  end.

(** [not value] and [value and value.strip() and value.strip() != '-'] for
    an optional string. *)
Definition py_not (value : option string) : bool :=
  match value with
  | Some v => negb (PyStr.truthy v)
  | None => true
  end.

Definition usable (value : option string) : bool :=
  match value with
  | Some v =>
      PyStr.truthy v && PyStr.truthy (PyStr.strip v)
      && negb (bool_decide (PyStr.strip v = "-"))
  | None => false
  end.

(** [if value: data = f(value, data)] *)
Definition when_set (value : option string) (f : string → gmap string string → gmap string string)
    (data : gmap string string) : gmap string string :=
  match value with
  | Some v => if PyStr.truthy v then f v data else data
  | None => data
  end.

Section DataParser.
Import PyStr.

(** [re.search(pattern, text, re.IGNORECASE | re.MULTILINE)]: the methods
    are modelled for any regular-expression engine. *)
Variable re_search : string → string → re_result.

(** The body of the [try] block of [_extract_field] for one pattern.
    [match.group(1)] raises [IndexError] when the pattern has no group and
    is [None] when the group took no part, on which [.strip()] raises
    [AttributeError]. *)
Definition try_pattern (text pattern : string) : attempt :=
  match re_search pattern text with
  | ReRaise => Raises ReError
  | ReNoMatch => NotFound
  | ReMatch [] => Raises IndexError
  | ReMatch (None :: _) => Raises AttributeError
  | ReMatch (Some g :: _) =>
      let extracted_value := strip g in
      if truthy extracted_value && negb (bool_decide (extracted_value = "-"))
      then Found extracted_value
      else NotFound
  end.

Fixpoint _extract_field (text : string) (patterns : list string) : option string :=
  match patterns with
  | [] => None
  | pattern :: rest =>
      match try_pattern text pattern with
      | Found extracted_value => Some extracted_value
      | NotFound => _extract_field text rest
      | Raises _ => _extract_field text rest
      end
  end.

(** *** [_extract_basic_info] *)

Definition gender_value (gender : string) : string :=
  let gender_normalized := upper gender in
  if bool_decide (gender_normalized ∈ ["M"; "MALE"; "k\w*if"]) then "Male"
  else if bool_decide (gender_normalized ∈ ["F"; "FEMALE"; "dlxnf"]) then "Female"
  else strip gender.

(** The cleaning and the validation of a captured citizenship number. *)
Definition citizenship_clean (citizenship : string) : string :=
  keep_chars (fun c => isdigit c || Ascii.eqb c "-" || Ascii.eqb c "/")
    (strip citizenship).

Definition citizenship_ok (clean : string) : bool :=
  truthy clean && (3 <=? String.length clean)
  && negb (matches_date clean)
  && negb (startswith "20" clean)
  && negb (startswith "19" clean).

Definition citizenship_value (citizenship : string) : option string :=
  if truthy citizenship then
    let clean := citizenship_clean citizenship in
    if citizenship_ok clean then Some clean else None
  else None.

Definition beneficiary_value (beneficiary_id : string) : option string :=
  let beneficiary_clean := keep_chars isdigit (strip beneficiary_id) in
  if truthy beneficiary_clean && (1 <=? String.length beneficiary_clean)
  then Some beneficiary_clean else None.

Definition pan_value (pan : string) : option string :=
  if truthy pan && negb (bool_decide (strip pan = "-"))
     && negb (endswith "ies" (lower pan))
  then
    let pan_clean := strip pan in
    if (9 <=? String.length pan_clean) && isalnum (remove_char "-" pan_clean)
    then Some pan_clean else None
  else None.

(** [if value and value.strip() != '-': data[key] = value.strip()] *)
Definition plain_value (value : string) : option string :=
  if truthy value && negb (bool_decide (strip value = "-"))
  then Some (strip value) else None.

(** [data[key] = v] when the optional value [o] is there. *)
Definition set_opt (key : string) (o : option string) (data : gmap string string)
    : gmap string string :=
  match o with
  | Some v => <[key := v]> data
  | None => data
  end.

Definition _extract_basic_info (text : string) : gmap string string :=
  let data : gmap string string := ∅ in
  let data := when_set (_extract_field text Catalog.name)
                (fun name => <["name" := upper (strip name)]>) data in
  let data := when_set (_extract_field text Catalog.date_of_birth)
                (fun dob => <["date_of_birth" := strip dob]>) data in
  let data := when_set (_extract_field text Catalog.gender)
                (fun gender => <["gender" := gender_value gender]>) data in
  let data := when_set (_extract_field text Catalog.citizenship_no)
                (fun citizenship => set_opt "citizenship_no" (citizenship_value citizenship)) data in
  let data := when_set (_extract_field text Catalog.beneficiary_id)
                (fun beneficiary_id => set_opt "beneficiary_id" (beneficiary_value beneficiary_id)) data in
  let data := when_set (_extract_field text Catalog.pan_no)
                (fun pan => set_opt "pan_no" (pan_value pan)) data in
  let data := when_set (_extract_field text Catalog.national_id)
                (fun national_id => set_opt "national_id" (plain_value national_id)) data in
  let data := when_set (_extract_field text Catalog.issue_district)
                (fun issue_district => set_opt "issue_district" (plain_value issue_district)) data in
  let data := when_set (_extract_field text Catalog.issue_date)
                (fun issue_date => set_opt "issue_date" (plain_value issue_date)) data in
  data.

(** *** [_extract_address_info]: the section segmenter *)

Record sections := Sections {
  in_current : bool;
  in_permanent : bool;
  current_section : list string;
  permanent_section : list string
}.

Definition current_stop : list string :=
  ["permanent"; "temporary"; "family"; "bank"; "occupation"].
Definition permanent_stop : list string :=
  ["temporary"; "family"; "bank"; "occupation"].

(** [any(keyword in line_lower for keyword in keywords)] *)
Definition any_keyword (keywords : list string) (line_lower : string) : bool :=
  existsb (fun keyword => contains keyword line_lower) keywords.

Definition is_current_marker (line : string) : bool :=
  let line_lower := strip (lower line) in
  contains "current address" line_lower && negb (contains "permanent" line_lower).

Definition is_permanent_marker (line : string) : bool :=
  contains "permanent address" (strip (lower line)).

(** One round of the loop over the lines. *)
Definition scan_line (s : sections) (line : string) : sections :=
  let line_lower := strip (lower line) in
  if is_current_marker line then
    Sections true false (current_section s ++ [line]) (permanent_section s)
  else if is_permanent_marker line then
    Sections false true (current_section s) (permanent_section s ++ [line])
  else if in_current s && negb (in_permanent s) then
    Sections (if any_keyword current_stop line_lower then false else in_current s)
      (in_permanent s) (current_section s ++ [line]) (permanent_section s)
  else if in_permanent s && negb (in_current s) then
    Sections (in_current s)
      (if any_keyword permanent_stop line_lower then false else in_permanent s)
      (current_section s) (permanent_section s ++ [line])
  else s.

Definition scan_lines (lines : list string) : sections :=
  fold_left scan_line lines (Sections false false [] []).

Definition current_text (text : string) : string :=
  join nl (current_section (scan_lines (split_lines text))).
Definition permanent_text (text : string) : string :=
  join nl (permanent_section (scan_lines (split_lines text))).

(** *** [_extract_address_info]: the two loops over the fields *)

(** The value looked up in the section's text and, when there is none,
    in the whole text. *)
Definition section_or_text (section text : string) (patterns : list string) : option string :=
  let value := _extract_field section patterns in
  if py_not value then _extract_field text patterns else value.

Definition current_value (text : string) (patterns : list string) : option string :=
  let value := section_or_text (current_text text) text patterns in
  if usable value then strip <$> value else None.

(** [if word in clean_value: clean_value = clean_value.split(word)[0].strip()] *)
Definition cut_at (word clean_value : string) : string :=
  if contains word clean_value then strip (split_head word clean_value)
  else clean_value.

Definition permanent_clean (field value : string) : string :=
  let clean_value := strip value in
  let clean_value :=
    if bool_decide (field = "country") then cut_at "District" (cut_at "Province" clean_value)
    else if bool_decide (field = "province") then cut_at "Municipality" (cut_at "District" clean_value)
    else if bool_decide (field = "district") then cut_at "Ward" (cut_at "Municipality" clean_value)
    else if bool_decide (field = "municipality") then cut_at "Tole" (cut_at "Ward" clean_value)
    else clean_value in
  let colon_or_space c := Ascii.eqb c ":" || isspace c in
  lstrip_by colon_or_space (rstrip_by colon_or_space clean_value).

(** [if clean_value and clean_value != '-': data[key] = clean_value] *)
Definition permanent_store (field value : string) : option string :=
  let clean_value := permanent_clean field value in
  if truthy clean_value && negb (bool_decide (clean_value = "-"))
  then Some clean_value else None.

Definition permanent_value (text field : string) (patterns : list string) : option string :=
  let value := section_or_text (permanent_text text) text patterns in
  if usable value then value ≫= permanent_store field else None.

Definition _extract_address_info (text : string) : gmap string string :=
  let data : gmap string string := ∅ in
  let data :=
    fold_left (fun data '(field, patterns) =>
                 set_opt ("current_" +:+ field) (current_value text patterns) data)
      Catalog.current_address data in
  let data :=
    fold_left (fun data '(field, patterns) =>
                 set_opt ("permanent_" +:+ field) (permanent_value text field patterns) data)
      Catalog.permanent_address data in
  data.

(** *** [_extract_family_info] (the definition in force, the second one) *)

Definition members : list string :=
  [ "grandfather_name"; "father_name"; "mother_name"; "spouse_name"; "son_name";
    "daughter_name"; "daughter_in_law_name"; "father_in_law_name";
    "mother_in_law_name" ].

(** [member.replace('_name', '').replace('_', ' ')] *)
Definition label_of (field : string) : string :=
  replace "_" " " (replace "_name" "" field).

Definition family_value (member value : string) : option string :=
  let cleaned := upper (strip value) in
  let label_words := upper (label_of member) in
  if bool_decide (cleaned = label_words)
     || bool_decide (cleaned ∈ ["DAUGHTER"; "SON"; "MOTHER"; "FATHER"; "MONEY LAUNDERING"])
  then None
  else if truthy cleaned && negb (bool_decide (cleaned = "-")) then Some cleaned
  else None.

Definition _extract_family_info (text : string) : gmap string string :=
  fold_left (fun data member =>
               when_set (_extract_field text (cat_get Catalog.family_members member))
                 (fun value => set_opt member (family_value member value)) data)
    members ∅.

(** *** [_extract_bank_info] *)

Definition _extract_bank_info (text : string) : gmap string string :=
  fold_left (fun data '(field, patterns) =>
               let value := _extract_field text patterns in
               if usable value then
                 if bool_decide (field = "bank_name")
                 then set_opt "bank_name" (strip <$> value) data
                 else set_opt ("bank_" +:+ field) (strip <$> value) data
               else data)
    Catalog.bank_details ∅.

(** *** [_validate_family_names]

    The method changes [family_data] in place: the record of a run holds
    the dictionary as the call leaves it, the signals sent, and whether the
    call returned (the dictionary itself) or raised. *)

Record validation := Validation {
  family_store : gmap string string;
  family_signals : list signal;
  family_outcome : outcome (gmap string string)
}.

Definition identical_names_warning : signal :=
  StWarning "Father and grandfather names are identical - likely extraction error".

Definition _validate_family_names (family_data : gmap string string) : validation :=
  let warnings :=
    match family_data !! "father_name", family_data !! "grandfather_name" with
    | Some father, Some grandfather =>
        if bool_decide (father = grandfather) then [identical_names_warning] else []
    | _, _ => []
    end in
  match family_data !! "spouse_name" with
  | None => Validation family_data warnings (Returned family_data)
  | Some spouse =>
      let family_data1 :=
        match family_data !! "father_name" with
        | Some father =>
            if bool_decide (spouse = father) then delete "spouse_name" family_data
            else family_data
        | None => family_data
        end in
      match family_data1 !! "mother_name" with
      | None => Validation family_data1 warnings (Returned family_data1)
      | Some mother =>
          match family_data1 !! "spouse_name" with
          | None => Validation family_data1 warnings (Raised (KeyError "spouse_name"))
          | Some spouse1 =>
              let family_data2 :=
                if bool_decide (spouse1 = mother) then delete "spouse_name" family_data1
                else family_data1 in
              Validation family_data2 warnings (Returned family_data2)
          end
      end
  end.

(** *** [_extract_occupation_info] *)

Definition artifacts : list string :=
  ["permanent"; "current"; "temporary"; "occupation"; "address"].

(** The value as the first [if value:] block leaves it. *)
Definition occupation_clean (value : option string) : option string :=
  match value with
  | Some v =>
      if truthy v
      then Some (sub_spaces " " (strip (split_words_head ["Address"; "Designation"; "ID No"] v)))
      else value
  | None => None
  end.

(** The value stored under [field], if any: nothing for a missing value,
    the placeholder, a layout artifact or the field's own label. *)
Definition occupation_value (field : string) (value : option string) : option string :=
  match occupation_clean value with
  | Some v =>
      if truthy v && negb (bool_decide (v = "-")) then
        let lower_val := lower v in
        if bool_decide (lower_val ∈ artifacts) then None
        else
          let field_label := lower (strip (label_of field)) in
          if bool_decide (lower_val = field_label) then None else Some v
      else None
  | None => None
  end.

Definition occupation_fallback (data : gmap string string) : gmap string string :=
  match data !! "occupation", data !! "sector" with
  | None, Some sector => <["occupation" := sector]> data
  | _, _ => data
  end.

Definition _extract_occupation_info (text : string) : gmap string string :=
  let data :=
    fold_left (fun data '(field, patterns) =>
                 set_opt field (occupation_value field (_extract_field text patterns)) data)
      Catalog.occupation ∅ in
  occupation_fallback data.

(** *** The remaining categories *)

Definition _extract_guardian_info (text : string) : gmap string string :=
  fold_left (fun data '(field, patterns) =>
               let value := _extract_field text patterns in
               if usable value
               then set_opt field ((fun v => sub_spaces " " (strip v)) <$> value) data
               else data)
    Catalog.guardian_details ∅.

Definition _extract_minor_contact_info (text : string) : gmap string string :=
  fold_left (fun data '(field, patterns) =>
               let value := _extract_field text patterns in
               if usable value
               then set_opt field ((fun v => sub_spaces "" (strip v)) <$> value) data
               else data)
    Catalog.minor_contact ∅.

Definition temporary_clean (field value : string) : string :=
  let clean_value := strip value in
  if bool_decide (field = "country") && contains "Province" clean_value
  then strip (split_head "Province" clean_value)
  else clean_value.

Definition _extract_temporary_address_info (text : string) : gmap string string :=
  fold_left (fun data '(field, patterns) =>
               let value := _extract_field text patterns in
               if usable value
               then set_opt ("temporary_" +:+ field) (temporary_clean field <$> value) data
               else data)
    Catalog.temporary_address ∅.

Definition _extract_money_laundering_info (text : string) : gmap string string :=
  fold_left (fun data '(field, patterns) =>
               let value := _extract_field text patterns in
               if usable value then set_opt field (strip <$> value) data else data)
    Catalog.money_laundering ∅.

Definition _extract_financial_info (text : string) : gmap string string :=
  fold_left (fun data '(field, patterns) =>
               let value := _extract_field text patterns in
               if usable value then set_opt field (strip <$> value) data else data)
    Catalog.financial_details ∅.

(** *** [parse_data]

    A step of the [try] block yields the signals it sent and either the
    dictionary that [parsed_data.update] merges or an exception. *)

Definition quiet (f : string → gmap string string)
    : string → list signal * outcome (gmap string string) :=
  fun text => ([], Returned (f text)).

Definition family_step (text : string) : list signal * outcome (gmap string string) :=
  let v := _validate_family_names (_extract_family_info text) in
  (family_signals v, family_outcome v).

(** The calls of the [try] block, in the order of the source. *)
Definition sub_extractors : list (string → list signal * outcome (gmap string string)) :=
  [ quiet _extract_basic_info;
    quiet _extract_address_info;
    quiet _extract_bank_info;
    quiet _extract_occupation_info;
    quiet _extract_guardian_info;
    quiet _extract_minor_contact_info;
    quiet _extract_temporary_address_info;
    quiet _extract_financial_info;
    family_step;
    quiet _extract_money_laundering_info ].

End DataParser.

(** The body of the [try] block over any list of steps:
    [parsed_data.update(step(text))] for each step in turn, stopping at the
    first that raises. *)
Fixpoint run_steps (steps : list (string → list signal * outcome (gmap string string)))
    (text : string) (parsed_data : gmap string string)
    : list signal * outcome (gmap string string) :=
  match steps with
  | [] => ([], Returned parsed_data)
  | step :: rest =>
      match step text with
      | (sent, Raised e) => (sent, Raised e)
      | (sent, Returned d) =>
          let '(sent', result) := run_steps rest text (d ∪ parsed_data) in
          (sent ++ sent', result)
      end
  end.

(** [parse_data] around those steps: the empty record for an empty text,
    and [except Exception] turning any exception of a step into an error
    signal and the empty record. *)
Definition parse_data_with (steps : list (string → list signal * outcome (gmap string string)))
    (text : string) : list signal * gmap string string :=
  if negb (PyStr.truthy text) then ([], ∅)
  else
    match run_steps steps text ∅ with
    | (sent, Returned parsed_data) => (sent, parsed_data)
    | (sent, Raised e) => (sent ++ [StError ("Error parsing data: " +:+ exn_str e)], ∅)
    end.

Definition parse_data (re_search : string → string → re_result) (text : string)
    : list signal * gmap string string :=
  parse_data_with (sub_extractors re_search) text.

(** ** The parser run with Python's [re] *)

Module Py.

Definition re_search (pattern text : string) : re_result :=
  PyRe.search PyRe.IM pattern text.

Definition extract_field := _extract_field re_search.
Definition parse (text : string) : list signal * gmap string string :=
  parse_data re_search text.

(** The text whose lines are [lines]. *)
Definition text_of (lines : list string) : string := PyStr.join PyStr.nl lines.

End Py.

(** What it means for one rule to supply a value on a text: the rule
    matches, its first group took part, and the group's text, trimmed, is
    neither empty nor the dash that stands for a blank field. *)
Definition rule_yields (re_search : string → string → re_result)
    (text rule value : string) : Prop :=
  ∃ g others,
    re_search rule text = ReMatch (Some g :: others)
    ∧ value = PyStr.strip g ∧ value ≠ "" ∧ value ≠ "-".

(** A line of text: a string without a newline in it. *)
Definition one_line (s : string) : Prop :=
  PyStr.contains PyStr.nl s = false.

(** The record that the spouse check fails on: the spouse named as the
    father is, with a mother on record. *)
Definition spouse_is_father : gmap string string :=
  {[ "father_name" := "RAM BAHADUR";
     "mother_name" := "SITA DEVI";
     "spouse_name" := "RAM BAHADUR" ]}.

Definition spouse_is_father_text : string :=
  Py.text_of [ "Father's Name: RAM BAHADUR";
               "Mother's Name: SITA DEVI";
               "Spouse's Name: RAM BAHADUR" ].

(** A label echoed on the line before its value. *)
Definition occupation_echo_text : string :=
  Py.text_of [ "Occupation"; "Occupation"; "Student" ].

(** A temporary address whose country cell holds the next label. *)
Definition temporary_blank_country_text : string :=
  "Temporary Address Country: Province 1".

(** The rows of the temporary address of a form left blank. *)
Definition temporary_blank_form_text : string :=
  Py.text_of [ "Temporary Address"; "Country: Province: District:" ].

(** One round of a loop that stores, for each field of a category, the
    value found for it under the key made from the field's name. *)
Definition loop_step (key_of : string → string)
    (value_of : string → list string → option string)
    (data : gmap string string) (entry : string * list string)
    : gmap string string :=
  let '(field, patterns) := entry in
  set_opt (key_of field) (value_of field patterns) data.

(** Two address blocks of which the first has no country line. *)
Definition country_only_in_permanent_text : string :=
  Py.text_of [ "Current Address"; "Tole: Baneshwor";
               "Permanent Address"; "Country: India" ].

(** A current block and a permanent block, each with a country line. *)
Definition two_blocks_text : string :=
  Py.text_of [ "Current Address"; "Country: Nepal";
               "Permanent Address"; "Country: India" ].

(** A value worth storing, and a record of which every value is worth
    storing, with or without the exception of one key. *)
Definition kept (v : string) : Prop := v ≠ "" ∧ v ≠ "-".

Definition all_kept_but (spared : option string) (data : gmap string string) : Prop :=
  ∀ key v, data !! key = Some v → spared ≠ Some key → kept v.

Definition all_kept (data : gmap string string) : Prop := all_kept_but None data.

(** ** Notions for the properties of the record

    A trimmed value is one that [strip] leaves as it is. A record has its
    keys in a list when it holds no other key. *)

Definition trimmed (v : string) : Prop := PyStr.strip v = v.

Definition keys_in (keys : list string) (data : gmap string string) : Prop :=
  map_Forall (fun key _ => key ∈ keys) data.

Definition trimmed_within (keys : list string) (data : gmap string string) : Prop :=
  map_Forall (fun key v => key ∈ keys ∧ trimmed v) data.

(** The keys that each method of the parser assigns, read off its
    assignments and the fields of its category. *)
Definition basic_keys : list string :=
  [ "name"; "date_of_birth"; "gender"; "citizenship_no"; "beneficiary_id"; "pan_no";
    "national_id"; "issue_district"; "issue_date" ].

Definition address_keys : list string :=
  (String.append "current_" <$> Catalog.current_address.*1)
  ++ (String.append "permanent_" <$> Catalog.permanent_address.*1).

Definition bank_key (field : string) : string :=
  if bool_decide (field = "bank_name") then "bank_name" else "bank_" +:+ field.

Definition bank_keys : list string := bank_key <$> Catalog.bank_details.*1.
Definition occupation_keys : list string := Catalog.occupation.*1.
Definition guardian_keys : list string := Catalog.guardian_details.*1.
Definition minor_contact_keys : list string := Catalog.minor_contact.*1.
Definition temporary_keys : list string :=
  String.append "temporary_" <$> Catalog.temporary_address.*1.
Definition financial_keys : list string := Catalog.financial_details.*1.
Definition money_laundering_keys : list string := Catalog.money_laundering.*1.

Definition record_keys : list string :=
  basic_keys ++ address_keys ++ bank_keys ++ occupation_keys ++ guardian_keys
  ++ minor_contact_keys ++ temporary_keys ++ financial_keys ++ members
  ++ money_laundering_keys.

(** The dictionaries that [parse_data] merges when the family step returns
    [family], the latest first, each with the keys of its method. *)
Definition record_parts (re_search : string → string → re_result) (text : string)
    (family : gmap string string) : list (list string * gmap string string) :=
  [ (money_laundering_keys, _extract_money_laundering_info re_search text);
    (members, family);
    (financial_keys, _extract_financial_info re_search text);
    (temporary_keys, _extract_temporary_address_info re_search text);
    (minor_contact_keys, _extract_minor_contact_info re_search text);
    (guardian_keys, _extract_guardian_info re_search text);
    (occupation_keys, _extract_occupation_info re_search text);
    (bank_keys, _extract_bank_info re_search text);
    (address_keys, _extract_address_info re_search text);
    (basic_keys, _extract_basic_info re_search text) ].

(** The lines of a block that the segmenter keeps after the line that
    opened it, when no line of the block opens a section: the lines up to
    and including the first that holds a stop keyword. *)
Fixpoint through_stop (keywords : list string) (body : list string) : list string :=
  match body with
  | [] => []
  | line :: rest =>
      if any_keyword keywords (PyStr.strip (PyStr.lower line)) then [line]
      else line :: through_stop keywords rest
  end.

(** The words at which the value of a field of the permanent address is
    cut: the labels that follow the field on the form. *)
Definition permanent_cuts : list (string * string) :=
  [ ("country", "Province"); ("country", "District");
    ("province", "District"); ("province", "Municipality");
    ("district", "Municipality"); ("district", "Ward");
    ("municipality", "Ward"); ("municipality", "Tole") ].

(** ** The text cleaner ([pdf_processor.py])

    [extract_text] reads the pages of the document with PyMuPDF, appends
    to the text of each page a newline, and hands the whole to
    [_clean_text]; the text that [parse_data] receives is what
    [_clean_text] returns. *)

Section PDFProcessor.
Import PyStr.

(** The loop over the lines of [_clean_text]. *)
Fixpoint cleaned_lines (lines : list string) : list string :=
  match lines with
  | [] => []
  | line :: rest =>
      let cleaned_line := strip line in
      if truthy cleaned_line then cleaned_line :: cleaned_lines rest
      else cleaned_lines rest
  end.

Definition _clean_text (text : string) : string :=
  if negb (truthy text) then ""
  else join nl (cleaned_lines (split_lines text)).

(** The loop over the pages of [extract_text], on the texts of the
    pages, and the text that the method returns for them. *)
Definition pages_text (page_texts : list string) : string :=
  fold_left (fun extracted_text page_text => extracted_text +:+ (page_text +:+ nl))
    page_texts "".

Definition extract_text (page_texts : list string) : string :=
  _clean_text (pages_text page_texts).

(** The characters of a text that are not whitespace, in their order. *)
Definition visible (s : string) : string := sfilter (fun c => negb (isspace c)) s.

End PDFProcessor.

(** ** Proof tactics

    [validate_cases fd] splits a goal about [_validate_family_names fd]
    by the entries of [fd] that the method reads and by its tests.
    [skip_layer] passes a lookup through one layer of a record under
    construction whose key is another one; it takes the lemmas for
    [when_set] and [set_opt]. *)

Ltac validate_cases fd :=
  unfold _validate_family_names;
  destruct (fd !! "spouse_name") eqn:?;
  destruct (fd !! "father_name") eqn:?;
  destruct (fd !! "mother_name") eqn:?;
  destruct (fd !! "grandfather_name") eqn:?;
  simpl; repeat case_bool_decide; simplify_map_eq; simpl;
  repeat case_bool_decide; simplify_map_eq; simpl.

Ltac skip_layer when_set_lemma set_opt_lemma :=
  rewrite when_set_lemma
    by (intros; first [apply set_opt_lemma; done | apply lookup_insert_ne; done]).

(** [in_keys] decides a closed statement, such as the membership of a key
    in a list of keys, by evaluation. [part_in] finds a part among those
    that [parse_data] merges. *)

Ltac in_keys := by apply (bool_decide_unpack _); vm_compute.

Ltac part_in :=
  unfold record_parts;
  repeat first [apply list_elem_of_here | apply list_elem_of_further].

(** ** The engine on patterns of the catalog

    What Python 3.11 returns for these searches, reproduced by [PyRe]:
    a lazy capture closed by a look-ahead, look-behinds, a group inside a
    look-ahead, a group that takes no part in the match, nested
    repetitions, a word boundary, a negative look-ahead that makes the
    capture give back a character, and the two kinds of malformed
    pattern of the catalog. *)

Example search_lazy_capture :
  Py.re_search
    "Name[:\s]+([A-Z][A-Z\s]+?)(?=\s*(?:Date of Birth|Gender|Father|Mother|Occupation|$|\n))"
    (Py.text_of ["Name: Ram Kumar"; "Gender: M"])
  = ReMatch [Some "Ram Kumar"].
Proof. vm_compute. reflexivity. Qed.

Example search_look_behind :
  Py.re_search "(?<!Date\s)(?<!Birth\s)(\d{3,6})(?=\s*(?:Issue|District|hf/L|lhNnf))"
    (Py.text_of ["Date 12345 Issue"; "Birth 54321 District"; "777 Issue"])
  = ReMatch [Some "2345"].
Proof. vm_compute. reflexivity. Qed.

Example search_group_in_look_ahead :
  Py.re_search "Designation[\s]+([A-Za-z\s\-]{2,50})(?=\s*(ID No|Employee|Number|$|\n))"
    "Designation Senior Officer Employee"
  = ReMatch [Some "Senior Officer Employee"; Some ""].
Proof. vm_compute. reflexivity. Qed.

Example search_group_unset :
  Py.re_search "lxtu|fxL.*?(\d+)" "abc lxtu 55" = ReMatch [None].
Proof. vm_compute. reflexivity. Qed.

Example search_nested_repeats :
  Py.re_search
    "Organization'?s?[\s\n]*Name[\s\n]*((?:[A-Z0-9 ,\-&]{2,}(?:\n| ){0,2}){1,5})"
    (Py.text_of ["Organization's Name"; "NEPAL TELECOM"; "LTD 12"; "Address: x"])
  = ReMatch [Some (Py.text_of ["NEPAL TELECOM"; "LTD 12"; "Address"])].
Proof. vm_compute. reflexivity. Qed.

Example search_word_boundary :
  Py.re_search
    "\bCurrent\s+District[:\s]*([A-Za-z\s]+?)(?=\s*(?:Municipality|Ward|Tole|$|\n))"
    (Py.text_of ["xCurrent District: A"; "Current District: Lalitpur Ward 3"])
  = ReMatch [Some "Lalitpur"].
Proof. vm_compute. reflexivity. Qed.

Example search_negative_look_ahead :
  Py.re_search "PAN[:\s]*([A-Z0-9]{9,12})(?!\s*(?:ies|No|Number))"
    (Py.text_of ["PAN: ABCDE12345 No"; "PAN: 123456789"])
  = ReMatch [Some "ABCDE1234"].
Proof. vm_compute. reflexivity. Qed.

Example search_bad_escape :
  Py.re_search "Mother\s*[-]?in\s*[-]?law[:\gs]*([A-Z][A-Z\s]+)" "Mother-in-law: SITA"
  = ReRaise.
Proof. vm_compute. reflexivity. Qed.

Example search_late_flag :
  Py.re_search
    "daughters?\s*name[:\s]*([A-Z][A-Z\s]+?)(?i)(?=\s*(?:Bank|Details|Money|$|\n))"
    "Daughter's Name: RADHA"
  = ReRaise.
Proof. vm_compute. reflexivity. Qed.

(** ** Properties of the field extractor *)

Section ExtractField.
Import PyStr.
Variable re_search : string → string → re_result.

Lemma truthy_true (s : string) : truthy s = true ↔ s ≠ "".
Proof. destruct s; simpl; split; intros; congruence. Qed.

Lemma truthy_false (s : string) : truthy s = false ↔ s = "".
Proof. destruct s; simpl; split; intros; congruence. Qed.

Lemma try_pattern_found text rule v :
  try_pattern re_search text rule = Found v ↔ rule_yields re_search text rule v.
Proof.
  unfold try_pattern, rule_yields. split.
  - destruct (re_search rule text) as [| |[|[g|] others]]; try discriminate.
    destruct (truthy (strip g)) eqn:Ht; simpl; [|discriminate].
    case_bool_decide as Hd; simpl; [discriminate|].
    intros [= <-]. exists g, others. by rewrite <-truthy_true.
  - intros (g & others & -> & -> & Hne & Hd).
    apply truthy_true in Hne. rewrite Hne. simpl.
    by rewrite bool_decide_eq_false_2.
Qed.

Lemma extract_field_cons text rule rest :
  _extract_field re_search text (rule :: rest)
  = match try_pattern re_search text rule with
    | Found v => Some v
    | _ => _extract_field re_search text rest
    end.
Proof. simpl. by destruct (try_pattern re_search text rule). Qed.

Lemma extract_field_skip text earlier rest :
  Forall (fun r => ∀ w, try_pattern re_search text r ≠ Found w) earlier →
  _extract_field re_search text (earlier ++ rest) = _extract_field re_search text rest.
Proof.
  induction 1 as [|r earlier Hr _ IH]; [done|].
  rewrite <-app_comm_cons, extract_field_cons.
  destruct (try_pattern re_search text r) eqn:E; [by destruct (Hr v)|done..].
Qed.

Lemma extract_field_some text patterns v :
  _extract_field re_search text patterns = Some v →
  ∃ earlier rule later,
    patterns = earlier ++ rule :: later
    ∧ try_pattern re_search text rule = Found v
    ∧ Forall (fun r => ∀ w, try_pattern re_search text r ≠ Found w) earlier.
Proof.
  induction patterns as [|r rest IH]; [done|].
  rewrite extract_field_cons.
  destruct (try_pattern re_search text r) eqn:E.
  - intros [= ->]. by exists [], r, rest.
  - intros (earlier & rule & later & -> & ? & ?)%IH.
    exists (r :: earlier), rule, later. split_and!; [done..|].
    constructor; [|done]. intros w. by rewrite E.
  - intros (earlier & rule & later & -> & ? & ?)%IH.
    exists (r :: earlier), rule, later. split_and!; [done..|].
    constructor; [|done]. intros w. by rewrite E.
Qed.

Lemma extract_field_none text patterns :
  _extract_field re_search text patterns = None ↔
  Forall (fun r => ∀ w, try_pattern re_search text r ≠ Found w) patterns.
Proof.
  induction patterns as [|r rest IH]; [by split; [constructor|]|].
  rewrite extract_field_cons, Forall_cons. split.
  - destruct (try_pattern re_search text r) eqn:E; [done|..];
      (intros ?%IH; split; [intros w; by rewrite ?E|done]).
  - intros [Hr ?%IH].
    destruct (try_pattern re_search text r) eqn:E; [by destruct (Hr v)|done..].
Qed.

(** The value [_extract_field] returns is trimmed, not empty and not the
    dash. *)
Lemma extract_field_value text patterns v :
  _extract_field re_search text patterns = Some v → v ≠ "" ∧ v ≠ "-".
Proof.
  intros (_ & rule & _ & _ & (g & _ & _ & _ & ? & ?)%try_pattern_found & _)%extract_field_some.
  done.
Qed.

End ExtractField.

(** C1. [_extract_field] tries the rules of a field in the order of their
    declaration and returns the trimmed first group of the first rule that
    yields a value, that is, whose trimmed capture is neither empty nor
    the dash; it returns [None] exactly when no rule yields a value; and
    the rules after the one that succeeds are not consulted: whatever the
    engine does on them, and whatever they are, the result is the same. *)
Theorem extract_field_first_rule_wins
    (re_search : string → string → re_result) (text : string) (patterns : list string) :
  (∀ v, _extract_field re_search text patterns = Some v ↔
        ∃ earlier rule later,
          patterns = earlier ++ rule :: later
          ∧ rule_yields re_search text rule v
          ∧ ∀ r w, r ∈ earlier → ¬ rule_yields re_search text r w)
  ∧ (_extract_field re_search text patterns = None ↔
        ∀ r w, r ∈ patterns → ¬ rule_yields re_search text r w)
  ∧ (∀ earlier rule later v (re_search' : string → string → re_result) later',
        patterns = earlier ++ rule :: later →
        rule_yields re_search text rule v →
        (∀ r w, r ∈ earlier → ¬ rule_yields re_search text r w) →
        (∀ r, r ∈ earlier ++ [rule] → re_search' r text = re_search r text) →
        _extract_field re_search' text (earlier ++ rule :: later') = Some v).
Proof.
  assert (Hno : ∀ re l,
    Forall (fun r => ∀ w, try_pattern re text r ≠ Found w) l ↔
    ∀ r w, r ∈ l → ¬ rule_yields re text r w).
  { intros re l. rewrite Forall_forall. split.
    - intros H r w Hr Hy. apply (H r Hr w). by apply try_pattern_found.
    - intros H r Hr w Hf. apply (H r w Hr). by apply try_pattern_found. }
  split_and!.
  - intros v. split.
    + intros (earlier & rule & later & -> & Hf & Hearlier)%extract_field_some.
      exists earlier, rule, later. split_and!; [done| |].
      * by apply try_pattern_found.
      * by apply Hno.
    + intros (earlier & rule & later & -> & Hy & Hearlier).
      rewrite extract_field_skip; [|by apply Hno].
      rewrite extract_field_cons.
      apply try_pattern_found in Hy. by rewrite Hy.
  - rewrite extract_field_none. apply Hno.
  - intros earlier rule later v re' later' -> Hy Hearlier Hsame.
    assert (Htry : ∀ r, r ∈ earlier ++ [rule] →
      try_pattern re' text r = try_pattern re_search text r).
    { intros r Hr. unfold try_pattern. by rewrite (Hsame r Hr). }
    rewrite extract_field_skip.
    + rewrite extract_field_cons, Htry by (apply elem_of_app; right; constructor).
      apply try_pattern_found in Hy. by rewrite Hy.
    + apply Forall_forall. intros r Hr w.
      rewrite Htry by (apply elem_of_app; by left).
      intros Hf%try_pattern_found. by apply (Hearlier r w).
Qed.

(** C9. A rule on which matching raises (a malformed expression, a
    missing group, a group that took no part) is passed over as a rule
    that does not match: the result is that of the list without it, so
    the rules after it are tried as before. [_extract_field] itself
    returns an optional string on every input and raises nothing. *)
Theorem raising_rule_is_skipped
    (re_search : string → string → re_result) (text : string)
    (earlier : list string) (rule : string) (later : list string) (e : py_exn) :
  try_pattern re_search text rule = Raises e →
  _extract_field re_search text (earlier ++ rule :: later)
  = _extract_field re_search text (earlier ++ later).
Proof.
  intros Hraise. induction earlier as [|r earlier IH].
  - simpl. by rewrite Hraise.
  - rewrite <-!app_comm_cons, !extract_field_cons. by rewrite IH.
Qed.

(** An instance on the catalog: for a daughter-in-law written with
    hyphens, the sixth rule of the field is malformed and the seventh
    supplies the name. *)
Lemma raising_rule_is_skipped_witness :
  let text := "Daughter-in-law: GITA" in
  let rules := cat_get Catalog.family_members "daughter_in_law_name" in
  let rule := "daughter\s*in\s*law\s*name[:\s]*([A-Z][A-Z\s]+?)(?i)" in
  rules = take 5 rules ++ rule :: drop 6 rules
  ∧ try_pattern Py.re_search text rule = Raises ReError
  ∧ _extract_field Py.re_search text (take 5 rules ++ rule :: drop 6 rules)
    = _extract_field Py.re_search text (take 5 rules ++ drop 6 rules)
  ∧ _extract_field Py.re_search text rules = Some "GITA".
Proof.
  cbv zeta. split_and!.
  - reflexivity.
  - vm_compute. reflexivity.
  - apply (raising_rule_is_skipped Py.re_search _ _ _ _ ReError).
    vm_compute. reflexivity.
  - vm_compute. reflexivity.
Defined.

(** ** Properties of [_validate_family_names] *)

(** The call changes no entry but [spouse_name]. *)
Lemma validate_keeps_others (family_data : gmap string string) (key : string) :
  key ≠ "spouse_name" →
  family_store (_validate_family_names family_data) !! key = family_data !! key.
Proof.
  intros Hkey. validate_cases family_data; done.
Qed.

(** When the call returns, it returns the dictionary it was given, as
    the call left it. *)
Lemma validate_returns_store (family_data d : gmap string string) :
  family_outcome (_validate_family_names family_data) = Returned d →
  d = family_store (_validate_family_names family_data).
Proof. validate_cases family_data; congruence. Qed.

(** The call raises exactly when the spouse is named as the father is and
    a mother is on record: the second test then reads the entry that the
    first has deleted. *)
Lemma validate_raises_iff (family_data : gmap string string) (e : py_exn) :
  family_outcome (_validate_family_names family_data) = Raised e ↔
  e = KeyError "spouse_name"
  ∧ ∃ name, family_data !! "spouse_name" = Some name
            ∧ family_data !! "father_name" = Some name
            ∧ is_Some (family_data !! "mother_name").
Proof.
  split.
  - validate_cases family_data; try discriminate; intros [= <-]; eauto.
  - intros (-> & name & Hs & Hf & [m Hm]).
    unfold _validate_family_names. rewrite Hs, Hf. simpl.
    rewrite bool_decide_eq_true_2 by done.
    rewrite lookup_delete_ne, Hm by done. by rewrite lookup_delete_eq.
Qed.

(** A spouse named as the mother is, and not as the father, is dropped
    and the call returns. *)
Lemma validate_drops_mother_match (family_data : gmap string string) (name : string) :
  family_data !! "spouse_name" = Some name →
  family_data !! "mother_name" = Some name →
  family_data !! "father_name" ≠ Some name →
  family_outcome (_validate_family_names family_data)
  = Returned (delete "spouse_name" family_data).
Proof.
  intros Hs Hm Hf. unfold _validate_family_names. rewrite Hs.
  destruct (family_data !! "father_name") as [father|] eqn:E; simpl.
  - rewrite bool_decide_eq_false_2 by congruence.
    rewrite Hm, Hs. simpl. by rewrite bool_decide_eq_true_2.
  - rewrite Hm, Hs. simpl. by rewrite bool_decide_eq_true_2.
Qed.

(** C7. When the father's and the grandfather's names are the same, the
    call sends the warning and leaves both entries in the record as they
    were. The record is the one the caller passed: the call returns it,
    except when the spouse bears that same name and a mother is on
    record, where it raises after the warning, the two entries still in
    place. *)
Theorem identical_grandfather_warns_and_keeps
    (family_data : gmap string string) (name : string) :
  family_data !! "father_name" = Some name →
  family_data !! "grandfather_name" = Some name →
  family_signals (_validate_family_names family_data) = [identical_names_warning]
  ∧ family_store (_validate_family_names family_data) !! "father_name" = Some name
  ∧ family_store (_validate_family_names family_data) !! "grandfather_name" = Some name
  ∧ (family_outcome (_validate_family_names family_data)
       = Returned (family_store (_validate_family_names family_data))
     ∨ (family_outcome (_validate_family_names family_data) = Raised (KeyError "spouse_name")
        ∧ family_data !! "spouse_name" = Some name
        ∧ is_Some (family_data !! "mother_name"))).
Proof.
  intros Hf Hg. split_and!.
  - unfold _validate_family_names. rewrite Hf, Hg. simpl.
    rewrite bool_decide_eq_true_2 by done.
    by repeat (match goal with
               | |- context [match ?m !! ?k with _ => _ end] => destruct (m !! k)
               end; simpl).
  - by rewrite validate_keeps_others.
  - by rewrite validate_keeps_others.
  - destruct (family_outcome (_validate_family_names family_data)) as [d|e] eqn:E.
    + left. by rewrite (validate_returns_store _ _ E).
    + right. apply validate_raises_iff in E as (-> & n & Hs & Hf' & Hm).
      split_and!; [done| |done]. congruence.
Qed.

Lemma identical_grandfather_warns_and_keeps_witness :
  let family_data : gmap string string :=
    {[ "grandfather_name" := "HARI PRASAD"; "father_name" := "HARI PRASAD";
       "mother_name" := "SITA DEVI" ]} in
  family_signals (_validate_family_names family_data) = [identical_names_warning]
  ∧ family_store (_validate_family_names family_data) !! "father_name" = Some "HARI PRASAD"
  ∧ family_store (_validate_family_names family_data) !! "grandfather_name" = Some "HARI PRASAD"
  ∧ (family_outcome (_validate_family_names family_data)
       = Returned (family_store (_validate_family_names family_data))
     ∨ (family_outcome (_validate_family_names family_data) = Raised (KeyError "spouse_name")
        ∧ family_data !! "spouse_name" = Some "HARI PRASAD"
        ∧ is_Some (family_data !! "mother_name"))).
Proof.
  cbv zeta.
  apply (identical_grandfather_warns_and_keeps _ "HARI PRASAD"); vm_compute; reflexivity.
Defined.

(** C6, at the record [spouse_is_father]. The spouse is named as the
    father is and a mother is on record: the first test deletes
    [spouse_name], the second reads it and raises [KeyError]. No record
    is returned, and [parse_data], which catches the exception, returns
    the empty record: the father's and the mother's names are lost with
    the spouse's. *)
Theorem spouse_check_raises_on_father_match :
  family_outcome (_validate_family_names spouse_is_father) = Raised (KeyError "spouse_name")
  ∧ _extract_family_info Py.re_search spouse_is_father_text = spouse_is_father
  ∧ Py.parse spouse_is_father_text = ([StError "Error parsing data: 'spouse_name'"], ∅)
  ∧ snd (Py.parse spouse_is_father_text) !! "father_name" = None
  ∧ snd (Py.parse spouse_is_father_text) !! "mother_name" = None.
Proof. split_and!; vm_compute; reflexivity. Qed.

(** ** Properties of [parse_data] *)

(** A step that raises after steps that returned ends the run with its
    exception, whatever the record gathered so far. *)
Lemma run_steps_raises
    (before : list (string → list signal * outcome (gmap string string)))
    (step : string → list signal * outcome (gmap string string))
    (after : list (string → list signal * outcome (gmap string string)))
    (text : string) (sent : list signal) (e : py_exn) (parsed_data : gmap string string) :
  Forall (fun f => ∃ s d, f text = (s, Returned d)) before →
  step text = (sent, Raised e) →
  ∃ signals, run_steps (before ++ step :: after) text parsed_data = (signals, Raised e).
Proof.
  intros Hbefore Hstep. revert parsed_data.
  induction Hbefore as [|f before (s & d & Hf) _ IH]; intros parsed_data; simpl.
  - rewrite Hstep. eauto.
  - rewrite Hf. destruct (IH (d ∪ parsed_data)) as [signals ->]. eauto.
Qed.

Lemma quiet_returns (f : string → gmap string string) (text : string) :
  ∃ s d, quiet f text = (s, Returned d).
Proof. by exists [], (f text). Qed.

(** C8. [parse_data] returns the empty record at once for the empty
    text. On any other text, when one step of the [try] block raises,
    after any number of steps that returned their fields, the exception
    is caught: the call returns, its record is empty, and the last signal
    sent reports the error. In [parse_data] itself the step that can
    raise is the validation of the family names: on
    [spouse_is_father_text] the first step has found a name, the
    validation raises, and the record returned is empty. *)
Theorem step_failure_empties_record :
  (∀ steps, parse_data_with steps "" = ([], ∅))
  ∧ (∀ re_search, parse_data re_search "" = ([], ∅))
  ∧ (∀ before step after text sent e,
        Forall (fun f => ∃ s d, f text = (s, Returned d)) before →
        step text = (sent, Raised e) →
        text ≠ "" →
        ∃ signals,
          parse_data_with (before ++ step :: after) text
          = (signals ++ [StError ("Error parsing data: " +:+ exn_str e)], ∅))
  ∧ (∀ re_search text e,
        family_outcome (_validate_family_names (_extract_family_info re_search text))
        = Raised e →
        text ≠ "" →
        ∃ signals,
          parse_data re_search text
          = (signals ++ [StError ("Error parsing data: " +:+ exn_str e)], ∅))
  ∧ _extract_basic_info Py.re_search spouse_is_father_text !! "name" = Some "RAM BAHADUR"
  ∧ Py.parse spouse_is_father_text = ([StError "Error parsing data: 'spouse_name'"], ∅).
Proof.
  assert (Hgen : ∀ before step after text sent e,
    Forall (fun f => ∃ s d, f text = (s, Returned d)) before →
    step text = (sent, Raised e) →
    text ≠ "" →
    ∃ signals,
      parse_data_with (before ++ step :: after) text
      = (signals ++ [StError ("Error parsing data: " +:+ exn_str e)], ∅)).
  { intros before step after text sent e Hbefore Hstep Htext.
    unfold parse_data_with.
    apply truthy_true in Htext. rewrite Htext. simpl.
    destruct (run_steps_raises before step after text sent e ∅ Hbefore Hstep)
      as [signals ->].
    by exists signals. }
  split_and!; [done|done|exact Hgen| |vm_compute; reflexivity..].
  intros re_search text e Hraise Htext.
  unfold parse_data, sub_extractors.
  apply (Hgen [ quiet (_extract_basic_info re_search);
                quiet (_extract_address_info re_search);
                quiet (_extract_bank_info re_search);
                quiet (_extract_occupation_info re_search);
                quiet (_extract_guardian_info re_search);
                quiet (_extract_minor_contact_info re_search);
                quiet (_extract_temporary_address_info re_search);
                quiet (_extract_financial_info re_search) ]
          (family_step re_search) _ text
          (family_signals (_validate_family_names (_extract_family_info re_search text))) e);
    [|by unfold family_step; rewrite Hraise|done].
  repeat (constructor; [apply quiet_returns|]). constructor.
Qed.

(** ** Lookups in a record under construction *)

Lemma lookup_set_opt_ne (key key' : string) (o : option string) (data : gmap string string) :
  key ≠ key' → set_opt key o data !! key' = data !! key'.
Proof. intros. destruct o; simpl; [by rewrite lookup_insert_ne|done]. Qed.

Lemma lookup_set_opt_eq (key : string) (o : option string) (data : gmap string string) :
  set_opt key o data !! key = match o with Some v => Some v | None => data !! key end.
Proof. destruct o; simpl; [by rewrite lookup_insert_eq|done]. Qed.

Lemma lookup_when_set (value : option string)
    (f : string → gmap string string → gmap string string)
    (data : gmap string string) (key : string) :
  (∀ v d, f v d !! key = d !! key) →
  when_set value f data !! key = data !! key.
Proof.
  intros Hf. unfold when_set. destruct value as [v|]; [|done].
  by destruct (PyStr.truthy v).
Qed.

(** ** The citizenship number *)

Lemma citizenship_value_spec (captured v : string) :
  citizenship_value captured = Some v ↔
  v = citizenship_clean captured
  ∧ 3 ≤ String.length v
  ∧ PyStr.matches_date v = false
  ∧ PyStr.startswith "19" v = false
  ∧ PyStr.startswith "20" v = false.
Proof.
  unfold citizenship_value, citizenship_ok. split.
  - destruct (PyStr.truthy captured); [|done].
    destruct (_ && _) eqn:Hok; [|done]. intros [= <-].
    repeat (apply andb_true_iff in Hok as [Hok ?]).
    repeat match goal with H : negb _ = true |- _ => apply negb_true_iff in H end.
    split_and!; try done. by apply Nat.leb_le.
  - intros (-> & Hl & Hd & H19 & H20).
    destruct (PyStr.truthy captured) eqn:Hc.
    + rewrite Hd, H19, H20. apply Nat.leb_le in Hl as Hl'. rewrite Hl'.
      destruct (citizenship_clean captured); [simpl in Hl; lia|done].
    + apply truthy_false in Hc as ->. vm_compute in Hl. lia.
Qed.

(** C4. A captured citizenship number is trimmed and stripped of every
    character but digits, hyphens and slashes; the result is accepted
    exactly when it has three characters or more, is not shaped as a date
    (four digits, two digits, two digits, separated by hyphens or
    slashes) and does not start with "19" or "20"; the record holds the
    accepted result under [citizenship_no] and nothing otherwise. So
    "2024-05-01" and "19850101" are rejected and "123456" is accepted. *)
Theorem citizenship_number_validation :
  (∀ captured,
      citizenship_clean captured
      = PyStr.sfilter (fun c => PyStr.isdigit c || Ascii.eqb c "-" || Ascii.eqb c "/")
          (PyStr.strip captured))
  ∧ (∀ captured v,
      citizenship_value captured = Some v ↔
      v = citizenship_clean captured
      ∧ 3 ≤ String.length v
      ∧ PyStr.matches_date v = false
      ∧ PyStr.startswith "19" v = false
      ∧ PyStr.startswith "20" v = false)
  ∧ (∀ re_search text,
      _extract_basic_info re_search text !! "citizenship_no"
      = _extract_field re_search text Catalog.citizenship_no ≫= citizenship_value)
  ∧ citizenship_value "2024-05-01" = None
  ∧ PyStr.matches_date (citizenship_clean "2024-05-01") = true
  ∧ citizenship_value "19850101" = None
  ∧ PyStr.startswith "19" (citizenship_clean "19850101") = true
  ∧ citizenship_value "123456" = Some "123456".
Proof.
  split_and!; [done|exact citizenship_value_spec| |vm_compute; reflexivity..].
  intros re_search text. unfold _extract_basic_info. cbv zeta.
  do 5 skip_layer lookup_when_set lookup_set_opt_ne.
  destruct (_extract_field re_search text Catalog.citizenship_no) as [c|]; simpl.
  - destruct (PyStr.truthy c) eqn:Hc.
    + rewrite lookup_set_opt_eq.
      destruct (citizenship_value c); [done|].
      do 3 skip_layer lookup_when_set lookup_set_opt_ne. done.
    + do 3 skip_layer lookup_when_set lookup_set_opt_ne. apply truthy_false in Hc as ->. done.
  - do 3 skip_layer lookup_when_set lookup_set_opt_ne. done.
Qed.

(** ** Trimming *)

Section Strip.
Import PyStr.

Lemma rstrip_idemp (s : string) : rstrip (rstrip s) = rstrip s.
Proof.
  induction s as [|c s IH]; [done|]. simpl.
  destruct (isspace c && negb (truthy (rstrip s))) eqn:E; [done|].
  simpl. by rewrite IH, E.
Qed.

Lemma lstrip_fixed (s : string) :
  match s with String c _ => isspace c = false | EmptyString => True end →
  lstrip s = s.
Proof. destruct s as [|c s]; [done|]. simpl. by intros ->. Qed.

Lemma lstrip_head (s : string) :
  match lstrip s with String c _ => isspace c = false | EmptyString => True end.
Proof.
  induction s as [|c s IH]; [done|]. simpl.
  destruct (isspace c) eqn:E; [done|]. done.
Qed.

Lemma rstrip_head (s : string) :
  match s with String c _ => isspace c = false | EmptyString => True end →
  match rstrip s with String c _ => isspace c = false | EmptyString => True end.
Proof. destruct s as [|c s]; [done|]. simpl. intros Hc. by rewrite Hc. Qed.

Lemma strip_idemp (s : string) : strip (strip s) = strip s.
Proof.
  unfold strip.
  rewrite (lstrip_fixed (rstrip (lstrip s))) by apply rstrip_head, lstrip_head.
  apply rstrip_idemp.
Qed.

End Strip.

(** A value that [_extract_field] returns is trimmed already and passes
    the test [value and value.strip() and value.strip() != '-']. *)
Lemma extract_field_stripped (re_search : string → string → re_result)
    (text : string) (patterns : list string) (v : string) :
  _extract_field re_search text patterns = Some v → PyStr.strip v = v.
Proof.
  intros (_ & rule & _ & _ & (g & _ & _ & -> & _)%try_pattern_found & _)%extract_field_some.
  apply strip_idemp.
Qed.

Lemma extract_field_usable (re_search : string → string → re_result)
    (text : string) (patterns : list string) (v : string) :
  _extract_field re_search text patterns = Some v → usable (Some v) = true.
Proof.
  intros H. unfold usable.
  rewrite (extract_field_stripped _ _ _ _ H).
  destruct (extract_field_value _ _ _ _ H) as [Hne Hd].
  apply truthy_true in Hne. rewrite Hne. simpl.
  by rewrite bool_decide_eq_false_2.
Qed.

Lemma extract_field_truthy (re_search : string → string → re_result)
    (text : string) (patterns : list string) :
  py_not (_extract_field re_search text patterns)
  = match _extract_field re_search text patterns with Some _ => false | None => true end.
Proof.
  destruct (_extract_field re_search text patterns) as [v|] eqn:E; [|done].
  simpl. destruct (extract_field_value _ _ _ _ E) as [Hne _].
  apply truthy_true in Hne. by rewrite Hne.
Qed.

(** ** Records built by a loop over the fields of a category *)

Section FieldLoop.
Variable key_of : string → string.
Variable value_of : string → list string → option string.
Hypothesis key_of_inj : ∀ f g, key_of f = key_of g → f = g.

Lemma lookup_loop_other (category : list (string * list string))
    (data : gmap string string) (key : string) :
  (∀ field patterns, (field, patterns) ∈ category → key_of field ≠ key) →
  fold_left (loop_step key_of value_of) category data !! key = data !! key.
Proof.
  revert data. induction category as [|[f ps] category IH]; intros data Hkey; [done|].
  simpl. rewrite IH.
  - apply lookup_set_opt_ne, (Hkey f ps). by left.
  - intros field patterns Hin. apply (Hkey field patterns). by right.
Qed.

Lemma lookup_loop_field (category : list (string * list string))
    (data : gmap string string) (field : string) (patterns : list string) :
  NoDup category.*1 →
  (field, patterns) ∈ category →
  fold_left (loop_step key_of value_of) category data !! key_of field
  = match value_of field patterns with
    | Some v => Some v
    | None => data !! key_of field
    end.
Proof.
  revert data. induction category as [|[f ps] category IH]; intros data Hnd Hin.
  { by apply elem_of_nil in Hin. }
  apply NoDup_cons in Hnd as [Hf Hnd]. simpl.
  apply elem_of_cons in Hin as [[= <- <-]|Hin].
  - rewrite lookup_loop_other; [apply lookup_set_opt_eq|].
    intros g qs Hg Heq. apply key_of_inj in Heq as ->.
    apply Hf. apply list_elem_of_fmap. by exists (field, qs).
  - rewrite IH by done.
    rewrite lookup_set_opt_ne; [done|].
    intros Heq. apply key_of_inj in Heq as ->.
    apply Hf. apply list_elem_of_fmap. by exists (field, patterns).
Qed.

End FieldLoop.

(** ** The address fields *)

Lemma permanent_key_not_current (f g : string) : "permanent_" +:+ f ≠ "current_" +:+ g.
Proof. discriminate. Qed.

Lemma address_info_loops (re_search : string → string → re_result) (text : string) :
  _extract_address_info re_search text
  = fold_left (loop_step (String.append "permanent_") (permanent_value re_search text))
      Catalog.permanent_address
      (fold_left (loop_step (String.append "current_")
                    (fun _ patterns => current_value re_search text patterns))
         Catalog.current_address ∅).
Proof. reflexivity. Qed.

Lemma address_lookup_current (re_search : string → string → re_result)
    (text field : string) (patterns : list string) :
  (field, patterns) ∈ Catalog.current_address →
  _extract_address_info re_search text !! ("current_" +:+ field)
  = current_value re_search text patterns.
Proof.
  intros Hin. rewrite address_info_loops.
  rewrite lookup_loop_other by (intros; apply permanent_key_not_current).
  rewrite (lookup_loop_field _ _ (String.app_inj "current_") _ _ field patterns); 
    [|by apply (bool_decide_unpack _); vm_compute|done].
  by destruct (current_value re_search text patterns).
Qed.

Lemma address_lookup_permanent (re_search : string → string → re_result)
    (text field : string) (patterns : list string) :
  (field, patterns) ∈ Catalog.permanent_address →
  _extract_address_info re_search text !! ("permanent_" +:+ field)
  = permanent_value re_search text field patterns.
Proof.
  intros Hin. rewrite address_info_loops.
  rewrite (lookup_loop_field _ _ (String.app_inj "permanent_") _ _ field patterns);
    [|by apply (bool_decide_unpack _); vm_compute|done].
  destruct (permanent_value re_search text field patterns); [done|].
  rewrite lookup_loop_other; [done|].
  intros f ps _ Heq. symmetry in Heq. by apply permanent_key_not_current in Heq.
Qed.

(** C10. For every field of the current and of the permanent address: when
    the rules of the field find nothing in the field's own section view,
    the same rules are run on the whole text, and what they find there is
    what the record holds for the field (for a permanent field, after the
    cleaning of permanent values). The value of an address field can
    therefore come from outside its view, even from the other block: in
    [country_only_in_permanent_text] the current view does not hold
    "India" and the permanent view does not hold "Baneshwor", yet the
    record has them as the current country and the permanent tole. *)
Theorem address_field_falls_back_to_text :
  (∀ re_search text field patterns,
      (field, patterns) ∈ Catalog.current_address →
      _extract_field re_search (current_text text) patterns = None →
      _extract_address_info re_search text !! ("current_" +:+ field)
      = _extract_field re_search text patterns)
  ∧ (∀ re_search text field patterns,
      (field, patterns) ∈ Catalog.permanent_address →
      _extract_field re_search (permanent_text text) patterns = None →
      _extract_address_info re_search text !! ("permanent_" +:+ field)
      = _extract_field re_search text patterns ≫= permanent_store field)
  ∧ PyStr.contains "India" (current_text country_only_in_permanent_text) = false
  ∧ snd (Py.parse country_only_in_permanent_text) !! "current_country" = Some "India"
  ∧ PyStr.contains "Baneshwor" (permanent_text country_only_in_permanent_text) = false
  ∧ snd (Py.parse country_only_in_permanent_text) !! "permanent_tole" = Some "Baneshwor".
Proof.
  split_and!; [| |vm_compute; reflexivity..].
  - intros re_search text field patterns Hin Hview.
    rewrite (address_lookup_current _ _ _ _ Hin).
    unfold current_value, section_or_text. rewrite Hview. simpl.
    destruct (_extract_field re_search text patterns) as [v|] eqn:E; [|done].
    rewrite (extract_field_usable _ _ _ _ E). simpl.
    by rewrite (extract_field_stripped _ _ _ _ E).
  - intros re_search text field patterns Hin Hview.
    rewrite (address_lookup_permanent _ _ _ _ Hin).
    unfold permanent_value, section_or_text. rewrite Hview. simpl.
    destruct (_extract_field re_search text patterns) as [v|] eqn:E; [|done].
    by rewrite (extract_field_usable _ _ _ _ E).
Qed.

(** ** The occupation *)

Lemma occupation_info_loop (re_search : string → string → re_result) (text : string) :
  _extract_occupation_info re_search text
  = occupation_fallback
      (fold_left (loop_step (fun field => field)
                    (fun field patterns =>
                       occupation_value field (_extract_field re_search text patterns)))
         Catalog.occupation ∅).
Proof. reflexivity. Qed.

Lemma occupation_value_kept (field : string) (value : option string) (v : string) :
  occupation_value field value = Some v →
  v ≠ "" ∧ v ≠ "-"
  ∧ (PyStr.lower v ∉ artifacts)
  ∧ PyStr.lower v ≠ PyStr.lower (PyStr.strip (label_of field)).
Proof.
  unfold occupation_value.
  destruct (occupation_clean value) as [c|]; [|done].
  destruct (PyStr.truthy c) eqn:Ht; simpl; [|done].
  repeat case_bool_decide; simpl; try done.
  intros [= <-]. by apply truthy_true in Ht.
Qed.

(** C5, as the claim states it, fails on its own input. With the label
    echoed before its value the record entry [occupation = "Student"] is
    not there: the record has no occupation at all. *)
Lemma occupation_echo_has_no_occupation :
  snd (Py.parse occupation_echo_text) !! "occupation" = None.
Proof. vm_compute. reflexivity. Qed.

(** C5, as the code has it. A value captured for a field of the
    occupation category is stored only if, cleaned, it is not empty, not
    the dash, not one of the layout words (permanent, current, temporary,
    occupation, address) and not the field's own label. The record's
    [occupation] is the value kept for the field [occupation] and, when
    there is none, the value kept for the field [sector], which passes
    through the same tests. On the text "Occupation", "Occupation",
    "Student" the rules of both fields capture the echoed label, both
    captures are dropped, and the record is empty; on "Occupation:
    Student" the sector rule supplies the occupation. *)
Theorem occupation_label_is_discarded :
  (∀ field value v,
      occupation_value field value = Some v →
      v ≠ "" ∧ v ≠ "-"
      ∧ (PyStr.lower v ∉ artifacts)
      ∧ PyStr.lower v ≠ PyStr.lower (PyStr.strip (label_of field)))
  ∧ (∀ re_search text,
      _extract_occupation_info re_search text !! "occupation"
      = match occupation_value "occupation"
                (_extract_field re_search text (cat_get Catalog.occupation "occupation")) with
        | Some v => Some v
        | None =>
            occupation_value "sector"
              (_extract_field re_search text (cat_get Catalog.occupation "sector"))
        end)
  ∧ Py.extract_field occupation_echo_text (cat_get Catalog.occupation "occupation")
    = Some "Occupation"
  ∧ Py.extract_field occupation_echo_text (cat_get Catalog.occupation "sector")
    = Some "Occupation"
  ∧ occupation_value "occupation" (Some "Occupation") = None
  ∧ occupation_value "sector" (Some "Occupation") = None
  ∧ Py.parse occupation_echo_text = ([], ∅)
  ∧ snd (Py.parse "Occupation: Student") !! "occupation" = Some "Student".
Proof.
  split_and!; [exact occupation_value_kept| |vm_compute; reflexivity..].
  intros re_search text. rewrite occupation_info_loop.
  pose (value_of := fun field patterns =>
          occupation_value field (_extract_field re_search text patterns)).
  assert (Hfield : ∀ field,
    (field, cat_get Catalog.occupation field) ∈ Catalog.occupation →
    fold_left (loop_step (fun field => field) value_of) Catalog.occupation ∅ !! field
    = occupation_value field
        (_extract_field re_search text (cat_get Catalog.occupation field))).
  { intros field Hin.
    rewrite (lookup_loop_field (fun field => field) value_of (fun f g H => H)
               _ _ field (cat_get Catalog.occupation field));
      [|by apply (bool_decide_unpack _); vm_compute|done].
    unfold value_of. by destruct (occupation_value field _). }
  fold value_of. unfold occupation_fallback.
  rewrite (Hfield "occupation"), (Hfield "sector")
    by (by apply (bool_decide_unpack _); vm_compute).
  destruct (occupation_value "occupation" _) as [o|] eqn:Eo.
  - rewrite (Hfield "occupation") by (by apply (bool_decide_unpack _); vm_compute).
    done.
  - destruct (occupation_value "sector" _) as [sec|] eqn:Es.
    + by rewrite lookup_insert_eq.
    + rewrite (Hfield "occupation") by (by apply (bool_decide_unpack _); vm_compute).
      done.
Qed.

(** ** Lines, and what a joined text contains *)

Section Lines.
Import PyStr.

Lemma append_cons (c : ascii) (a b : string) : String c a +:+ b = String c (a +:+ b).
Proof. reflexivity. Qed.

Lemma append_nil (b : string) : "" +:+ b = b.
Proof. reflexivity. Qed.

Lemma startswith_nil (s : string) : startswith "" s = true.
Proof. by destruct s. Qed.

Lemma startswith_cons (c x : ascii) (v s : string) :
  startswith (String c v) (String x s) = bool_decide (c = x) && startswith v s.
Proof.
  unfold startswith. simpl. destruct (ascii_dec c x) as [->|Hne].
  - by rewrite bool_decide_eq_true_2.
  - by rewrite bool_decide_eq_false_2.
Qed.

Lemma contains_cons (v : string) (x : ascii) (s : string) :
  contains v (String x s) = startswith v (String x s) || contains v s.
Proof. reflexivity. Qed.

Lemma contains_nil (v : string) : contains v "" = startswith v "".
Proof. change (startswith v "" || false = startswith v ""). apply orb_false_r. Qed.

Lemma one_line_cons (c : ascii) (s : string) :
  one_line (String c s) ↔ c ≠ nl_char ∧ one_line s.
Proof.
  unfold one_line. rewrite contains_cons. unfold nl.
  rewrite startswith_cons, startswith_nil, andb_true_r, orb_false_iff.
  rewrite bool_decide_eq_false. split; intros [? ?]; split; congruence.
Qed.

Lemma split_lines_cons (s : string) : ∃ l ls, split_lines s = l :: ls.
Proof.
  induction s as [|c s (l & ls & IH)]; [by eexists _, _|].
  simpl. rewrite IH. destruct (Ascii.eqb c nl_char); by eexists _, _.
Qed.

Lemma split_lines_one (a : string) : one_line a → split_lines a = [a].
Proof.
  induction a as [|c a IH]; [done|].
  intros [Hc Ha]%one_line_cons. simpl. rewrite (IH Ha).
  apply Ascii.eqb_neq in Hc. by rewrite Hc.
Qed.

Lemma split_lines_append (a rest : string) :
  one_line a → split_lines (a +:+ String nl_char rest) = a :: split_lines rest.
Proof.
  induction a as [|c a IH].
  - intros _. rewrite append_nil. simpl.
    by destruct (split_lines_cons rest) as (l & ls & ->).
  - intros [Hc Ha]%one_line_cons. rewrite append_cons. simpl. rewrite (IH Ha).
    apply Ascii.eqb_neq in Hc. by rewrite Hc.
Qed.

Lemma join_cons (l l' : string) (ls : list string) :
  join nl (l :: l' :: ls) = l +:+ String nl_char (join nl (l' :: ls)).
Proof. reflexivity. Qed.

(** Splitting the joined lines gives the lines back. *)
Lemma split_lines_join (l : string) (ls : list string) :
  Forall one_line (l :: ls) → split_lines (join nl (l :: ls)) = l :: ls.
Proof.
  revert l. induction ls as [|l' ls IH]; intros l Hall.
  - apply split_lines_one. by apply Forall_inv in Hall.
  - apply Forall_cons in Hall as [Hl Hall].
    by rewrite join_cons, split_lines_append, IH.
Qed.

Lemma startswith_before_newline (v a b : string) :
  one_line v → startswith v (a +:+ String nl_char b) = startswith v a.
Proof.
  revert a. induction v as [|c v IH]; intros a Hv.
  - by rewrite !startswith_nil.
  - apply one_line_cons in Hv as [Hc Hv]. destruct a as [|x a].
    + rewrite append_nil, startswith_cons.
      by rewrite bool_decide_eq_false_2.
    + rewrite append_cons, !startswith_cons. by rewrite IH.
Qed.

Lemma contains_across_newline (v a b : string) :
  one_line v →
  contains v (a +:+ String nl_char b) = contains v a || contains v b.
Proof.
  intros Hv. induction a as [|x a IH].
  - rewrite append_nil, contains_cons.
    change (String nl_char b) with ("" +:+ String nl_char b).
    rewrite startswith_before_newline by done.
    by rewrite contains_nil.
  - rewrite append_cons, !contains_cons, IH.
    change (String x (a +:+ String nl_char b)) with (String x a +:+ String nl_char b).
    rewrite startswith_before_newline by done.
    by rewrite orb_assoc.
Qed.

(** A one-line value that is in none of the lines is not in their join. *)
Lemma contains_join (v l : string) (ls : list string) :
  one_line v →
  Forall (fun line => contains v line = false) (l :: ls) →
  contains v (join nl (l :: ls)) = false.
Proof.
  intros Hv. revert l. induction ls as [|l' ls IH]; intros l Hall.
  - by apply Forall_inv in Hall.
  - apply Forall_cons in Hall as [Hl Hall].
    rewrite join_cons, contains_across_newline by done.
    by rewrite Hl, IH.
Qed.

Lemma startswith_shorter (a b s : string) :
  startswith (a +:+ b) s = true → startswith a s = true.
Proof.
  revert s. induction a as [|c a IH]; intros s; [by rewrite startswith_nil|].
  destruct s as [|x s]; [done|].
  rewrite append_cons, !startswith_cons.
  intros [-> ?]%andb_true_iff. by rewrite (IH s).
Qed.

Lemma contains_shorter (a b s : string) :
  contains (a +:+ b) s = true → contains a s = true.
Proof.
  induction s as [|x s IH].
  - rewrite !contains_nil. apply startswith_shorter.
  - rewrite !contains_cons.
    intros [H|H]%orb_true_iff; apply orb_true_iff;
      [left; by apply (startswith_shorter a b)|right; by apply IH].
Qed.

(** The line that opens the permanent block does not open a current one. *)
Lemma permanent_marker_not_current (line : string) :
  is_permanent_marker line = true → is_current_marker line = false.
Proof.
  unfold is_permanent_marker, is_current_marker. intros H.
  rewrite (contains_shorter "permanent" " address" _ H).
  by rewrite andb_false_r.
Qed.

End Lines.

(** ** The section segmenter *)

Section Segmenter.
Import PyStr.

Lemma scan_line_current (s : sections) (line : string) :
  is_current_marker line = true →
  scan_line s line
  = Sections true false (current_section s ++ [line]) (permanent_section s).
Proof. intros H. unfold scan_line. by rewrite H. Qed.

Lemma scan_line_permanent (s : sections) (line : string) :
  is_permanent_marker line = true →
  scan_line s line
  = Sections false true (current_section s) (permanent_section s ++ [line]).
Proof.
  intros H. unfold scan_line.
  by rewrite (permanent_marker_not_current _ H), H.
Qed.

(** While no line opens a permanent block and none is open, the
    permanent side stays as it is and the current section only grows, by
    lines that are scanned. *)
Lemma scan_current_block (lines : list string) (s : sections) :
  Forall (fun line => is_permanent_marker line = false) lines →
  in_permanent s = false →
  in_permanent (fold_left scan_line lines s) = false
  ∧ permanent_section (fold_left scan_line lines s) = permanent_section s
  ∧ ∃ kept, current_section (fold_left scan_line lines s) = current_section s ++ kept
            ∧ ∀ line, line ∈ kept → line ∈ lines.
Proof.
  intros Hlines. revert s.
  induction Hlines as [|line lines Hline _ IH]; intros s Hs; simpl.
  { split_and!; [done..|]. exists []. split; [by rewrite app_nil_r|]. by intros ? ?%elem_of_nil. }
  assert (Hstep : in_permanent (scan_line s line) = false
    ∧ permanent_section (scan_line s line) = permanent_section s
    ∧ (current_section (scan_line s line) = current_section s
       ∨ current_section (scan_line s line) = current_section s ++ [line])).
  { unfold scan_line. rewrite Hline, Hs.
    destruct (is_current_marker line); simpl; [by auto|].
    destruct (in_current s); simpl; by auto. }
  destruct Hstep as (Hp & Hps & Hcs).
  destruct (IH _ Hp) as (Hp' & Hps' & kept & Hkept & Hin).
  split_and!; [done|congruence|].
  destruct Hcs as [Hcs|Hcs]; rewrite Hcs in Hkept.
  - exists kept. split; [done|]. intros l Hl. right. by apply Hin.
  - exists (line :: kept). split; [by rewrite Hkept, <-app_assoc|].
    intros l [->|Hl]%elem_of_cons; [by left|right; by apply Hin].
Qed.

(** The same on the other side. *)
Lemma scan_permanent_block (lines : list string) (s : sections) :
  Forall (fun line => is_current_marker line = false) lines →
  in_current s = false →
  in_current (fold_left scan_line lines s) = false
  ∧ current_section (fold_left scan_line lines s) = current_section s
  ∧ ∃ kept, permanent_section (fold_left scan_line lines s) = permanent_section s ++ kept
            ∧ ∀ line, line ∈ kept → line ∈ lines.
Proof.
  intros Hlines. revert s.
  induction Hlines as [|line lines Hline _ IH]; intros s Hs; simpl.
  { split_and!; [done..|]. exists []. split; [by rewrite app_nil_r|]. by intros ? ?%elem_of_nil. }
  assert (Hstep : in_current (scan_line s line) = false
    ∧ current_section (scan_line s line) = current_section s
    ∧ (permanent_section (scan_line s line) = permanent_section s
       ∨ permanent_section (scan_line s line) = permanent_section s ++ [line])).
  { unfold scan_line. rewrite Hline, Hs.
    destruct (is_permanent_marker line); simpl; [by auto|].
    destruct (in_permanent s); simpl; by auto. }
  destruct Hstep as (Hc & Hcs & Hps).
  destruct (IH _ Hc) as (Hc' & Hcs' & kept & Hkept & Hin).
  split_and!; [done|congruence|].
  destruct Hps as [Hps|Hps]; rewrite Hps in Hkept.
  - exists kept. split; [done|]. intros l Hl. right. by apply Hin.
  - exists (line :: kept). split; [by rewrite Hkept, <-app_assoc|].
    intros l [->|Hl]%elem_of_cons; [by left|right; by apply Hin].
Qed.

(** The two sections of a text made of a current block and a permanent
    block: each starts with its block's first line and holds, after it,
    lines of its own block only. *)
Lemma sections_of_two_blocks
    (current_head : string) (current_body : list string)
    (permanent_head : string) (permanent_body : list string) :
  is_current_marker current_head = true →
  Forall (fun line => is_permanent_marker line = false) current_body →
  is_permanent_marker permanent_head = true →
  Forall (fun line => is_current_marker line = false) permanent_body →
  ∃ kept kept',
    current_section
      (scan_lines (current_head :: current_body ++ permanent_head :: permanent_body))
    = current_head :: kept
    ∧ permanent_section
        (scan_lines (current_head :: current_body ++ permanent_head :: permanent_body))
      = permanent_head :: kept'
    ∧ (∀ line, line ∈ kept → line ∈ current_body)
    ∧ (∀ line, line ∈ kept' → line ∈ permanent_body).
Proof.
  intros Hch Hcb Hph Hpb. unfold scan_lines. simpl.
  rewrite fold_left_app. simpl.
  rewrite (scan_line_current _ _ Hch). simpl.
  destruct (scan_current_block current_body (Sections true false [current_head] []) Hcb eq_refl)
    as (Hp & Hps & kept & Hkept & Hin).
  rewrite (scan_line_permanent _ _ Hph). rewrite Hps, Hkept. simpl.
  destruct (scan_permanent_block permanent_body
              (Sections false true (current_head :: kept) [permanent_head]) Hpb eq_refl)
    as (_ & Hcs & kept' & Hkept' & Hin').
  exists kept, kept'. rewrite Hcs, Hkept'. done.
Qed.

End Segmenter.

(** C3. Take a text made of a current-address block followed by a
    permanent-address block: a line that opens the current section, lines
    of which none opens the permanent section, a line that opens the
    permanent section, and lines of which none opens the current
    section. Then the current view is made of the first line of the
    current block and of lines of that block, the permanent view of the
    first line of the permanent block and of lines of that block; so a
    value written on a line of the permanent block, such as its country,
    is in the current view only if the current block itself has it, and
    the other way round. *)
Theorem views_hold_their_block_only
    (current_head : string) (current_body : list string)
    (permanent_head : string) (permanent_body : list string) :
  Forall one_line (current_head :: current_body ++ permanent_head :: permanent_body) →
  is_current_marker current_head = true →
  Forall (fun line => is_permanent_marker line = false) current_body →
  is_permanent_marker permanent_head = true →
  Forall (fun line => is_current_marker line = false) permanent_body →
  let text :=
    PyStr.join PyStr.nl (current_head :: current_body ++ permanent_head :: permanent_body) in
  (∃ kept, current_text text = PyStr.join PyStr.nl (current_head :: kept)
           ∧ ∀ line, line ∈ kept → line ∈ current_body)
  ∧ (∃ kept, permanent_text text = PyStr.join PyStr.nl (permanent_head :: kept)
             ∧ ∀ line, line ∈ kept → line ∈ permanent_body)
  ∧ (∀ value, one_line value →
       Forall (fun line => PyStr.contains value line = false) (current_head :: current_body) →
       PyStr.contains value (current_text text) = false)
  ∧ (∀ value, one_line value →
       Forall (fun line => PyStr.contains value line = false) (permanent_head :: permanent_body) →
       PyStr.contains value (permanent_text text) = false).
Proof.
  intros Hlines Hch Hcb Hph Hpb text.
  destruct (sections_of_two_blocks _ _ _ _ Hch Hcb Hph Hpb)
    as (kept & kept' & Hc & Hp & Hin & Hin').
  assert (Hct : current_text text = PyStr.join PyStr.nl (current_head :: kept)).
  { unfold current_text, text. by rewrite split_lines_join, Hc. }
  assert (Hpt : permanent_text text = PyStr.join PyStr.nl (permanent_head :: kept')).
  { unfold permanent_text, text. by rewrite split_lines_join, Hp. }
  split_and!; [by exists kept|by exists kept'| |].
  - intros value Hv Hnot. rewrite Hct. apply contains_join; [done|].
    apply Forall_cons in Hnot as [Hh Hb]. constructor; [done|].
    apply Forall_forall. intros l Hl. by apply (proj1 (Forall_forall _ _) Hb), Hin.
  - intros value Hv Hnot. rewrite Hpt. apply contains_join; [done|].
    apply Forall_cons in Hnot as [Hh Hb]. constructor; [done|].
    apply Forall_forall. intros l Hl. by apply (proj1 (Forall_forall _ _) Hb), Hin'.
Qed.

(** The two blocks of [two_blocks_text]: each view has its own country
    and not the other's. *)
Lemma views_hold_their_block_only_witness :
  PyStr.contains "India" (current_text two_blocks_text) = false
  ∧ PyStr.contains "Nepal" (permanent_text two_blocks_text) = false
  ∧ PyStr.contains "Nepal" (current_text two_blocks_text) = true
  ∧ PyStr.contains "India" (permanent_text two_blocks_text) = true.
Proof.
  assert (H := views_hold_their_block_only
                 "Current Address" ["Country: Nepal"]
                 "Permanent Address" ["Country: India"]).
  destruct H as (_ & _ & Hc & Hp).
  - repeat constructor.
  - reflexivity.
  - repeat constructor.
  - reflexivity.
  - repeat constructor.
  - split_and!.
    + apply Hc; [reflexivity|repeat constructor].
    + apply Hp; [reflexivity|repeat constructor].
    + vm_compute. reflexivity.
    + vm_compute. reflexivity.
Defined.

(** ** Values stored for the temporary and the permanent address *)

(** The permanent address, the sibling of the temporary one, tests the
    cleaned value before it stores it. *)
Lemma permanent_store_kept (field value c : string) :
  permanent_store field value = Some c → c ≠ "" ∧ c ≠ "-".
Proof.
  unfold permanent_store.
  destruct (PyStr.truthy (permanent_clean field value)) eqn:Ht; simpl; [|done].
  case_bool_decide; simpl; [done|].
  intros [= <-]. by apply truthy_true in Ht.
Qed.

(** C2, at the text [temporary_blank_country_text]. The rule for the
    country of the temporary address captures "Province", the label that
    follows; the value is cut at the word "Province" and what is left,
    the empty string, is stored without a test: the record maps
    [temporary_country] to the empty string. The same happens on the
    rows of a form left blank, [temporary_blank_form_text]. *)
Theorem temporary_country_stored_empty :
  Py.extract_field temporary_blank_country_text
    (cat_get Catalog.temporary_address "country") = Some "Province"
  ∧ temporary_clean "country" "Province" = ""
  ∧ permanent_store "country" "Province" = None
  ∧ _extract_temporary_address_info Py.re_search temporary_blank_country_text
      !! "temporary_country" = Some ""
  ∧ snd (Py.parse temporary_blank_country_text) !! "temporary_country" = Some ""
  ∧ snd (Py.parse temporary_blank_form_text) !! "temporary_country" = Some "".
Proof. split_and!; vm_compute; reflexivity. Qed.

(** ** Values worth storing

    A value is worth storing when it is neither empty nor the dash. Every
    method but the one for the temporary address stores only such
    values. *)

Section Kept.
Import PyStr.

Lemma smap_nil (f : ascii → ascii) (s : string) : smap f s = "" → s = "".
Proof. by destruct s. Qed.

Lemma upper_char_dash (c : ascii) : upper_char c = "-"%char → c = "-"%char.
Proof. destruct c as [[] [] [] [] [] [] [] []]; vm_compute; congruence. Qed.

Lemma upper_kept (s : string) : s ≠ "" ∧ s ≠ "-" → upper s ≠ "" ∧ upper s ≠ "-".
Proof.
  intros [Hne Hd]. unfold upper. split.
  - by intros ?%smap_nil.
  - destruct s as [|c [|c' s]]; [done| |done].
    simpl. intros [= Hc%upper_char_dash]. congruence.
Qed.

Lemma sfilter_sall (p : ascii → bool) (s : string) : sall p (sfilter p s) = true.
Proof.
  induction s as [|c s IH]; [done|]. simpl.
  destruct (p c) eqn:E; [|done]. simpl. by rewrite E, IH.
Qed.

Lemma digits_not_dash (s : string) : keep_chars isdigit s ≠ "-".
Proof.
  intros H. pose proof (sfilter_sall isdigit s) as Hall.
  unfold keep_chars in H. rewrite H in Hall. discriminate.
Qed.

Lemma long_kept (n : nat) (s : string) : 2 ≤ n → n ≤ String.length s → s ≠ "" ∧ s ≠ "-".
Proof. intros ? ?. split; intros ->; simpl in *; lia. Qed.

Lemma usable_strip (v : string) :
  usable (Some v) = true → strip v ≠ "" ∧ strip v ≠ "-".
Proof.
  unfold usable. intros [[_ Ht]%andb_true_iff Hd]%andb_true_iff.
  apply truthy_true in Ht. apply negb_true_iff, bool_decide_eq_false in Hd. done.
Qed.

(** [re.sub(r'\s+', ' ', s)] of a value worth storing is worth storing. *)
Lemma sub_spaces_kept (s : string) :
  s ≠ "" ∧ s ≠ "-" → sub_spaces " " s ≠ "" ∧ sub_spaces " " s ≠ "-".
Proof.
  intros [Hne Hd]. destruct s as [|c s]; [done|].
  unfold sub_spaces. simpl. destruct (isspace c); [done|]. split; [done|].
  intros [= -> Hs]. destruct s as [|c' s]; [done|].
  simpl in Hs. by destruct (isspace c').
Qed.

Lemma sub_spaces_remove_nil (in_run : bool) (s : string) :
  sub_spaces_go "" in_run s = "" → sall isspace s = true.
Proof.
  revert in_run. induction s as [|c s IH]; intros in_run; [done|]. simpl.
  destruct (isspace c); [|done]. destruct in_run; rewrite ?append_nil; apply IH.
Qed.

Lemma rstrip_spaces (s : string) : sall isspace s = true → rstrip s = "".
Proof.
  induction s as [|c s IH]; [done|]. simpl.
  intros [Hc Hs]%andb_true_iff. by rewrite Hc, (IH Hs).
Qed.

Lemma rstrip_tail (s : string) (c : ascii) (s' : string) :
  rstrip s = String c s' → sall isspace s' = true → s' = "".
Proof.
  intros Hs Hall. pose proof (rstrip_idemp s) as Hi. rewrite Hs in Hi.
  simpl in Hi. rewrite (rstrip_spaces _ Hall) in Hi. simpl in Hi.
  destruct (isspace c); simpl in Hi; congruence.
Qed.

(** [re.sub(r'\s+', '', s)] of a trimmed value worth storing is worth
    storing. *)
Lemma remove_spaces_kept (v : string) :
  strip v ≠ "" ∧ strip v ≠ "-" →
  sub_spaces "" (strip v) ≠ "" ∧ sub_spaces "" (strip v) ≠ "-".
Proof.
  intros [Hne Hd].
  pose proof (rstrip_head _ (lstrip_head v)) as Hhead. fold (strip v) in Hhead.
  destruct (strip v) as [|c s] eqn:Es; [done|].
  unfold sub_spaces. simpl. rewrite Hhead. split; [done|].
  intros [= -> Hs%sub_spaces_remove_nil].
  apply (rstrip_tail (lstrip v) "-"%char s Es) in Hs. congruence.
Qed.

End Kept.

(** ** Records of values worth storing *)

Section AllKept.
Import PyStr.
Variable re_search : string → string → re_result.

Lemma all_kept_weaken (spared : option string) (data : gmap string string) :
  all_kept data → all_kept_but spared data.
Proof. intros H key v Hv _. by apply (H key v). Qed.

Lemma all_kept_empty (spared : option string) : all_kept_but spared ∅.
Proof. intros key v Hv. by rewrite lookup_empty in Hv. Qed.

Lemma all_kept_set_opt (spared : option string) (key : string) (o : option string)
    (data : gmap string string) :
  (∀ v, o = Some v → spared ≠ Some key → kept v) →
  all_kept_but spared data → all_kept_but spared (set_opt key o data).
Proof.
  intros Ho Hd key' v. destruct o as [w|]; simpl; [|apply Hd].
  destruct (decide (key = key')) as [<-|Hne].
  - rewrite lookup_insert_eq. intros [= <-]. by apply Ho.
  - rewrite lookup_insert_ne by done. apply Hd.
Qed.

Lemma all_kept_insert (spared : option string) (key v : string) (data : gmap string string) :
  kept v → all_kept_but spared data → all_kept_but spared (<[key := v]> data).
Proof.
  intros Hv. apply (all_kept_set_opt spared key (Some v)). by intros ? [= <-].
Qed.

Lemma all_kept_when_set (spared : option string) (value : option string)
    (f : string → gmap string string → gmap string string) (data : gmap string string) :
  (∀ v d, value = Some v → all_kept_but spared d → all_kept_but spared (f v d)) →
  all_kept_but spared data → all_kept_but spared (when_set value f data).
Proof.
  intros Hf Hd. unfold when_set. destruct value as [v|]; [|done].
  destruct (truthy v); [by apply Hf|done].
Qed.

Lemma all_kept_union (spared : option string) (d1 d2 : gmap string string) :
  all_kept_but spared d1 → all_kept_but spared d2 → all_kept_but spared (d1 ∪ d2).
Proof.
  intros H1 H2 key v [Hv|[_ Hv]]%lookup_union_Some_raw; [by apply (H1 key)|by apply (H2 key)].
Qed.

Lemma all_kept_delete (spared : option string) (key : string) (data : gmap string string) :
  all_kept_but spared data → all_kept_but spared (delete key data).
Proof.
  intros Hd key' v Hv. apply (Hd key').
  destruct (decide (key = key')) as [<-|Hne].
  - by rewrite lookup_delete_eq in Hv.
  - by rewrite lookup_delete_ne in Hv.
Qed.

Lemma all_kept_fold {A : Type} (spared : option string)
    (f : gmap string string → A → gmap string string) (l : list A)
    (data : gmap string string) :
  (∀ d x, all_kept_but spared d → all_kept_but spared (f d x)) →
  all_kept_but spared data → all_kept_but spared (fold_left f l data).
Proof.
  intros Hf. revert data. induction l as [|x l IH]; intros data Hd; [done|].
  simpl. by apply IH, Hf.
Qed.

Lemma extracted_kept (text : string) (patterns : list string) (v : string) :
  _extract_field re_search text patterns = Some v → kept v ∧ strip v = v.
Proof.
  intros H. split; [by apply (extract_field_value _ _ _ _ H)|].
  by apply (extract_field_stripped _ _ _ _ H).
Qed.

Lemma plain_value_kept (text : string) (patterns : list string) (v w : string) :
  _extract_field re_search text patterns = Some v → plain_value v = Some w → kept w.
Proof.
  intros [Hk Hs]%extracted_kept. unfold plain_value. rewrite Hs.
  destruct (_ && _); [|done]. by intros [= <-].
Qed.

Lemma basic_info_kept (text : string) : all_kept (_extract_basic_info re_search text).
Proof.
  unfold _extract_basic_info, all_kept. cbv zeta.
  repeat (apply all_kept_when_set;
          [intros v d Hv Hd;
           first [apply all_kept_set_opt; [intros w Hw _|done]
                 |apply all_kept_insert; [|done]]|]);
    [..|apply all_kept_empty].
  - by apply (plain_value_kept _ _ _ _ Hv).
  - by apply (plain_value_kept _ _ _ _ Hv).
  - by apply (plain_value_kept _ _ _ _ Hv).
  - unfold pan_value in Hw. destruct (_ && _); [|done].
    destruct (_ && _) eqn:Hl; [|done]. injection Hw as <-.
    apply andb_true_iff in Hl as [Hl%Nat.leb_le _].
    apply (long_kept 9); [lia|done].
  - unfold beneficiary_value in Hw.
    destruct (_ && _) eqn:Ht; [|done]. injection Hw as <-.
    apply andb_true_iff in Ht as [Ht _].
    split; [by apply truthy_true|apply digits_not_dash].
  - apply citizenship_value_spec in Hw as (_ & Hl & _).
    apply (long_kept 3); [lia|done].
  - unfold gender_value. repeat case_bool_decide; [done..|].
    apply extracted_kept in Hv as [Hk ->]. done.
  - apply extracted_kept in Hv as [Hk ->]. done.
  - apply extracted_kept in Hv as [Hk ->]. by apply upper_kept.
Qed.

End AllKept.

Section AllKeptCategories.
Import PyStr.
Variable re_search : string → string → re_result.

Lemma usable_fmap (f : string → string) (value : option string) (w : string) :
  usable value = true →
  (∀ v, kept (strip v) → kept (f v)) →
  f <$> value = Some w → kept w.
Proof.
  intros Hu Hf. destruct value as [v|]; [|done].
  intros [= <-]. by apply Hf, usable_strip.
Qed.

Lemma current_value_kept (text : string) (patterns : list string) (w : string) :
  current_value re_search text patterns = Some w → kept w.
Proof.
  unfold current_value.
  destruct (usable _) eqn:Hu; [|done]. by apply (usable_fmap strip).
Qed.

Lemma permanent_value_kept (text field : string) (patterns : list string) (w : string) :
  permanent_value re_search text field patterns = Some w → kept w.
Proof.
  unfold permanent_value. destruct (usable _); [|done].
  destruct (section_or_text _ _ _ _) as [v|]; [|done].
  apply permanent_store_kept.
Qed.

Lemma address_info_kept (text : string) : all_kept (_extract_address_info re_search text).
Proof.
  unfold _extract_address_info, all_kept. cbv zeta.
  apply all_kept_fold; [|apply all_kept_fold; [|apply all_kept_empty]].
  - intros d [field patterns] Hd. apply all_kept_set_opt; [|done].
    intros w Hw _. by apply permanent_value_kept in Hw.
  - intros d [field patterns] Hd. apply all_kept_set_opt; [|done].
    intros w Hw _. by apply current_value_kept in Hw.
Qed.

Lemma bank_info_kept (text : string) : all_kept (_extract_bank_info re_search text).
Proof.
  unfold _extract_bank_info, all_kept.
  apply all_kept_fold; [|apply all_kept_empty].
  intros d [field patterns] Hd. cbv zeta.
  destruct (usable _) eqn:Hu; [|done].
  case_bool_decide; (apply all_kept_set_opt; [|done]); intros w Hw _;
    by apply (usable_fmap strip _ _ Hu).
Qed.

Lemma occupation_info_kept (text : string) :
  all_kept (_extract_occupation_info re_search text).
Proof.
  unfold _extract_occupation_info, all_kept. cbv zeta.
  assert (all_kept_but None
    (fold_left (fun data '(field, patterns) =>
                  set_opt field (occupation_value field (_extract_field re_search text patterns)) data)
       Catalog.occupation ∅)) as Hdata.
  { apply all_kept_fold; [|apply all_kept_empty].
    intros d [field patterns] Hd. apply all_kept_set_opt; [|done].
    intros w Hw _. apply occupation_value_kept in Hw. split; apply Hw. }
  unfold occupation_fallback.
  destruct (_ !! "occupation"); [done|].
  destruct (_ !! "sector") as [sector|] eqn:Es; [|done].
  apply all_kept_insert; [|done]. by apply (Hdata "sector").
Qed.

Lemma guardian_info_kept (text : string) :
  all_kept (_extract_guardian_info re_search text).
Proof.
  unfold _extract_guardian_info, all_kept.
  apply all_kept_fold; [|apply all_kept_empty].
  intros d [field patterns] Hd. cbv zeta.
  destruct (usable _) eqn:Hu; [|done].
  apply all_kept_set_opt; [|done]. intros w Hw _.
  apply (usable_fmap _ _ _ Hu) in Hw; [done|]. intros v. apply sub_spaces_kept.
Qed.

Lemma minor_contact_info_kept (text : string) :
  all_kept (_extract_minor_contact_info re_search text).
Proof.
  unfold _extract_minor_contact_info, all_kept.
  apply all_kept_fold; [|apply all_kept_empty].
  intros d [field patterns] Hd. cbv zeta.
  destruct (usable _) eqn:Hu; [|done].
  apply all_kept_set_opt; [|done]. intros w Hw _.
  apply (usable_fmap _ _ _ Hu) in Hw; [done|]. intros v. apply remove_spaces_kept.
Qed.

Lemma money_laundering_info_kept (text : string) :
  all_kept (_extract_money_laundering_info re_search text).
Proof.
  unfold _extract_money_laundering_info, all_kept.
  apply all_kept_fold; [|apply all_kept_empty].
  intros d [field patterns] Hd. cbv zeta.
  destruct (usable _) eqn:Hu; [|done].
  apply all_kept_set_opt; [|done]. intros w Hw _.
  by apply (usable_fmap strip _ _ Hu).
Qed.

Lemma financial_info_kept (text : string) :
  all_kept (_extract_financial_info re_search text).
Proof.
  unfold _extract_financial_info, all_kept.
  apply all_kept_fold; [|apply all_kept_empty].
  intros d [field patterns] Hd. cbv zeta.
  destruct (usable _) eqn:Hu; [|done].
  apply all_kept_set_opt; [|done]. intros w Hw _.
  by apply (usable_fmap strip _ _ Hu).
Qed.

(** The temporary address: every value but the country's is worth
    storing. *)
Lemma temporary_address_info_kept (text : string) :
  all_kept_but (Some "temporary_country")
    (_extract_temporary_address_info re_search text).
Proof.
  unfold _extract_temporary_address_info.
  apply all_kept_fold; [|apply all_kept_empty].
  intros d [field patterns] Hd. cbv zeta.
  destruct (usable _) eqn:Hu; [|done].
  apply all_kept_set_opt; [|done]. intros w Hw Hkey.
  apply (usable_fmap _ _ _ Hu) in Hw; [done|]. intros v Hv.
  unfold temporary_clean. case_bool_decide as Hf; [|done].
  subst field. by destruct Hkey.
Qed.

Lemma family_info_kept (text : string) : all_kept (_extract_family_info re_search text).
Proof.
  unfold _extract_family_info, all_kept.
  apply all_kept_fold; [|apply all_kept_empty].
  intros d member Hd. apply all_kept_when_set; [|done].
  intros v d' _ Hd'. apply all_kept_set_opt; [|done]. intros w Hw _.
  unfold family_value in Hw. destruct (_ || _); [done|].
  destruct (truthy _) eqn:Ht; simpl in Hw; [|done].
  case_bool_decide; simpl in Hw; [done|]. injection Hw as <-.
  split; [by apply truthy_true|done].
Qed.

Lemma validate_store_subset (family_data : gmap string string) (key v : string) :
  family_store (_validate_family_names family_data) !! key = Some v →
  family_data !! key = Some v.
Proof.
  destruct (decide (key = "spouse_name")) as [->|Hne].
  - validate_cases family_data; congruence.
  - by rewrite validate_keeps_others.
Qed.

Lemma family_step_kept (text : string) (sent : list signal) (d : gmap string string) :
  family_step re_search text = (sent, Returned d) → all_kept d.
Proof.
  unfold family_step. intros [= _ Hd]. apply validate_returns_store in Hd as ->.
  intros key v Hv%validate_store_subset. by apply (family_info_kept text key).
Qed.

End AllKeptCategories.

Lemma run_steps_kept (spared : option string)
    (steps : list (string → list signal * outcome (gmap string string)))
    (text : string) (parsed_data d : gmap string string) (sent : list signal) :
  Forall (fun step => ∀ s r, step text = (s, Returned r) → all_kept_but spared r) steps →
  all_kept_but spared parsed_data →
  run_steps steps text parsed_data = (sent, Returned d) →
  all_kept_but spared d.
Proof.
  intros Hsteps. revert parsed_data sent.
  induction Hsteps as [|step steps Hstep _ IH]; intros parsed_data sent Hp; simpl.
  - by intros [= _ <-].
  - destruct (step text) as [s [r|e]] eqn:Es; [|done].
    destruct (run_steps steps text (r ∪ parsed_data)) as [s' result] eqn:Er.
    intros [= _ ->]. apply (IH _ _ (all_kept_union _ _ _ (Hstep _ _ eq_refl) Hp) Er).
Qed.

(** Every value of the record that [parse_data] returns is worth storing,
    but for [temporary_country]. *)
Lemma parse_data_kept (re_search : string → string → re_result) (text : string) :
  all_kept_but (Some "temporary_country") (snd (parse_data re_search text)).
Proof.
  unfold parse_data, parse_data_with.
  destruct (negb (PyStr.truthy text)); [apply all_kept_empty|].
  destruct (run_steps _ _ _) as [sent [d|e]] eqn:E; [|apply all_kept_empty].
  simpl.
  revert E. apply run_steps_kept; [|apply all_kept_empty].
  unfold sub_extractors.
  repeat (apply Forall_cons; split); [..|by apply Forall_nil].
  - intros s r [= _ <-]. apply all_kept_weaken, basic_info_kept.
  - intros s r [= _ <-]. apply all_kept_weaken, address_info_kept.
  - intros s r [= _ <-]. apply all_kept_weaken, bank_info_kept.
  - intros s r [= _ <-]. apply all_kept_weaken, occupation_info_kept.
  - intros s r [= _ <-]. apply all_kept_weaken, guardian_info_kept.
  - intros s r [= _ <-]. apply all_kept_weaken, minor_contact_info_kept.
  - intros s r [= _ <-]. apply temporary_address_info_kept.
  - intros s r [= _ <-]. apply all_kept_weaken, financial_info_kept.
  - intros s r Hr. apply all_kept_weaken. by apply (family_step_kept _ _ _ _ Hr).
  - intros s r [= _ <-]. apply all_kept_weaken, money_laundering_info_kept.
Qed.

(** A line that mentions the current address opens the current section
    wherever it stands: after the line that opened the permanent section
    it ends that section, and the lines that follow go to the current
    view. The blocks of C3 are the spans between such lines. *)
Example current_marker_reopens_current_section :
  let text := Py.text_of [ "Current Address"; "Country: Nepal"; "Permanent Address";
                           "Same as Current Address"; "Country: India" ] in
  is_current_marker "Same as Current Address" = true
  ∧ current_text text
    = Py.text_of [ "Current Address"; "Country: Nepal";
                   "Same as Current Address"; "Country: India" ]
  ∧ permanent_text text = "Permanent Address".
Proof. split_and!; vm_compute; reflexivity. Qed.

(** ** Trimmed values *)

Section Trimmed.
Import PyStr.

Lemma isspace_upper_char (c : ascii) : isspace (upper_char c) = isspace c.
Proof. destruct c as [[] [] [] [] [] [] [] []]; vm_compute; reflexivity. Qed.

Lemma upper_char_idemp (c : ascii) : upper_char (upper_char c) = upper_char c.
Proof. destruct c as [[] [] [] [] [] [] [] []]; vm_compute; reflexivity. Qed.

Lemma truthy_smap (f : ascii → ascii) (s : string) : truthy (smap f s) = truthy s.
Proof. by destruct s. Qed.

Lemma lstrip_smap (f : ascii → ascii) (s : string) :
  (∀ c, isspace (f c) = isspace c) → lstrip (smap f s) = smap f (lstrip s).
Proof.
  intros Hf. induction s as [|c s IH]; [done|]. simpl.
  rewrite Hf. by destruct (isspace c).
Qed.

Lemma rstrip_smap (f : ascii → ascii) (s : string) :
  (∀ c, isspace (f c) = isspace c) → rstrip (smap f s) = smap f (rstrip s).
Proof.
  intros Hf. induction s as [|c s IH]; [done|]. simpl.
  rewrite Hf, IH, truthy_smap. by destruct (isspace c && _).
Qed.

Lemma strip_upper (s : string) : strip (upper s) = upper (strip s).
Proof.
  unfold strip, upper.
  by rewrite lstrip_smap, rstrip_smap by apply isspace_upper_char.
Qed.

Lemma upper_idemp (s : string) : upper (upper s) = upper s.
Proof.
  unfold upper. induction s as [|c s IH]; [done|]. simpl.
  by rewrite upper_char_idemp, IH.
Qed.

Lemma trimmed_strip (v : string) : trimmed (strip v).
Proof. apply strip_idemp. Qed.

Lemma trimmed_upper (v : string) : trimmed v → trimmed (upper v).
Proof. unfold trimmed. intros H. by rewrite strip_upper, H. Qed.

(** A value is trimmed when it neither begins with whitespace nor ends
    with it. *)
Lemma trimmed_ends (t : string) :
  trimmed t ↔
  match t with String c _ => isspace c = false | EmptyString => True end
  ∧ rstrip t = t.
Proof.
  unfold trimmed. split.
  - intros H. rewrite <- H. unfold strip. split.
    + apply rstrip_head, lstrip_head.
    + apply rstrip_idemp.
  - intros [Hh Hr]. unfold strip. by rewrite (lstrip_fixed _ Hh).
Qed.

Lemma rstrip_cons (c : ascii) (s : string) :
  rstrip (String c s) = String c s ↔
  rstrip s = s ∧ (isspace c = true → s ≠ "").
Proof.
  simpl. destruct (isspace c) eqn:Ec; simpl.
  - destruct (truthy (rstrip s)) eqn:Et; simpl.
    + split.
      * intros [= H]. split; [done|]. intros _ ->. done.
      * intros [-> _]. done.
    + split; [done|]. intros [Hs Hne]. apply truthy_false in Et.
      rewrite Et in Hs. by destruct Hne.
  - split.
    + intros [= H]. by split.
    + by intros [-> _].
Qed.

Lemma sall_impl (p q : ascii → bool) (s : string) :
  (∀ c, p c = true → q c = true) → sall p s = true → sall q s = true.
Proof.
  intros Hpq. induction s as [|c s IH]; [done|]. simpl.
  intros [Hc Hs]%andb_true_iff. by rewrite (Hpq _ Hc), (IH Hs).
Qed.

Lemma trimmed_no_space (s : string) :
  sall (fun c => negb (isspace c)) s = true → trimmed s.
Proof.
  intros H. apply trimmed_ends. split.
  - destruct s as [|c s]; [done|]. simpl in H.
    apply andb_true_iff in H as [Hc _]. by apply negb_true_iff.
  - induction s as [|c s IH]; [done|].
    simpl in H. apply andb_true_iff in H as [Hc Hs].
    apply rstrip_cons. split; [by apply IH|].
    apply negb_true_iff in Hc. congruence.
Qed.

Lemma isdigit_not_space (c : ascii) : isdigit c = true → negb (isspace c) = true.
Proof. destruct c as [[] [] [] [] [] [] [] []]; vm_compute; congruence. Qed.

Lemma trimmed_filtered (p : ascii → bool) (s : string) :
  (∀ c, p c = true → negb (isspace c) = true) → trimmed (sfilter p s).
Proof.
  intros Hp. apply trimmed_no_space, (sall_impl p); [done|apply sfilter_sall].
Qed.

(** [re.sub(r'\s+', '', s)] leaves no whitespace. *)
Lemma sub_spaces_remove_no_space (in_run : bool) (s : string) :
  sall (fun c => negb (isspace c)) (sub_spaces_go "" in_run s) = true.
Proof.
  revert in_run. induction s as [|c s IH]; intros in_run; [done|]. simpl.
  destruct (isspace c) eqn:Ec.
  - destruct in_run; rewrite ?append_nil; apply IH.
  - simpl. by rewrite Ec, IH.
Qed.

Lemma sub_spaces_run_nil (s : string) :
  sub_spaces_go " " true s = "" → sall isspace s = true.
Proof.
  induction s as [|c s IH]; [done|]. simpl.
  destruct (isspace c); [apply IH|done].
Qed.

(** [re.sub(r'\s+', ' ', s)] of a trimmed value is trimmed. *)
Lemma rstrip_sub_spaces (in_run : bool) (s : string) :
  rstrip s = s → rstrip (sub_spaces_go " " in_run s) = sub_spaces_go " " in_run s.
Proof.
  revert in_run. induction s as [|c s IH]; intros in_run; [done|].
  intros [Hs Hne]%rstrip_cons. simpl.
  destruct (isspace c) eqn:Ec.
  - specialize (Hne eq_refl).
    destruct in_run; [by apply IH|].
    change (" " +:+ ?x) with (String " " x).
    apply rstrip_cons. split; [by apply IH|].
    intros _ Hnil%sub_spaces_run_nil. apply rstrip_spaces in Hnil. congruence.
  - apply rstrip_cons. split; [by apply IH|]. congruence.
Qed.

Lemma trimmed_sub_spaces (s : string) : trimmed s → trimmed (sub_spaces " " s).
Proof.
  intros [Hh Hr]%trimmed_ends. apply trimmed_ends. split.
  - destruct s as [|c s]; [done|]. unfold sub_spaces. simpl. by rewrite Hh.
  - by apply rstrip_sub_spaces.
Qed.

(** The two substitutions that close [permanent_clean] leave a trimmed
    value, for a class that holds the whitespace. *)
Lemma rstrip_rstrip_by (q : ascii → bool) (s : string) :
  (∀ c, isspace c = true → q c = true) →
  rstrip (rstrip_by q s) = rstrip_by q s.
Proof.
  intros Hq. induction s as [|c s IH]; [done|]. simpl.
  destruct (q c && negb (truthy (rstrip_by q s))) eqn:E; [done|].
  apply rstrip_cons. split; [done|].
  intros Hc Hnil. rewrite (Hq _ Hc), Hnil in E. done.
Qed.

Lemma rstrip_lstrip_by (q : ascii → bool) (s : string) :
  rstrip s = s → rstrip (lstrip_by q s) = lstrip_by q s.
Proof.
  induction s as [|c s IH]; [done|]. intros H. simpl.
  destruct (q c); [|done]. apply IH. by apply rstrip_cons in H as [H _].
Qed.

Lemma lstrip_by_head (q : ascii → bool) (s : string) :
  match lstrip_by q s with String c _ => q c = false | EmptyString => True end.
Proof.
  induction s as [|c s IH]; [done|]. simpl. by destruct (q c) eqn:E; [|simpl].
Qed.

Lemma trimmed_strip_by (q : ascii → bool) (s : string) :
  (∀ c, isspace c = true → q c = true) →
  trimmed (lstrip_by q (rstrip_by q s)).
Proof.
  intros Hq. apply trimmed_ends. split.
  - pose proof (lstrip_by_head q (rstrip_by q s)) as Hh.
    destruct (lstrip_by q (rstrip_by q s)) as [|c t]; [done|].
    destruct (isspace c) eqn:Ec; [|done]. rewrite (Hq _ Ec) in Hh. done.
  - by apply rstrip_lstrip_by, rstrip_rstrip_by.
Qed.

End Trimmed.

(** ** Records whose entries all have a property *)

Section Within.
Variable P : string → string → Prop.

Lemma forall_set_opt (key : string) (o : option string) (data : gmap string string) :
  (∀ v, o = Some v → P key v) →
  map_Forall P data → map_Forall P (set_opt key o data).
Proof.
  intros Ho Hd. destruct o as [v|]; simpl; [|done].
  apply map_Forall_insert_2; [by apply Ho|done].
Qed.

Lemma forall_when_set (value : option string)
    (f : string → gmap string string → gmap string string) (data : gmap string string) :
  (∀ v d, value = Some v → map_Forall P d → map_Forall P (f v d)) →
  map_Forall P data → map_Forall P (when_set value f data).
Proof.
  intros Hf Hd. unfold when_set. destruct value as [v|]; [|done].
  destruct (PyStr.truthy v); [by apply Hf|done].
Qed.

Lemma forall_fold {A : Type} (f : gmap string string → A → gmap string string)
    (l : list A) (data : gmap string string) :
  (∀ d x, x ∈ l → map_Forall P d → map_Forall P (f d x)) →
  map_Forall P data → map_Forall P (fold_left f l data).
Proof.
  revert data. induction l as [|x l IH]; intros data Hf Hd; [done|]. simpl.
  apply IH.
  - intros d y Hy. apply Hf. by apply list_elem_of_further.
  - apply Hf; [apply list_elem_of_here|done].
Qed.

Lemma run_steps_forall
    (steps : list (string → list signal * outcome (gmap string string)))
    (text : string) (parsed_data d : gmap string string) (sent : list signal) :
  Forall (fun step => ∀ s r, step text = (s, Returned r) → map_Forall P r) steps →
  map_Forall P parsed_data →
  run_steps steps text parsed_data = (sent, Returned d) →
  map_Forall P d.
Proof.
  intros Hsteps. revert parsed_data sent.
  induction Hsteps as [|step steps Hstep _ IH]; intros parsed_data sent Hp; simpl.
  - by intros [= _ <-].
  - destruct (step text) as [s [r|e]] eqn:Es; [|done].
    destruct (run_steps steps text (r ∪ parsed_data)) as [s' result] eqn:Er.
    intros [= _ ->].
    apply (IH _ _ (map_Forall_union_2 _ _ _ (Hstep _ _ eq_refl) Hp) Er).
Qed.

End Within.

Lemma within_weaken (keys keys' : list string) (data : gmap string string) :
  Forall (fun key => key ∈ keys') keys →
  trimmed_within keys data → trimmed_within keys' data.
Proof.
  intros Hk Hd key v Hv. destruct (Hd key v Hv) as [Hin Ht]. split; [|done].
  by apply (proj1 (Forall_forall _ _) Hk).
Qed.

Lemma field_key_in (key_of : string → string) (category : list (string * list string))
    (field : string) (patterns : list string) :
  (field, patterns) ∈ category → key_of field ∈ key_of <$> category.*1.
Proof.
  intros Hin. apply list_elem_of_fmap. exists field. split; [done|].
  apply list_elem_of_fmap. by exists (field, patterns).
Qed.

Lemma field_in (category : list (string * list string))
    (field : string) (patterns : list string) :
  (field, patterns) ∈ category → field ∈ category.*1.
Proof. intros Hin. apply list_elem_of_fmap. by exists (field, patterns). Qed.

(** ** Every method stores trimmed values under its own keys *)

Section TrimmedWithin.
Import PyStr.
Variable re_search : string → string → re_result.

Lemma citizenship_char_not_space (c : ascii) :
  isdigit c || Ascii.eqb c "-" || Ascii.eqb c "/" = true → negb (isspace c) = true.
Proof. destruct c as [[] [] [] [] [] [] [] []]; vm_compute; congruence. Qed.

Lemma colon_or_space_holds_space (c : ascii) :
  isspace c = true → Ascii.eqb c ":" || isspace c = true.
Proof. intros ->. apply orb_true_r. Qed.

Lemma gender_value_trimmed (gender : string) : trimmed (gender_value gender).
Proof.
  unfold gender_value. repeat case_bool_decide; [done..|apply trimmed_strip].
Qed.

Lemma citizenship_value_trimmed (citizenship w : string) :
  citizenship_value citizenship = Some w → trimmed w.
Proof.
  intros (-> & _)%citizenship_value_spec.
  apply trimmed_filtered, citizenship_char_not_space.
Qed.

Lemma beneficiary_value_trimmed (beneficiary_id w : string) :
  beneficiary_value beneficiary_id = Some w → trimmed w.
Proof.
  unfold beneficiary_value. destruct (_ && _); [|done]. intros [= <-].
  apply trimmed_filtered, isdigit_not_space.
Qed.

Lemma pan_value_trimmed (pan w : string) : pan_value pan = Some w → trimmed w.
Proof.
  unfold pan_value. destruct (_ && _); [|done]. destruct (_ && _); [|done].
  intros [= <-]. apply trimmed_strip.
Qed.

Lemma plain_value_trimmed (value w : string) : plain_value value = Some w → trimmed w.
Proof.
  unfold plain_value. destruct (_ && _); [|done]. intros [= <-]. apply trimmed_strip.
Qed.

Lemma permanent_store_trimmed (field value c : string) :
  permanent_store field value = Some c → trimmed c.
Proof.
  unfold permanent_store. destruct (_ && _); [|done]. intros [= <-].
  unfold permanent_clean. apply trimmed_strip_by, colon_or_space_holds_space.
Qed.

Lemma occupation_value_trimmed (field : string) (value : option string) (w : string) :
  occupation_value field value = Some w → trimmed w.
Proof.
  unfold occupation_value, occupation_clean. destruct value as [v|]; [|done].
  destruct (truthy v) eqn:Ev.
  - destruct (_ && _); [|done]. repeat case_bool_decide; try done.
    intros [= <-]. apply trimmed_sub_spaces, trimmed_strip.
  - rewrite Ev. done.
Qed.

Lemma family_value_trimmed (member value w : string) :
  family_value member value = Some w → trimmed w.
Proof.
  unfold family_value. destruct (_ || _); [done|]. destruct (_ && _); [|done].
  intros [= <-]. apply trimmed_upper, trimmed_strip.
Qed.

Lemma temporary_clean_trimmed (field value : string) :
  trimmed (temporary_clean field value).
Proof. unfold temporary_clean. destruct (_ && _); apply trimmed_strip. Qed.

Lemma basic_info_within (text : string) :
  trimmed_within basic_keys (_extract_basic_info re_search text).
Proof.
  unfold _extract_basic_info, trimmed_within. cbv zeta.
  repeat (apply forall_when_set;
          [intros v d Hv Hd;
           first [apply forall_set_opt; [intros w Hw|done]
                 |apply map_Forall_insert_2; [|done]];
           (split; [in_keys|])|]);
    [..|apply map_Forall_empty].
  - by apply plain_value_trimmed in Hw.
  - by apply plain_value_trimmed in Hw.
  - by apply plain_value_trimmed in Hw.
  - by apply pan_value_trimmed in Hw.
  - by apply beneficiary_value_trimmed in Hw.
  - by apply citizenship_value_trimmed in Hw.
  - apply gender_value_trimmed.
  - apply trimmed_strip.
  - apply trimmed_upper, trimmed_strip.
Qed.

Lemma address_info_within (text : string) :
  trimmed_within address_keys (_extract_address_info re_search text).
Proof.
  unfold _extract_address_info, trimmed_within. cbv zeta.
  apply forall_fold; [|apply forall_fold; [|apply map_Forall_empty]].
  - intros d [field patterns] Hin Hd. apply forall_set_opt; [|done].
    intros w Hw. split.
    + apply elem_of_app. right.
      by apply (field_key_in (String.append "permanent_") _ _ patterns).
    + unfold permanent_value in Hw. destruct (usable _); [|done].
      destruct (section_or_text _ _ _ _) as [v|]; [|done].
      by apply permanent_store_trimmed in Hw.
  - intros d [field patterns] Hin Hd. apply forall_set_opt; [|done].
    intros w Hw. split.
    + apply elem_of_app. left.
      by apply (field_key_in (String.append "current_") _ _ patterns).
    + unfold current_value in Hw. destruct (usable _); [|done].
      destruct (section_or_text _ _ _ _) as [v|]; [|done].
      injection Hw as <-. apply trimmed_strip.
Qed.

Lemma bank_info_within (text : string) :
  trimmed_within bank_keys (_extract_bank_info re_search text).
Proof.
  unfold _extract_bank_info, trimmed_within.
  apply forall_fold; [|apply map_Forall_empty].
  intros d [field patterns] Hin Hd. cbv zeta.
  destruct (usable _); [|done].
  pose proof (field_key_in bank_key _ _ _ Hin) as Hkey. unfold bank_key at 1 in Hkey.
  case_bool_decide; (apply forall_set_opt; [|done]); intros w Hw; (split; [done|]);
    destruct (_extract_field _ _ _) as [v|]; try done;
    injection Hw as <-; apply trimmed_strip.
Qed.

Lemma occupation_info_within (text : string) :
  trimmed_within occupation_keys (_extract_occupation_info re_search text).
Proof.
  unfold _extract_occupation_info, trimmed_within. cbv zeta.
  assert (map_Forall (fun key v => key ∈ occupation_keys ∧ trimmed v)
    (fold_left (fun data '(field, patterns) =>
                  set_opt field (occupation_value field (_extract_field re_search text patterns)) data)
       Catalog.occupation ∅)) as Hdata.
  { apply forall_fold; [|apply map_Forall_empty].
    intros d [field patterns] Hin Hd. apply forall_set_opt; [|done].
    intros w Hw. split.
    - by apply (field_in _ _ patterns).
    - by apply occupation_value_trimmed in Hw. }
  unfold occupation_fallback.
  destruct (_ !! "occupation"); [done|].
  destruct (_ !! "sector") as [sector|] eqn:Es; [|done].
  apply map_Forall_insert_2; [|done]. split; [in_keys|].
  by destruct (Hdata "sector" sector Es).
Qed.

Lemma guardian_info_within (text : string) :
  trimmed_within guardian_keys (_extract_guardian_info re_search text).
Proof.
  unfold _extract_guardian_info, trimmed_within.
  apply forall_fold; [|apply map_Forall_empty].
  intros d [field patterns] Hin Hd. cbv zeta.
  destruct (usable _); [|done].
  apply forall_set_opt; [|done]. intros w Hw. split.
  - by apply (field_in _ _ patterns).
  - destruct (_extract_field _ _ _) as [v|]; [|done].
    injection Hw as <-. apply trimmed_sub_spaces, trimmed_strip.
Qed.

Lemma minor_contact_info_within (text : string) :
  trimmed_within minor_contact_keys (_extract_minor_contact_info re_search text).
Proof.
  unfold _extract_minor_contact_info, trimmed_within.
  apply forall_fold; [|apply map_Forall_empty].
  intros d [field patterns] Hin Hd. cbv zeta.
  destruct (usable _); [|done].
  apply forall_set_opt; [|done]. intros w Hw. split.
  - by apply (field_in _ _ patterns).
  - destruct (_extract_field _ _ _) as [v|]; [|done].
    injection Hw as <-. apply trimmed_no_space, sub_spaces_remove_no_space.
Qed.

Lemma temporary_address_info_within (text : string) :
  trimmed_within temporary_keys (_extract_temporary_address_info re_search text).
Proof.
  unfold _extract_temporary_address_info, trimmed_within.
  apply forall_fold; [|apply map_Forall_empty].
  intros d [field patterns] Hin Hd. cbv zeta.
  destruct (usable _); [|done].
  apply forall_set_opt; [|done]. intros w Hw. split.
  - by apply (field_key_in (String.append "temporary_") _ _ patterns).
  - destruct (_extract_field _ _ _) as [v|]; [|done].
    injection Hw as <-. apply temporary_clean_trimmed.
Qed.

Lemma financial_info_within (text : string) :
  trimmed_within financial_keys (_extract_financial_info re_search text).
Proof.
  unfold _extract_financial_info, trimmed_within.
  apply forall_fold; [|apply map_Forall_empty].
  intros d [field patterns] Hin Hd. cbv zeta.
  destruct (usable _); [|done].
  apply forall_set_opt; [|done]. intros w Hw. split.
  - by apply (field_in _ _ patterns).
  - destruct (_extract_field _ _ _) as [v|]; [|done].
    injection Hw as <-. apply trimmed_strip.
Qed.

Lemma money_laundering_info_within (text : string) :
  trimmed_within money_laundering_keys (_extract_money_laundering_info re_search text).
Proof.
  unfold _extract_money_laundering_info, trimmed_within.
  apply forall_fold; [|apply map_Forall_empty].
  intros d [field patterns] Hin Hd. cbv zeta.
  destruct (usable _); [|done].
  apply forall_set_opt; [|done]. intros w Hw. split.
  - by apply (field_in _ _ patterns).
  - destruct (_extract_field _ _ _) as [v|]; [|done].
    injection Hw as <-. apply trimmed_strip.
Qed.

Lemma family_info_within (text : string) :
  trimmed_within members (_extract_family_info re_search text).
Proof.
  unfold _extract_family_info, trimmed_within.
  apply forall_fold; [|apply map_Forall_empty].
  intros d member Hin Hd. apply forall_when_set; [|done].
  intros v d' _ Hd'. apply forall_set_opt; [|done]. intros w Hw.
  split; [done|]. by apply family_value_trimmed in Hw.
Qed.

Lemma family_step_within (text : string) (sent : list signal) (d : gmap string string) :
  family_step re_search text = (sent, Returned d) → trimmed_within members d.
Proof.
  unfold family_step. intros [= _ Hd]. apply validate_returns_store in Hd as ->.
  intros key v Hv%validate_store_subset. by apply (family_info_within text key).
Qed.

End TrimmedWithin.

Lemma record_keys_distinct : NoDup record_keys.
Proof. by apply (bool_decide_unpack _); vm_compute. Qed.

(** ** The record as the union of what the methods return *)

Section Union.

Lemma within_outside (keys : list string) (data : gmap string string) (key : string) :
  trimmed_within keys data → key ∉ keys → data !! key = None.
Proof.
  intros Hd Hk. destruct (data !! key) as [v|] eqn:E; [|done].
  by destruct (Hd key v E).
Qed.

Lemma union_lookup_some (parts : list (list string * gmap string string))
    (key v : string) :
  (⋃ parts.*2) !! key = Some v → ∃ part, part ∈ parts ∧ part.2 !! key = Some v.
Proof.
  induction parts as [|part parts IH]; simpl.
  - by rewrite lookup_empty.
  - intros [Hv|[_ Hv]]%lookup_union_Some_raw.
    + exists part. split; [apply list_elem_of_here|done].
    + destruct (IH Hv) as (p & Hp & Hpv). exists p. split; [|done].
      by apply list_elem_of_further.
Qed.

Lemma union_lookup_owner (parts : list (list string * gmap string string))
    (keys : list string) (data : gmap string string) (key : string) :
  Forall (fun part => trimmed_within part.1 part.2) parts →
  NoDup (mjoin parts.*1) →
  (keys, data) ∈ parts →
  key ∈ keys →
  (⋃ parts.*2) !! key = data !! key.
Proof.
  induction parts as [|part parts IH]; intros Hw Hnd Hin Hkey.
  - by apply elem_of_nil in Hin.
  - apply Forall_cons in Hw as [Hpart Hw]. simpl in Hnd.
    apply NoDup_app in Hnd as (_ & Hapart & Hnd). simpl.
    apply elem_of_cons in Hin as [<-|Hin].
    + simpl. destruct (data !! key) as [v|] eqn:E.
      * by apply lookup_union_Some_l.
      * apply lookup_union_None. split; [done|].
        destruct ((⋃ parts.*2) !! key) as [v|] eqn:E'; [|done].
        apply union_lookup_some in E' as (p & Hp & Hpv).
        apply Forall_forall with (x := p) in Hw; [|done].
        destruct (Hw key v Hpv) as [Hk _].
        destruct (Hapart key Hkey).
        apply list_elem_of_join. exists p.1. split; [done|].
        apply list_elem_of_fmap. by exists p.
    + rewrite lookup_union_r; [by apply IH|].
      apply (within_outside part.1); [done|].
      intros Hk. apply (Hapart key Hk).
      apply list_elem_of_join. exists keys. split; [done|].
      apply list_elem_of_fmap. by exists (keys, data).
Qed.

End Union.

Section Record.
Variable re_search : string → string → re_result.

Lemma parse_data_within (text : string) :
  trimmed_within record_keys (snd (parse_data re_search text)).
Proof.
  unfold parse_data, parse_data_with.
  destruct (negb (PyStr.truthy text)); [apply map_Forall_empty|].
  destruct (run_steps _ _ _) as [sent [d|e]] eqn:E; [|apply map_Forall_empty].
  change (trimmed_within record_keys d).
  revert E. apply run_steps_forall; [|apply map_Forall_empty].
  unfold sub_extractors.
  repeat (apply Forall_cons; split); [..|by apply Forall_nil].
  - intros s r [= _ <-].
    apply (within_weaken basic_keys); [by apply (bool_decide_unpack _); vm_compute|].
    apply basic_info_within.
  - intros s r [= _ <-].
    apply (within_weaken address_keys); [by apply (bool_decide_unpack _); vm_compute|].
    apply address_info_within.
  - intros s r [= _ <-].
    apply (within_weaken bank_keys); [by apply (bool_decide_unpack _); vm_compute|].
    apply bank_info_within.
  - intros s r [= _ <-].
    apply (within_weaken occupation_keys); [by apply (bool_decide_unpack _); vm_compute|].
    apply occupation_info_within.
  - intros s r [= _ <-].
    apply (within_weaken guardian_keys); [by apply (bool_decide_unpack _); vm_compute|].
    apply guardian_info_within.
  - intros s r [= _ <-].
    apply (within_weaken minor_contact_keys); [by apply (bool_decide_unpack _); vm_compute|].
    apply minor_contact_info_within.
  - intros s r [= _ <-].
    apply (within_weaken temporary_keys); [by apply (bool_decide_unpack _); vm_compute|].
    apply temporary_address_info_within.
  - intros s r [= _ <-].
    apply (within_weaken financial_keys); [by apply (bool_decide_unpack _); vm_compute|].
    apply financial_info_within.
  - intros s r Hr.
    apply (within_weaken members); [by apply (bool_decide_unpack _); vm_compute|].
    by apply (family_step_within _ _ _ _ Hr).
  - intros s r [= _ <-].
    apply (within_weaken money_laundering_keys);
      [by apply (bool_decide_unpack _); vm_compute|].
    apply money_laundering_info_within.
Qed.

(** The record of a run in which the family step returns. *)
Lemma parse_data_returned (text : string) (family : gmap string string) :
  text ≠ "" →
  family_outcome (_validate_family_names (_extract_family_info re_search text))
  = Returned family →
  snd (parse_data re_search text) = ⋃ ((record_parts re_search text family).*2).
Proof.
  intros Ht%truthy_true Hf.
  unfold parse_data, parse_data_with. rewrite Ht.
  unfold sub_extractors, quiet, family_step. cbn [negb run_steps].
  rewrite Hf. done.
Qed.

Lemma record_parts_within (text : string) (family : gmap string string) :
  family_outcome (_validate_family_names (_extract_family_info re_search text))
  = Returned family →
  Forall (fun part => trimmed_within part.1 part.2) (record_parts re_search text family).
Proof.
  intros Hf. unfold record_parts.
  repeat (apply Forall_cons; split); [..|by apply Forall_nil]; simpl.
  - apply money_laundering_info_within.
  - apply (family_step_within re_search text (family_signals
      (_validate_family_names (_extract_family_info re_search text)))).
    unfold family_step. by rewrite Hf.
  - apply financial_info_within.
  - apply temporary_address_info_within.
  - apply minor_contact_info_within.
  - apply guardian_info_within.
  - apply occupation_info_within.
  - apply bank_info_within.
  - apply address_info_within.
  - apply basic_info_within.
Qed.

Lemma record_parts_keys_distinct (text : string) (family : gmap string string) :
  NoDup (mjoin (record_parts re_search text family).*1).
Proof. by apply (bool_decide_unpack _); vm_compute. Qed.

(** Under a key of a method the record holds what the method stored. *)
Lemma parse_data_lookup_owner (text : string) (family : gmap string string)
    (keys : list string) (data : gmap string string) (key : string) :
  text ≠ "" →
  family_outcome (_validate_family_names (_extract_family_info re_search text))
  = Returned family →
  (keys, data) ∈ record_parts re_search text family →
  key ∈ keys →
  snd (parse_data re_search text) !! key = data !! key.
Proof.
  intros Ht Hf Hin Hkey. rewrite (parse_data_returned _ _ Ht Hf).
  apply (union_lookup_owner _ keys); [|apply record_parts_keys_distinct|done..].
  by apply record_parts_within.
Qed.

(** An entry of the record is an entry of what a method returned, the
    family's as the validation left it; an empty or a failed run has
    none. *)
Lemma parse_data_lookup_some (text key v : string) :
  snd (parse_data re_search text) !! key = Some v →
  text ≠ ""
  ∧ ∃ family part,
      family_outcome (_validate_family_names (_extract_family_info re_search text))
      = Returned family
      ∧ part ∈ record_parts re_search text family
      ∧ key ∈ part.1
      ∧ part.2 !! key = Some v
      ∧ snd (parse_data re_search text) !! key = part.2 !! key.
Proof.
  intros Hv.
  destruct (decide (text = "")) as [->|Ht].
  { unfold parse_data, parse_data_with in Hv. simpl in Hv.
    by rewrite lookup_empty in Hv. }
  split; [done|].
  destruct (family_outcome (_validate_family_names (_extract_family_info re_search text)))
    as [family|e] eqn:Hf.
  - exists family.
    pose proof Hv as Hv'. rewrite (parse_data_returned _ _ Ht Hf) in Hv'.
    apply union_lookup_some in Hv' as (part & Hin & Hpv).
    pose proof (record_parts_within _ _ Hf) as Hw.
    apply Forall_forall with (x := part) in Hw; [|done].
    destruct (Hw key v Hpv) as [Hk _].
    exists part. split_and!; try done. by rewrite Hv, Hpv.
  - exfalso. revert Hv.
    unfold parse_data, parse_data_with.
    apply truthy_true in Ht. rewrite Ht.
    unfold sub_extractors, quiet, family_step. cbn [negb run_steps].
    rewrite Hf. cbn [snd]. by rewrite lookup_empty.
Qed.

End Record.

(** ** Parts of a string *)

Section Parts.
Import PyStr.

Lemma startswith_app (w a b : string) :
  startswith w a = true → startswith w (a +:+ b) = true.
Proof.
  revert a. induction w as [|c w IH]; intros a; [by rewrite !startswith_nil|].
  destruct a as [|x a]; [done|].
  rewrite append_cons, !startswith_cons.
  intros [Hc Hw]%andb_true_iff. by rewrite Hc, (IH _ Hw).
Qed.

Lemma contains_app_l (w a b : string) :
  contains w a = true → contains w (a +:+ b) = true.
Proof.
  induction a as [|x a IH].
  - rewrite contains_nil, append_nil. intros H.
    destruct w; [|done]. destruct b; done.
  - rewrite append_cons, !contains_cons.
    intros [H|H]%orb_true_iff.
    + apply (startswith_app _ _ b) in H. rewrite append_cons in H. by rewrite H.
    + rewrite (IH H). apply orb_true_r.
Qed.

Lemma contains_app_r (w a b : string) :
  contains w b = true → contains w (a +:+ b) = true.
Proof.
  intros H. induction a as [|x a IH]; [by rewrite append_nil|].
  rewrite append_cons, contains_cons, IH. apply orb_true_r.
Qed.

Lemma lstrip_by_suffix (q : ascii → bool) (s : string) :
  ∃ pre, s = pre +:+ lstrip_by q s.
Proof.
  induction s as [|c s [pre IH]]; [by exists ""|]. simpl.
  destruct (q c); [|by exists ""].
  exists (String c pre). by rewrite append_cons, <- IH.
Qed.

Lemma rstrip_by_prefix (q : ascii → bool) (s : string) :
  ∃ post, s = rstrip_by q s +:+ post.
Proof.
  induction s as [|c s [post IH]]; [by exists ""|]. simpl.
  destruct (q c && _).
  - by exists (String c s).
  - exists post. by rewrite append_cons, <- IH.
Qed.

Lemma split_head_nil (sep : string) : split_head sep "" = "".
Proof. by destruct sep. Qed.

Lemma split_head_cons (sep : string) (c : ascii) (s : string) :
  split_head sep (String c s)
  = if startswith sep (String c s) then "" else String c (split_head sep s).
Proof. done. Qed.

Lemma split_head_prefix (sep s : string) : ∃ post, s = split_head sep s +:+ post.
Proof.
  induction s as [|c s [post IH]].
  - exists "". by rewrite split_head_nil.
  - rewrite split_head_cons.
    destruct (startswith sep (String c s)); [by exists (String c s)|].
    exists post. by rewrite append_cons, <- IH.
Qed.

Lemma contains_lstrip_by (w : string) (q : ascii → bool) (s : string) :
  contains w s = false → contains w (lstrip_by q s) = false.
Proof.
  intros H. destruct (contains w (lstrip_by q s)) eqn:E; [|done].
  destruct (lstrip_by_suffix q s) as [pre Hs].
  apply (contains_app_r _ pre) in E. congruence.
Qed.

Lemma contains_rstrip_by (w : string) (q : ascii → bool) (s : string) :
  contains w s = false → contains w (rstrip_by q s) = false.
Proof.
  intros H. destruct (contains w (rstrip_by q s)) eqn:E; [|done].
  destruct (rstrip_by_prefix q s) as [post Hs].
  apply (contains_app_l _ _ post) in E. congruence.
Qed.

Lemma lstrip_is_lstrip_by (s : string) : lstrip s = lstrip_by isspace s.
Proof. induction s as [|c s IH]; [done|]. simpl. by rewrite IH. Qed.

Lemma rstrip_is_rstrip_by (s : string) : rstrip s = rstrip_by isspace s.
Proof. induction s as [|c s IH]; [done|]. simpl. by rewrite IH. Qed.

Lemma contains_strip (w s : string) :
  contains w s = false → contains w (strip s) = false.
Proof.
  intros H. unfold strip. rewrite rstrip_is_rstrip_by, lstrip_is_lstrip_by.
  by apply contains_rstrip_by, contains_lstrip_by.
Qed.

Lemma contains_split_head_other (w sep s : string) :
  contains w s = false → contains w (split_head sep s) = false.
Proof.
  intros H. destruct (contains w (split_head sep s)) eqn:E; [|done].
  destruct (split_head_prefix sep s) as [post Hs].
  apply (contains_app_l _ _ post) in E. congruence.
Qed.

(** The part before the first occurrence of a word does not hold the
    word. *)
Lemma contains_split_head (w s : string) :
  startswith w "" = false → contains w (split_head w s) = false.
Proof.
  intros Hw. induction s as [|c s IH].
  - by rewrite split_head_nil, contains_nil.
  - rewrite split_head_cons.
    destruct (startswith w (String c s)) eqn:E; [by rewrite contains_nil|].
    rewrite contains_cons, IH, orb_false_r.
    destruct (startswith w (String c (split_head w s))) eqn:E'; [|done].
    destruct (split_head_prefix w s) as [post Hs].
    apply (startswith_app _ _ post) in E'.
    rewrite append_cons, <- Hs in E'. congruence.
Qed.

End Parts.

(** ** The value cut at the labels that follow *)

Section Cuts.
Import PyStr.

Lemma cut_at_word (word clean_value : string) :
  startswith word "" = false → contains word (cut_at word clean_value) = false.
Proof.
  intros Hw. unfold cut_at. destruct (contains word clean_value) eqn:E; [|done].
  by apply contains_strip, contains_split_head.
Qed.

Lemma cut_at_other (w word clean_value : string) :
  contains w clean_value = false → contains w (cut_at word clean_value) = false.
Proof.
  intros H. unfold cut_at. destruct (contains word clean_value); [|done].
  by apply contains_strip, contains_split_head_other.
Qed.

Lemma permanent_clean_cut (field word value : string) :
  (field, word) ∈ permanent_cuts →
  contains word (permanent_clean field value) = false.
Proof.
  intros Hin. unfold permanent_clean.
  apply contains_lstrip_by, contains_rstrip_by.
  unfold permanent_cuts in Hin.
  repeat (apply elem_of_cons in Hin as [[= -> ->]|Hin]);
    [..|by apply elem_of_nil in Hin]; simpl;
    first [by apply cut_at_word | by apply cut_at_other, cut_at_word].
Qed.

End Cuts.

(** ** What the record holds under the keys of a method *)

Section RecordEntries.
Import PyStr.
Variable re_search : string → string → re_result.

Lemma parse_data_lookup_fixed (text : string) (keys : list string)
    (data : gmap string string) (key v : string) :
  (∀ family, (keys, data) ∈ record_parts re_search text family) →
  key ∈ keys →
  snd (parse_data re_search text) !! key = Some v → data !! key = Some v.
Proof.
  intros Hin Hkey Hv.
  pose proof Hv as (Ht & family & part & Hf & _)%parse_data_lookup_some.
  by rewrite (parse_data_lookup_owner _ text family keys data key Ht Hf (Hin family) Hkey)
    in Hv.
Qed.

Lemma parse_data_lookup_family (text key v : string) :
  key ∈ members →
  snd (parse_data re_search text) !! key = Some v →
  _extract_family_info re_search text !! key = Some v.
Proof.
  intros Hkey Hv.
  pose proof Hv as (Ht & family & part & Hf & _)%parse_data_lookup_some.
  rewrite (parse_data_lookup_owner _ text family members family key Ht Hf) in Hv;
    [|part_in|done].
  apply validate_returns_store in Hf as ->. by apply validate_store_subset.
Qed.

Lemma parse_data_lookup_basic (text key v : string) :
  key ∈ basic_keys →
  snd (parse_data re_search text) !! key = Some v →
  _extract_basic_info re_search text !! key = Some v.
Proof.
  intros Hkey. apply (parse_data_lookup_fixed text basic_keys); [|done].
  intros. part_in.
Qed.

(** The formats of what [_extract_basic_info] stores. *)
Lemma basic_info_formats (text : string) :
  map_Forall (fun key v =>
      (key = "name" → upper v = v)
      ∧ (key = "citizenship_no" →
           sall (fun c => isdigit c || Ascii.eqb c "-" || Ascii.eqb c "/") v = true
           ∧ 3 ≤ String.length v
           ∧ matches_date v = false
           ∧ startswith "19" v = false
           ∧ startswith "20" v = false)
      ∧ (key = "beneficiary_id" → v ≠ "" ∧ sall isdigit v = true)
      ∧ (key = "pan_no" →
           9 ≤ String.length v
           ∧ isalnum (remove_char "-" v) = true
           ∧ endswith "ies" (lower v) = false))
    (_extract_basic_info re_search text).
Proof.
  unfold _extract_basic_info. cbv zeta.
  repeat (apply forall_when_set;
          [intros v d Hv Hd;
           first [apply forall_set_opt; [intros w Hw|done]
                 |apply map_Forall_insert_2; [|done]];
           (split_and!; try done; intros _)|]);
    [..|apply map_Forall_empty].
  - apply extract_field_stripped in Hv. unfold pan_value in Hw. rewrite Hv in Hw.
    destruct (truthy v && _ && negb (endswith "ies" (lower v))) eqn:E; [|done].
    destruct (_ && _) eqn:E' in Hw; [|done]. simpl in Hw. injection Hw as <-.
    apply andb_true_iff in E as [_ E%negb_true_iff].
    apply andb_true_iff in E' as [Hl%Nat.leb_le Ha]. done.
  - unfold beneficiary_value in Hw. destruct (_ && _) eqn:E; [|done].
    injection Hw as <-. apply andb_true_iff in E as [E%truthy_true _].
    split; [done|apply sfilter_sall].
  - apply citizenship_value_spec in Hw as (-> & Hw). split; [|done].
    apply sfilter_sall.
  - apply upper_idemp.
Qed.

(** The names that [_extract_family_info] stores. *)
Lemma family_info_formats (text : string) :
  map_Forall (fun member v =>
      upper v = v
      ∧ v ≠ upper (label_of member)
      ∧ (v ∉ ["DAUGHTER"; "SON"; "MOTHER"; "FATHER"; "MONEY LAUNDERING"]))
    (_extract_family_info re_search text).
Proof.
  unfold _extract_family_info.
  apply forall_fold; [|apply map_Forall_empty].
  intros d member Hin Hd. apply forall_when_set; [|done].
  intros v d' _ Hd'. apply forall_set_opt; [|done]. intros w Hw.
  unfold family_value in Hw.
  destruct (_ || _) eqn:E; [done|]. destruct (_ && _); [|done].
  injection Hw as <-. apply orb_false_iff in E as [E1 E2].
  apply bool_decide_eq_false in E1, E2.
  split_and!; [apply upper_idemp|done..].
Qed.

(** The values that [_extract_address_info] stores for the permanent
    address. *)
Lemma address_info_cuts (text : string) :
  map_Forall (fun key v =>
      ∀ field word, key = "permanent_" +:+ field → (field, word) ∈ permanent_cuts →
                    contains word v = false)
    (_extract_address_info re_search text).
Proof.
  unfold _extract_address_info. cbv zeta.
  apply forall_fold; [|apply forall_fold; [|apply map_Forall_empty]].
  - intros d [field patterns] Hin Hd. apply forall_set_opt; [|done].
    intros w Hw f word Hkey%(String.app_inj "permanent_") Hcut. subst f.
    unfold permanent_value in Hw. destruct (usable _); [|done].
    destruct (section_or_text _ _ _ _) as [v|]; [|done]. simpl in Hw.
    unfold permanent_store in Hw. destruct (_ && _); [|done].
    injection Hw as <-. by apply permanent_clean_cut.
  - intros d [field patterns] Hin Hd. apply forall_set_opt; [|done].
    intros w Hw f word Hkey. symmetry in Hkey.
    by apply permanent_key_not_current in Hkey.
Qed.

End RecordEntries.

(** X1. Every value of the record that [parse_data] returns is worth
    storing: it is neither the empty string nor the dash that stands for
    a blank field, whatever the text and the regular-expression engine.
    The one exception is the value of [temporary_country]. *)
Theorem parsed_values_worth_storing
    (re_search : string → string → re_result) (text key v : string) :
  snd (parse_data re_search text) !! key = Some v →
  key ≠ "temporary_country" →
  v ≠ "" ∧ v ≠ "-".
Proof.
  intros Hv Hkey. apply (parse_data_kept re_search text key v Hv). congruence.
Qed.

Lemma parsed_values_worth_storing_witness : "RAM KUMAR" ≠ "" ∧ "RAM KUMAR" ≠ "-".
Proof.
  apply (parsed_values_worth_storing Py.re_search "Name: Ram Kumar" "name").
  - vm_compute. reflexivity.
  - discriminate.
Defined.

(** X2. Every key of the record that [parse_data] returns is one of the
    keys that its methods assign, and every value is trimmed: [strip]
    leaves it as it is, so it neither begins nor ends with whitespace. *)
Theorem parsed_entries_known_and_trimmed
    (re_search : string → string → re_result) (text key v : string) :
  snd (parse_data re_search text) !! key = Some v →
  key ∈ record_keys ∧ PyStr.strip v = v.
Proof. apply parse_data_within. Qed.

Lemma parsed_entries_known_and_trimmed_witness :
  "gender" ∈ record_keys ∧ PyStr.strip "Female" = "Female".
Proof.
  apply (parsed_entries_known_and_trimmed Py.re_search "Gender: F" "gender").
  vm_compute. reflexivity.
Defined.

(** X3. When the text is not empty and the family step returns, the
    record is the union of what the ten methods returned, the family's as
    the validation left it: an entry is in the record exactly when one of
    them holds it. The methods assign pairwise distinct keys, so that
    [update] never overwrites an entry of an earlier method. *)
Theorem record_is_union_of_methods
    (re_search : string → string → re_result) (text : string)
    (family : gmap string string) :
  text ≠ "" →
  family_outcome (_validate_family_names (_extract_family_info re_search text))
  = Returned family →
  NoDup record_keys
  ∧ ∀ key v,
      snd (parse_data re_search text) !! key = Some v ↔
      _extract_basic_info re_search text !! key = Some v
      ∨ _extract_address_info re_search text !! key = Some v
      ∨ _extract_bank_info re_search text !! key = Some v
      ∨ _extract_occupation_info re_search text !! key = Some v
      ∨ _extract_guardian_info re_search text !! key = Some v
      ∨ _extract_minor_contact_info re_search text !! key = Some v
      ∨ _extract_temporary_address_info re_search text !! key = Some v
      ∨ _extract_financial_info re_search text !! key = Some v
      ∨ family !! key = Some v
      ∨ _extract_money_laundering_info re_search text !! key = Some v.
Proof.
  intros Ht Hf. split; [apply record_keys_distinct|]. intros key v. split.
  - intros (_ & family' & part & Hf' & Hin & _ & Hpv & _)%parse_data_lookup_some.
    rewrite Hf in Hf'. injection Hf' as <-.
    unfold record_parts in Hin.
    repeat (apply elem_of_cons in Hin as [->|Hin]); [..|by apply elem_of_nil in Hin];
      simpl in Hpv; tauto.
  - pose proof (record_parts_within re_search text family Hf) as Hw.
    intros H.
    assert (∃ part, part ∈ record_parts re_search text family ∧ part.2 !! key = Some v)
      as ([keys data] & Hin & Hpv).
    { destruct H as [H|[H|[H|[H|[H|[H|[H|[H|[H|H]]]]]]]]];
        (eexists (_, _); split; [|exact H]); part_in. }
    apply Forall_forall with (x := (keys, data)) in Hw; [|done].
    destruct (Hw key v Hpv) as [Hk _].
    by rewrite (parse_data_lookup_owner _ text family keys data key Ht Hf Hin Hk).
Qed.

Lemma record_is_union_of_methods_witness :
  NoDup record_keys
  ∧ ∀ key v,
      snd (Py.parse "Name: Ram Kumar") !! key = Some v ↔
      _extract_basic_info Py.re_search "Name: Ram Kumar" !! key = Some v
      ∨ _extract_address_info Py.re_search "Name: Ram Kumar" !! key = Some v
      ∨ _extract_bank_info Py.re_search "Name: Ram Kumar" !! key = Some v
      ∨ _extract_occupation_info Py.re_search "Name: Ram Kumar" !! key = Some v
      ∨ _extract_guardian_info Py.re_search "Name: Ram Kumar" !! key = Some v
      ∨ _extract_minor_contact_info Py.re_search "Name: Ram Kumar" !! key = Some v
      ∨ _extract_temporary_address_info Py.re_search "Name: Ram Kumar" !! key = Some v
      ∨ _extract_financial_info Py.re_search "Name: Ram Kumar" !! key = Some v
      ∨ (∅ : gmap string string) !! key = Some v
      ∨ _extract_money_laundering_info Py.re_search "Name: Ram Kumar" !! key = Some v.
Proof.
  apply (record_is_union_of_methods Py.re_search "Name: Ram Kumar" ∅).
  - discriminate.
  - vm_compute. reflexivity.
Defined.

(** X4. What [_validate_family_names] does to a family record, in full.
    It changes no entry but the spouse's; it removes the spouse's name
    exactly when that name is the father's or the mother's; and it raises
    [KeyError] exactly when the spouse's name is the father's and a mother
    is on record, returning the record as it left it in every other
    case. *)
Theorem spouse_check_characterised (family_data : gmap string string) :
  let checked := _validate_family_names family_data in
  (∀ key, key ≠ "spouse_name" → family_store checked !! key = family_data !! key)
  ∧ family_store checked !! "spouse_name"
    = match family_data !! "spouse_name" with
      | Some spouse =>
          if bool_decide (family_data !! "father_name" = Some spouse
                          ∨ family_data !! "mother_name" = Some spouse)
          then None else Some spouse
      | None => None
      end
  ∧ family_outcome checked
    = match family_data !! "spouse_name" with
      | Some spouse =>
          if bool_decide (family_data !! "father_name" = Some spouse
                          ∧ is_Some (family_data !! "mother_name"))
          then Raised (KeyError "spouse_name")
          else Returned (family_store checked)
      | None => Returned (family_store checked)
      end.
Proof.
  cbv zeta. split; [intros key Hkey; by apply validate_keeps_others|].
  unfold _validate_family_names.
  destruct (family_data !! "spouse_name") as [spouse|] eqn:Es;
    [|cbn [family_store family_outcome]; by rewrite Es].
  destruct (family_data !! "father_name") as [father|] eqn:Ef;
    destruct (family_data !! "mother_name") as [mother|] eqn:Em.
  - destruct (decide (spouse = father)) as [->|Hsf].
    + rewrite !bool_decide_eq_true_2 by (try split; try (by left); done).
      rewrite lookup_delete_ne, Em, lookup_delete_eq by done.
      cbn [family_store family_outcome]. by rewrite lookup_delete_eq.
    + rewrite (bool_decide_eq_false_2 (spouse = father)) by done.
      rewrite Em, Es.
      rewrite (bool_decide_eq_false_2 (Some father = Some spouse ∧ _))
        by (intros [[= ?] _]; done).
      destruct (decide (spouse = mother)) as [->|Hsm].
      * rewrite !bool_decide_eq_true_2 by (try (by right); done).
        cbn [family_store family_outcome]. by rewrite lookup_delete_eq.
      * rewrite (bool_decide_eq_false_2 (spouse = mother)) by done.
        rewrite (bool_decide_eq_false_2 (_ ∨ _)) by (intros [[= ?]|[= ?]]; done).
        cbn [family_store family_outcome]. by rewrite Es.
  - rewrite (bool_decide_eq_false_2 (Some father = Some spouse ∧ _))
      by (intros [_ [? ?]]; done).
    destruct (decide (spouse = father)) as [->|Hsf].
    + rewrite !bool_decide_eq_true_2 by (try (by left); done).
      rewrite lookup_delete_ne, Em by done.
      cbn [family_store family_outcome]. by rewrite lookup_delete_eq.
    + rewrite (bool_decide_eq_false_2 (spouse = father)) by done.
      rewrite (bool_decide_eq_false_2 (_ ∨ _)) by (intros [[= ?]|[= ?]]; done).
      rewrite Em. cbn [family_store family_outcome]. by rewrite Es.
  - rewrite (bool_decide_eq_false_2 (None = Some spouse ∧ _)) by (intros [[= ?] _]).
    cbv beta iota. rewrite ?Em, ?Es.
    destruct (decide (spouse = mother)) as [->|Hsm].
    + rewrite !bool_decide_eq_true_2 by (try (by right); done).
      cbn [family_store family_outcome]. by rewrite lookup_delete_eq.
    + rewrite (bool_decide_eq_false_2 (spouse = mother)) by done.
      rewrite (bool_decide_eq_false_2 (_ ∨ _)) by (intros [[= ?]|[= ?]]; done).
      cbn [family_store family_outcome]. by rewrite Es.
  - cbv beta iota. rewrite ?Em.
    rewrite (bool_decide_eq_false_2 (None = Some spouse ∧ _)) by (intros [[= ?] _]).
    rewrite (bool_decide_eq_false_2 (_ ∨ _)) by (intros [[= ?]|[= ?]]).
    cbn [family_store family_outcome]. by rewrite Es.
Qed.

(** X5. The formats of the identity entries of the record, whatever the
    text and the engine: the name is in upper case; the citizenship number
    holds digits, hyphens and slashes only, at least three of them, is no
    date and begins with neither 19 nor 20; the beneficiary id is a
    non-empty run of digits; the PAN has at least nine characters, is
    alphanumeric once its hyphens are removed, and does not end in
    "ies". *)
Theorem identity_entries_formats
    (re_search : string → string → re_result) (text : string) :
  let record := snd (parse_data re_search text) in
  (∀ v, record !! "name" = Some v → PyStr.upper v = v)
  ∧ (∀ v, record !! "citizenship_no" = Some v →
       PyStr.sall (fun c => PyStr.isdigit c || Ascii.eqb c "-" || Ascii.eqb c "/") v = true
       ∧ 3 ≤ String.length v
       ∧ PyStr.matches_date v = false
       ∧ PyStr.startswith "19" v = false
       ∧ PyStr.startswith "20" v = false)
  ∧ (∀ v, record !! "beneficiary_id" = Some v → v ≠ "" ∧ PyStr.sall PyStr.isdigit v = true)
  ∧ (∀ v, record !! "pan_no" = Some v →
       9 ≤ String.length v
       ∧ PyStr.isalnum (PyStr.remove_char "-" v) = true
       ∧ PyStr.endswith "ies" (PyStr.lower v) = false).
Proof.
  cbv zeta.
  split_and!; intros v Hv;
    (apply parse_data_lookup_basic in Hv; [|by apply (bool_decide_unpack _); vm_compute]);
    destruct (basic_info_formats re_search text _ _ Hv) as (H1 & H2 & H3 & H4).
  - by apply H1.
  - by apply H2.
  - by apply H3.
  - by apply H4.
Qed.

(** X6. A family member's name in the record is in upper case, is not the
    member's own label (FATHER for [father_name], DAUGHTER IN LAW for
    [daughter_in_law_name], ...) and is none of the words DAUGHTER, SON,
    MOTHER, FATHER and MONEY LAUNDERING. *)
Theorem family_names_upper_case_not_labels
    (re_search : string → string → re_result) (text member v : string) :
  snd (parse_data re_search text) !! member = Some v →
  member ∈ members →
  PyStr.upper v = v
  ∧ v ≠ PyStr.upper (label_of member)
  ∧ (v ∉ ["DAUGHTER"; "SON"; "MOTHER"; "FATHER"; "MONEY LAUNDERING"]).
Proof.
  intros Hv Hm. apply parse_data_lookup_family in Hv; [|done].
  apply (family_info_formats re_search text _ _ Hv).
Qed.

Lemma family_names_upper_case_not_labels_witness :
  PyStr.upper "RAM BAHADUR" = "RAM BAHADUR"
  ∧ "RAM BAHADUR" ≠ PyStr.upper (label_of "father_name")
  ∧ ("RAM BAHADUR" ∉ ["DAUGHTER"; "SON"; "MOTHER"; "FATHER"; "MONEY LAUNDERING"]).
Proof.
  apply (family_names_upper_case_not_labels Py.re_search "Father's Name: RAM BAHADUR").
  - vm_compute. reflexivity.
  - by apply (bool_decide_unpack _); vm_compute.
Defined.

(** X7. A value of the permanent address in the record does not hold the
    labels that follow its field on the form: the country holds neither
    "Province" nor "District", the province neither "District" nor
    "Municipality", the district neither "Municipality" nor "Ward", the
    municipality neither "Ward" nor "Tole". *)
Theorem permanent_value_cut_at_next_labels
    (re_search : string → string → re_result) (text field word v : string) :
  snd (parse_data re_search text) !! ("permanent_" +:+ field) = Some v →
  (field, word) ∈ permanent_cuts →
  PyStr.contains word v = false.
Proof.
  intros Hv Hcut.
  apply (parse_data_lookup_fixed re_search text address_keys
           (_extract_address_info re_search text)) in Hv.
  - by apply (address_info_cuts re_search text _ _ Hv field word).
  - intros. part_in.
  - unfold permanent_cuts in Hcut.
    repeat (apply elem_of_cons in Hcut as [[= -> ->]|Hcut]);
      [..|by apply elem_of_nil in Hcut]; by apply (bool_decide_unpack _); vm_compute.
Qed.

Lemma permanent_value_cut_at_next_labels_witness :
  PyStr.contains "Province" "Nepal" = false.
Proof.
  apply (permanent_value_cut_at_next_labels Py.re_search
           "Permanent Address Country: Nepal Province: Bagmati" "country").
  - vm_compute. reflexivity.
  - by apply (bool_decide_unpack _); vm_compute.
Defined.

(** ** The categories stored as they are extracted *)

Section Verbatim.
Import PyStr.
Variable re_search : string → string → re_result.

Lemma fold_left_agree {A B : Type} (f g : A → B → A) (l : list B) (a : A) :
  (∀ a x, f a x = g a x) → fold_left f l a = fold_left g l a.
Proof.
  intros Hfg. revert a. induction l as [|x l IH]; intros a; [done|].
  simpl. by rewrite Hfg, IH.
Qed.

Lemma lookup_loop_keys (key_of : string → string)
    (value_of : string → list string → option string)
    (category : list (string * list string))
    (data : gmap string string) (field : string) (patterns : list string) :
  NoDup (key_of <$> category.*1) →
  (field, patterns) ∈ category →
  fold_left (loop_step key_of value_of) category data !! key_of field
  = match value_of field patterns with
    | Some v => Some v
    | None => data !! key_of field
    end.
Proof.
  revert data. induction category as [|[f ps] category IH]; intros data Hnd Hin.
  { by apply elem_of_nil in Hin. }
  simpl in Hnd. apply NoDup_cons in Hnd as [Hf Hnd]. simpl.
  apply elem_of_cons in Hin as [[= <- <-]|Hin].
  - rewrite lookup_loop_other; [apply lookup_set_opt_eq|].
    intros g qs Hg Heq. apply Hf. rewrite <- Heq.
    by apply (field_key_in key_of _ _ qs).
  - rewrite IH by done.
    rewrite lookup_set_opt_ne; [done|].
    intros Heq. apply Hf. rewrite Heq.
    by apply (field_key_in key_of _ _ patterns).
Qed.

(** The test and the trimming that follow an extraction change
    nothing. *)
Lemma usable_extracted (text : string) (patterns : list string)
    (key : string) (data : gmap string string) :
  (let value := _extract_field re_search text patterns in
   if usable value then set_opt key (strip <$> value) data else data)
  = set_opt key (_extract_field re_search text patterns) data.
Proof.
  cbv zeta. destruct (_extract_field re_search text patterns) as [v|] eqn:E; [|done].
  by rewrite (extract_field_usable _ _ _ _ E), <- E, E; simpl;
    rewrite (extract_field_stripped _ _ _ _ E).
Qed.

Lemma bank_info_loop (text : string) :
  _extract_bank_info re_search text
  = fold_left (loop_step bank_key (fun _ patterns => _extract_field re_search text patterns))
      Catalog.bank_details ∅.
Proof.
  unfold _extract_bank_info. apply fold_left_agree.
  intros data [field patterns]. unfold loop_step, bank_key.
  rewrite <- usable_extracted. cbv zeta.
  destruct (usable _); [|done]. by case_bool_decide.
Qed.

Lemma financial_info_loop (text : string) :
  _extract_financial_info re_search text
  = fold_left (loop_step (fun field => field)
                 (fun _ patterns => _extract_field re_search text patterns))
      Catalog.financial_details ∅.
Proof.
  unfold _extract_financial_info. apply fold_left_agree.
  intros data [field patterns]. unfold loop_step. apply usable_extracted.
Qed.

Lemma money_laundering_info_loop (text : string) :
  _extract_money_laundering_info re_search text
  = fold_left (loop_step (fun field => field)
                 (fun _ patterns => _extract_field re_search text patterns))
      Catalog.money_laundering ∅.
Proof.
  unfold _extract_money_laundering_info. apply fold_left_agree.
  intros data [field patterns]. unfold loop_step. apply usable_extracted.
Qed.

Lemma temporary_address_info_loop (text : string) :
  _extract_temporary_address_info re_search text
  = fold_left (loop_step (String.append "temporary_")
                 (fun field patterns =>
                    temporary_clean field <$> _extract_field re_search text patterns))
      Catalog.temporary_address ∅.
Proof.
  unfold _extract_temporary_address_info. apply fold_left_agree.
  intros data [field patterns]. unfold loop_step. cbv zeta.
  destruct (_extract_field re_search text patterns) as [v|] eqn:E; [|done].
  by rewrite (extract_field_usable _ _ _ _ E).
Qed.

End Verbatim.

(** X8. The bank details, the financial details and the answers on money
    laundering are stored exactly as [_extract_field] returns them: an
    entry is there when a rule of the field yields a value, and it is that
    value, unchanged. The same holds for the temporary address but for
    its country, which is cut at the word "Province". *)
Theorem plain_categories_store_what_is_extracted
    (re_search : string → string → re_result) (text : string) :
  (∀ field patterns,
      (field, patterns) ∈ Catalog.bank_details →
      _extract_bank_info re_search text !! bank_key field
      = _extract_field re_search text patterns)
  ∧ (∀ field patterns,
      (field, patterns) ∈ Catalog.financial_details →
      _extract_financial_info re_search text !! field
      = _extract_field re_search text patterns)
  ∧ (∀ field patterns,
      (field, patterns) ∈ Catalog.money_laundering →
      _extract_money_laundering_info re_search text !! field
      = _extract_field re_search text patterns)
  ∧ (∀ field patterns,
      (field, patterns) ∈ Catalog.temporary_address →
      _extract_temporary_address_info re_search text !! ("temporary_" +:+ field)
      = if bool_decide (field = "country")
        then temporary_clean "country" <$> _extract_field re_search text patterns
        else _extract_field re_search text patterns).
Proof.
  split_and!; intros field patterns Hin.
  - rewrite bank_info_loop.
    rewrite (lookup_loop_keys bank_key _ _ _ field patterns);
      [|by apply (bool_decide_unpack _); vm_compute|done].
    by destruct (_extract_field re_search text patterns).
  - rewrite financial_info_loop.
    rewrite (lookup_loop_keys (fun field => field) _ _ _ field patterns);
      [|by apply (bool_decide_unpack _); vm_compute|done].
    by destruct (_extract_field re_search text patterns).
  - rewrite money_laundering_info_loop.
    rewrite (lookup_loop_keys (fun field => field) _ _ _ field patterns);
      [|by apply (bool_decide_unpack _); vm_compute|done].
    by destruct (_extract_field re_search text patterns).
  - rewrite temporary_address_info_loop.
    rewrite (lookup_loop_keys (String.append "temporary_") _ _ _ field patterns);
      [|by apply (bool_decide_unpack _); vm_compute|done].
    destruct (_extract_field re_search text patterns) as [v|] eqn:E; simpl.
    + case_bool_decide as Hf; [by subst field|].
      unfold temporary_clean. rewrite bool_decide_eq_false_2 by done. simpl.
      by rewrite (extract_field_stripped _ _ _ _ E).
    + by case_bool_decide.
Qed.

(** ** The segmenter on any text *)

Section SegmenterLines.
Import PyStr.





Lemma through_stop_cons (keywords : list string) (line : string) (rest : list string) :
  through_stop keywords (line :: rest)
  = if any_keyword keywords (strip (lower line)) then [line]
    else line :: through_stop keywords rest.
Proof. done. Qed.

(** With no section open, lines that open none change nothing. *)
Lemma scan_idle (lines : list string) (s : sections) :
  in_current s = false → in_permanent s = false →
  Forall (fun line => is_current_marker line = false ∧ is_permanent_marker line = false)
    lines →
  fold_left scan_line lines s = s.
Proof.
  intros Hc Hp Hlines. induction Hlines as [|line lines [H1 H2] _ IH]; [done|].
  simpl. replace (scan_line s line) with s; [done|].
  unfold scan_line. by rewrite H1, H2, Hc, Hp.
Qed.

(** With the current section open, lines that open no section are kept
    up to the first that holds a stop keyword. *)
Lemma scan_current_body (body : list string) (s : sections) :
  in_current s = true → in_permanent s = false →
  Forall (fun line => is_current_marker line = false ∧ is_permanent_marker line = false)
    body →
  current_section (fold_left scan_line body s)
  = current_section s ++ through_stop current_stop body
  ∧ permanent_section (fold_left scan_line body s) = permanent_section s.
Proof.
  intros Hc Hp Hbody. revert s Hc Hp.
  induction Hbody as [|line body [H1 H2] Hbody IH]; intros s Hc Hp.
  { simpl. by rewrite app_nil_r. }
  cbn [fold_left].
  assert (scan_line s line
          = Sections (if any_keyword current_stop (strip (lower line)) then false else true)
              false (current_section s ++ [line]) (permanent_section s)) as ->.
  { unfold scan_line. by rewrite H1, H2, Hc, Hp. }
  rewrite through_stop_cons.
  destruct (any_keyword current_stop (strip (lower line))).
  - by rewrite scan_idle.
  - destruct (IH (Sections true false (current_section s ++ [line]) (permanent_section s)))
      as [-> ->]; [done..|].
    simpl. by rewrite <- app_assoc.
Qed.

Lemma scan_permanent_body (body : list string) (s : sections) :
  in_current s = false → in_permanent s = true →
  Forall (fun line => is_current_marker line = false ∧ is_permanent_marker line = false)
    body →
  current_section (fold_left scan_line body s) = current_section s
  ∧ permanent_section (fold_left scan_line body s)
    = permanent_section s ++ through_stop permanent_stop body.
Proof.
  intros Hc Hp Hbody. revert s Hc Hp.
  induction Hbody as [|line body [H1 H2] Hbody IH]; intros s Hc Hp.
  { simpl. by rewrite app_nil_r. }
  cbn [fold_left].
  assert (scan_line s line
          = Sections false
              (if any_keyword permanent_stop (strip (lower line)) then false else true)
              (current_section s) (permanent_section s ++ [line])) as ->.
  { unfold scan_line. by rewrite H1, H2, Hc, Hp. }
  rewrite through_stop_cons.
  destruct (any_keyword permanent_stop (strip (lower line))).
  - by rewrite scan_idle.
  - destruct (IH (Sections false true (current_section s) (permanent_section s ++ [line])))
      as [-> ->]; [done..|].
    simpl. by rewrite <- app_assoc.
Qed.

End SegmenterLines.


(** X10. Where a section ends. In a text with one line that opens the
    current section and no other line that opens a section, the current
    section is that line and the lines after it up to and including the
    first that holds one of the words permanent, temporary, family, bank
    and occupation, in any case; the lines before and the lines after are
    left out, and the permanent section is empty. The same holds for a
    text with one line that opens the permanent section, with the words
    temporary, family, bank and occupation. *)
Theorem section_ends_at_stop_keyword (before : list string) (head : string)
    (body : list string) :
  Forall (fun line => is_current_marker line = false ∧ is_permanent_marker line = false)
    (before ++ body) →
  (is_current_marker head = true →
   current_section (scan_lines (before ++ head :: body))
   = head :: through_stop current_stop body
   ∧ permanent_section (scan_lines (before ++ head :: body)) = [])
  ∧ (is_permanent_marker head = true →
     permanent_section (scan_lines (before ++ head :: body))
     = head :: through_stop permanent_stop body
     ∧ current_section (scan_lines (before ++ head :: body)) = []).
Proof.
  intros [Hbefore Hbody]%Forall_app. unfold scan_lines.
  rewrite fold_left_app, (scan_idle before) by done. simpl.
  split; intros Hhead.
  - rewrite (scan_line_current _ _ Hhead). simpl.
    by destruct (scan_current_body body (Sections true false [head] []) eq_refl eq_refl Hbody)
      as [-> ->].
  - rewrite (scan_line_permanent _ _ Hhead). simpl.
    by destruct (scan_permanent_body body (Sections false true [] [head])
                   eq_refl eq_refl Hbody) as [-> ->].
Qed.

Lemma section_ends_at_stop_keyword_witness :
  current_section
    (scan_lines [ "KYC Form"; "Name: Ram Kumar"; "Current Address"; "Country: Nepal";
                  "Tole: Baneshwor"; "Bank Details"; "Country: India" ])
  = [ "Current Address"; "Country: Nepal"; "Tole: Baneshwor"; "Bank Details" ]
  ∧ permanent_section
      (scan_lines [ "KYC Form"; "Name: Ram Kumar"; "Current Address"; "Country: Nepal";
                    "Tole: Baneshwor"; "Bank Details"; "Country: India" ])
    = [].
Proof.
  apply (proj1 (section_ends_at_stop_keyword
                  [ "KYC Form"; "Name: Ram Kumar" ] "Current Address"
                  [ "Country: Nepal"; "Tole: Baneshwor"; "Bank Details"; "Country: India" ]
                  ltac:(by apply (bool_decide_unpack _); vm_compute))).
  vm_compute. reflexivity.
Defined.

(** ** The text cleaner *)

Section CleanText.
Import PyStr.

Lemma one_line_nil : one_line "".
Proof. done. Qed.

Lemma split_lines_one_line (s : string) : Forall one_line (split_lines s).
Proof.
  induction s as [|c s IH]; simpl.
  { apply Forall_cons. split; [apply one_line_nil|by apply Forall_nil]. }
  destruct (split_lines s) as [|l ls] eqn:E.
  - destruct (split_lines_cons s) as (l & ls & E'). congruence.
  - apply Forall_cons in IH as [Hl Hls].
    destruct (Ascii.eqb c nl_char) eqn:Ec.
    + apply Forall_cons. split; [apply one_line_nil|]. by apply Forall_cons.
    + apply Forall_cons. split; [|done].
      apply one_line_cons. split; [|done]. by apply Ascii.eqb_neq.
Qed.

Lemma join_split (s : string) : join nl (split_lines s) = s.
Proof.
  induction s as [|c s IH]; [done|]. simpl.
  destruct (split_lines s) as [|l ls] eqn:E.
  - destruct (split_lines_cons s) as (l & ls & E'). congruence.
  - destruct (Ascii.eqb c nl_char) eqn:Ec.
    + apply Ascii.eqb_eq in Ec as ->. rewrite join_cons, IH. done.
    + destruct ls as [|l' ls].
      * simpl in *. by rewrite IH.
      * rewrite join_cons in *. rewrite append_cons. by rewrite IH.
Qed.

Lemma cleaned_lines_clean (lines : list string) :
  Forall (fun line => line ≠ "" ∧ trimmed line) (cleaned_lines lines).
Proof.
  induction lines as [|line lines IH]; simpl; [by apply Forall_nil|].
  destruct (truthy (strip line)) eqn:E; [|done].
  apply Forall_cons. split; [|done].
  split; [by apply truthy_true|apply trimmed_strip].
Qed.

Lemma cleaned_lines_one_line (lines : list string) :
  Forall one_line lines → Forall one_line (cleaned_lines lines).
Proof.
  induction 1 as [|line lines Hl _ IH]; simpl; [by apply Forall_nil|].
  destruct (truthy (strip line)); [|done].
  apply Forall_cons. split; [|done]. by apply contains_strip.
Qed.

Lemma cleaned_lines_fixed (lines : list string) :
  Forall (fun line => line ≠ "" ∧ trimmed line) lines → cleaned_lines lines = lines.
Proof.
  induction 1 as [|line lines [Hne Ht] _ IH]; simpl; [done|].
  rewrite Ht, IH. by apply truthy_true in Hne as ->.
Qed.

(** The lines of the cleaned text are the cleaned lines of the text. *)
Lemma clean_text_lines (text : string) :
  _clean_text text = ""
  ∨ split_lines (_clean_text text) = cleaned_lines (split_lines text)
    ∧ _clean_text text = join nl (cleaned_lines (split_lines text)).
Proof.
  unfold _clean_text. destruct (truthy text); simpl; [|by left].
  destruct (cleaned_lines (split_lines text)) as [|l ls] eqn:E; [by left|].
  right. split; [|done]. apply split_lines_join. rewrite <- E.
  apply cleaned_lines_one_line, split_lines_one_line.
Qed.

Lemma append_nil_r (s : string) : s +:+ "" = s.
Proof. induction s as [|c s IH]; [done|]. by rewrite append_cons, IH. Qed.

Lemma visible_app (a b : string) : visible (a +:+ b) = visible a +:+ visible b.
Proof.
  unfold visible. induction a as [|c a IH]; [done|].
  rewrite append_cons. simpl. destruct (negb (isspace c)); [|done].
  by rewrite append_cons, IH.
Qed.

Lemma visible_lstrip (s : string) : visible (lstrip s) = visible s.
Proof.
  unfold visible. induction s as [|c s IH]; [done|]. simpl.
  destruct (isspace c) eqn:E; simpl; [done|]. by rewrite E.
Qed.

Lemma visible_rstrip (s : string) : visible (rstrip s) = visible s.
Proof.
  unfold visible. induction s as [|c s IH]; [done|]. simpl.
  destruct (isspace c) eqn:E; simpl.
  - destruct (truthy (rstrip s)) eqn:Et; simpl; [by rewrite E|].
    apply truthy_false in Et. by rewrite Et in IH.
  - by rewrite E, IH.
Qed.

Lemma visible_strip (s : string) : visible (strip s) = visible s.
Proof. unfold strip. by rewrite visible_rstrip, visible_lstrip. Qed.

Lemma visible_join (lines : list string) :
  visible (join nl lines) = foldr (fun line rest => visible line +:+ rest) "" lines.
Proof.
  induction lines as [|l [|l' ls] IH]; [done| |].
  - simpl. by rewrite append_nil_r.
  - rewrite join_cons. change (String nl_char ?x) with (nl +:+ x).
    rewrite !visible_app, IH. done.
Qed.

Lemma visible_cleaned_lines (lines : list string) :
  foldr (fun line rest => visible line +:+ rest) "" (cleaned_lines lines)
  = foldr (fun line rest => visible line +:+ rest) "" lines.
Proof.
  induction lines as [|line lines IH]; [done|]. simpl.
  destruct (truthy (strip line)) eqn:E; simpl.
  - by rewrite visible_strip, IH.
  - apply truthy_false in E. rewrite IH, <- (visible_strip line), E. done.
Qed.

Lemma clean_text_visible (text : string) : visible (_clean_text text) = visible text.
Proof.
  unfold _clean_text. destruct (truthy text) eqn:E; simpl.
  - rewrite visible_join, visible_cleaned_lines, <- visible_join. by rewrite join_split.
  - by apply truthy_false in E as ->.
Qed.

Lemma visible_nil (s : string) : visible s = "" ↔ sall isspace s = true.
Proof.
  unfold visible. induction s as [|c s IH]; [done|]. simpl.
  destruct (isspace c); simpl; [done|]. split; done.
Qed.

Lemma rstrip_app (a b : string) : rstrip b ≠ "" → rstrip (a +:+ b) = a +:+ rstrip b.
Proof.
  intros Hb. induction a as [|c a IH]; [done|].
  rewrite append_cons. simpl. rewrite IH.
  destruct (a +:+ rstrip b) eqn:E.
  - destruct a; [rewrite append_nil in E; congruence|].
    rewrite append_cons in E. discriminate.
  - simpl. by rewrite andb_false_r, append_cons, E.
Qed.

Lemma join_trimmed (lines : list string) :
  Forall (fun line => line ≠ "" ∧ trimmed line) lines → trimmed (join nl lines).
Proof.
  intros Hlines. apply trimmed_ends.
  induction Hlines as [|l lines [Hne [Hh Hr]%trimmed_ends] Hlines IH]; [done|].
  destruct lines as [|l' ls]; [done|].
  rewrite join_cons. destruct IH as [_ IH].
  assert (join nl (l' :: ls) ≠ "") as Hj.
  { apply Forall_cons in Hlines as [[Hne' _] _].
    destruct ls; [done|]. rewrite join_cons. by destruct l'. }
  split.
  - destruct l; [done|]. by rewrite append_cons.
  - rewrite rstrip_app.
    + f_equal. apply rstrip_cons. split; [done|]. done.
    + rewrite (proj2 (rstrip_cons _ _)); [done|]. split; [done|]. done.
Qed.

Lemma clean_text_trimmed (text : string) : trimmed (_clean_text text).
Proof.
  unfold _clean_text. destruct (truthy text); simpl; [|done].
  apply join_trimmed, cleaned_lines_clean.
Qed.

End CleanText.

(** X11. Every line of the text that [_clean_text] returns is non-empty
    and trimmed, so the text holds no blank line, and the text as a whole
    is trimmed: the caller's test [extracted_text.strip()] is a test of
    the text itself. *)
Theorem cleaned_text_has_clean_lines (text : string) :
  (_clean_text text = ""
   ∨ Forall (fun line => line ≠ "" ∧ PyStr.strip line = line)
       (PyStr.split_lines (_clean_text text)))
  ∧ PyStr.strip (_clean_text text) = _clean_text text.
Proof.
  split; [|apply clean_text_trimmed].
  destruct (clean_text_lines text) as [H|[-> _]]; [by left|right].
  apply cleaned_lines_clean.
Qed.

(** X12. Cleaning a cleaned text changes nothing. *)
Theorem clean_text_idempotent (text : string) :
  _clean_text (_clean_text text) = _clean_text text.
Proof.
  destruct (clean_text_lines text) as [->|[Hl Ht]]; [done|].
  unfold _clean_text at 1. rewrite Hl.
  destruct (PyStr.truthy (_clean_text text)) eqn:E; simpl.
  - rewrite cleaned_lines_fixed by apply cleaned_lines_clean. by rewrite Ht.
  - by apply truthy_false in E.
Qed.

(** X13. [_clean_text] removes and changes whitespace only: the
    characters of the text that are not whitespace are those of the
    cleaned text, in the same order. The cleaned text is empty exactly
    when the text holds nothing but whitespace. *)
Theorem clean_text_keeps_visible_characters (text : string) :
  visible (_clean_text text) = visible text
  ∧ (_clean_text text = "" ↔ PyStr.sall PyStr.isspace text = true).
Proof.
  split; [apply clean_text_visible|].
  rewrite <- visible_nil, <- clean_text_visible. split; [by intros ->|].
  intros Hall%visible_nil.
  pose proof (clean_text_trimmed text) as Ht. unfold trimmed, PyStr.strip in Ht.
  rewrite <- Ht. apply rstrip_spaces.
  apply visible_nil. rewrite visible_lstrip. by apply visible_nil.
Qed.
